(** * Streaming analytics consumer: sliding windows, deduplication, worker loop

    Shallow embedding of [streaming-kafka/analytics_consumer/main.py].

    Conventions of the embedding.
    - A Python [float] is the rational [Q] it denotes.  An arithmetic
      operation on floats rounds its exact result to the nearest double, ties
      to even ([round64]); comparisons [<], [==] are exact.  Infinities, NaN
      and results beyond the largest finite double are outside the embedding.
    - A Python [int] is a [Z]; [len] of a container is [Z.of_nat (length _)].
    - A [collections.deque] is a [list] whose head is the left end:
      [popleft] removes the head, [append] adds at the tail.
    - A [dict] keyed by strings is a [gmap string _].
    - Every call of [time.time()] is an explicit argument of the operation
      that performs it, in the order in which the calls are made.
    - An operation that can raise returns a [result]. *)

From Stdlib Require Import QArith Qround Qpower Qminmax Lqa Lia ZArith List.
From stdpp Require Import gmap strings list fin_maps pretty.

Open Scope Q_scope.

(** ** Exceptions *)

Inductive exn : Type :=
| ValueError
| AttributeError
| ZeroDivisionError
| RecursionError
| OverflowError
| OSError
| KafkaException (code : Z).

Inductive result (A : Type) : Type :=
| Ok (a : A)
| Raise (e : exn).

Arguments Ok {A} a.
Arguments Raise {A} e.

#[global] Instance result_ret : MRet result := fun A a => Ok a.

#[global] Instance result_bind : MBind result := fun A B k r =>
  match r with
  | Ok a => k a
  | Raise e => Raise e
  end.

#[global] Instance result_fmap : FMap result := fun A B f r =>
  match r with
  | Ok a => Ok (f a)
  | Raise e => Raise e
  end.

(** ** Numbers *)

(** *** Doubles

    A finite double is [m * 2 ^ g] with [|m| <= 2 ^ 53] and
    [-1074 <= g]; the doubles of a binade [2 ^ e <= |x| < 2 ^ (e + 1)] are
    the multiples of [2 ^ (e - 52)], and below [2 ^ -1022] the multiples of
    [2 ^ -1074]. *)

Definition pow2 (e : Z) : Q := 2 ^ e.

(** The integer nearest to [x]; the even one when [x] lies halfway. *)
Definition round_half_even (x : Q) : Z :=
  let f := Qfloor x in
  match Qcompare (x - inject_Z f) (1 # 2) with
  | Lt => f
  | Gt => (f + 1)%Z
  | Eq => if Z.even f then f else (f + 1)%Z
  end.

(** For [0 < x], the [e] with [2 ^ e <= x < 2 ^ (e + 1)]. *)
Definition floor_log2 (x : Q) : Z :=
  let k := (Z.log2 (Qnum x) - Z.log2 (Z.pos (Qden x)))%Z in
  if Qle_bool (pow2 k) x then k else (k - 1)%Z.

(** The binade of [0 <= x]; the subnormal numbers share the lowest one. *)
Definition binade (x : Q) : Z := Z.max (floor_log2 x) (-1022).

(** The multiple of [2 ^ g] nearest to [x]. *)
Definition round_to (g : Z) (x : Q) : Q :=
  inject_Z (round_half_even (x / pow2 g)) * pow2 g.

(** The double nearest to [x], ties to even: what every float operation
    returns for its exact result [x]. *)
Definition round64 (x : Q) : Q :=
  if Qle_bool 0 x then round_to (binade x - 52) x
  else - round_to (binade (- x) - 52) (- x).

(** [x] is a double, as every value of [time.time()] is. *)
Definition is_double (x : Q) : bool := Qeq_bool (round64 x) x.

(** *** Operators *)

(** [x < y] on floats. *)
Definition Qltb (x y : Q) : bool := negb (Qle_bool y x).

(** [max(a, b)]: the first argument unless the second is strictly larger. *)
Definition py_max (a b : Q) : Q := if Qltb a b then b else a.

(** [float(n)] of an int, as made when an int meets a float in an
    operation. *)
Definition float_of_int (n : Z) : Q := round64 (inject_Z n).

(** [a - b] and [a * b] on floats. *)
Definition py_sub (a b : Q) : Q := round64 (a - b).

Definition py_mul (a b : Q) : Q := round64 (a * b).

(** [a / b] for a divisor that is not zero. *)
Definition py_div (a b : Q) : Q := round64 (a / b).

(** [a / b], true division; [ZeroDivisionError] when [b] is zero.  The
    quotient of two ints is rounded in the same way, from the exact
    operands. *)
Definition py_truediv (a b : Q) : result Q :=
  if Qeq_bool b 0 then Raise ZeroDivisionError else Ok (py_div a b).

(** [int(x)] of a float: truncation toward zero. *)
Definition py_int (x : Q) : Z := Z.quot (Qnum x) (Z.pos (Qden x)).

(** The readings of a clock that never runs backwards. *)
Fixpoint nondecreasing (ts : list Q) : bool :=
  match ts with
  | [] => true
  | t :: rest => forallb (Qle_bool t) rest && nondecreasing rest
  end.

(** ** DuplicateFilter *)

Module DuplicateFilter.

Record t : Type := mk {
  ttl : Q;
  _seen : gmap string Q;
  _order : list (Q * string)
}.

Definition __init__ (ttl_seconds : Q) : t :=
  mk (py_max ttl_seconds 1) ∅ [].

(** The [while] loop of [_evict]: pop the left end while it is older than
    the cutoff, dropping the popped identity from [_seen]. *)
Fixpoint evict_loop (cutoff : Q) (seen : gmap string Q)
    (order : list (Q * string)) : gmap string Q * list (Q * string) :=
  match order with
  | [] => (seen, [])
  | (ts, event_id) :: rest =>
      if Qltb ts cutoff
      then evict_loop cutoff (delete event_id seen) rest
      else (seen, order)
  end.

Definition _evict (now : Q) (s : t) : t :=
  let cutoff := py_sub now (ttl s) in
  let '(seen, order) := evict_loop cutoff (_seen s) (_order s) in
  mk (ttl s) seen order.

Definition register (now : Q) (event_id : string) (s : t) : bool * t :=
  let s1 := _evict now s in
  match _seen s1 !! event_id with
  | Some _ => (true, s1)
  | None =>
      (false,
       mk (ttl s1) (<[event_id := now]> (_seen s1))
          (_order s1 ++ [(now, event_id)]))
  end.

(** A sequence of [register] calls, each with the clock reading it makes.
    The history pairs every call with the value it returned. *)
Fixpoint run (calls : list (Q * string)) (s : t)
    : list (Q * string * bool) * t :=
  match calls with
  | [] => ([], s)
  | (now, event_id) :: rest =>
      let '(b, s1) := register now event_id s in
      let '(hist, s2) := run rest s1 in
      ((now, event_id, b) :: hist, s2)
  end.

(** Every identity of the deque occurs once, and [_seen] maps exactly the
    identities of the deque to their timestamps. *)
Definition dedup_wf (seen : gmap string Q) (order : list (Q * string)) : Prop :=
  NoDup (map snd order) /\
  forall id ts, seen !! id = Some ts <-> In (ts, id) order.

(** What a filter knows about the calls made so far: the deque is in clock
    order, every entry stems from a call that returned [False], and every
    such call that no call made since would evict (its timestamp is not
    below the cutoff [now - ttl] of any of them) still has its entry. *)
Record dedup_inv (hist : list (Q * string * bool)) (s : t) : Prop := {
  inv_sorted : nondecreasing (map fst (_order s)) = true;
  inv_wf : dedup_wf (_seen s) (_order s);
  inv_sound : forall ts id, In (ts, id) (_order s) -> In (ts, id, false) hist;
  inv_complete : forall ts id,
    In (ts, id, false) hist ->
    (forall c, In c hist -> py_sub c.1.1 (ttl s) <= ts) ->
    In (ts, id) (_order s)
}.

End DuplicateFilter.

(** ** UniqueOrderWindow *)

Module UniqueOrderWindow.

Record t : Type := mk {
  window : Q;
  _entries : gmap string Q;
  _order : list (Q * string)
}.

Definition __init__ (window_seconds : Q) : t :=
  mk (py_max window_seconds 1) ∅ [].

(** The [while] loop of [_evict]: a popped pair removes its key from
    [_entries] only when the key's current timestamp is the popped one. *)
Fixpoint evict_loop (cutoff : Q) (entries : gmap string Q)
    (order : list (Q * string)) : gmap string Q * list (Q * string) :=
  match order with
  | [] => (entries, [])
  | (ts, order_id) :: rest =>
      if Qltb ts cutoff
      then
        let entries' :=
          match entries !! order_id with
          | Some ts' => if Qeq_bool ts' ts then delete order_id entries else entries
          | None => entries
          end in
        evict_loop cutoff entries' rest
      else (entries, order)
  end.

Definition _evict (now : Q) (s : t) : t :=
  let cutoff := py_sub now (window s) in
  let '(entries, order) := evict_loop cutoff (_entries s) (_order s) in
  mk (window s) entries order.

(** [if not order_id: return] covers [None] and the empty string; the clock
    is read only past that guard. *)
Definition track (now : Q) (order_id : option string) (s : t) : t :=
  match order_id with
  | None => s
  | Some k =>
      if decide (k = "") then s
      else _evict now (mk (window s) (<[k := now]> (_entries s))
                          (_order s ++ [(now, k)]))
  end.

Definition per_minute (now : Q) (s : t) : result (Q * t) :=
  let s1 := _evict now s in
  let count := Z.of_nat (size (_entries s1)) in
  r ← py_truediv (py_mul (float_of_int count) 60) (window s1);
  Ok (r, s1).

Definition active_orders (now : Q) (s : t) : Z * t :=
  let s1 := _evict now s in
  (Z.of_nat (size (_entries s1)), s1).

(** A sequence of [track] calls, each with its clock reading. *)
Fixpoint run (calls : list (Q * option string)) (s : t) : t :=
  match calls with
  | [] => s
  | (now, order_id) :: rest => run rest (track now order_id s)
  end.

(** The clock reading of the latest [track] call made with key [k]. *)
Fixpoint last_track (calls : list (Q * option string)) (k : string) : option Q :=
  match calls with
  | [] => None
  | (now, order_id) :: rest =>
      match last_track rest k with
      | Some ts => Some ts
      | None => if decide (order_id = Some k) then Some now else None
      end
  end.

(** What a window knows about the [track] calls made so far: the deque is in
    clock order, a key of [_entries] carries the time of its latest call and
    has a pair in the deque, and a key whose latest call no call made since
    would evict is still in [_entries]. *)
Record window_inv (calls : list (Q * option string)) (s : t) : Prop := {
  inv_sorted : nondecreasing (map fst (_order s)) = true;
  inv_bound : forall ts k, In (ts, k) (_order s) -> In ts (map fst calls);
  inv_queued : forall k ts, _entries s !! k = Some ts -> In (ts, k) (_order s);
  inv_latest : forall k ts, _entries s !! k = Some ts -> last_track calls k = Some ts;
  inv_nonempty : _entries s !! "" = None;
  inv_live : forall k ts,
    last_track calls k = Some ts -> k <> "" ->
    (forall c, In c calls -> py_sub c.1 (window s) <= ts) ->
    _entries s !! k = Some ts
}.

End UniqueOrderWindow.

(** ** FailureWindow *)

Module FailureWindow.

Record t : Type := mk {
  window : Q;
  _events : list (Q * bool);
  _failures : Z
}.

Definition __init__ (window_seconds : Q) : t :=
  mk (py_max window_seconds 1) [] 0%Z.

Fixpoint evict_loop (cutoff : Q) (events : list (Q * bool)) (failures : Z)
    : list (Q * bool) * Z :=
  match events with
  | [] => ([], failures)
  | (ts, is_failure) :: rest =>
      if Qltb ts cutoff
      then evict_loop cutoff rest
             (if is_failure then Z.max (failures - 1) 0 else failures)
      else (events, failures)
  end.

Definition _evict (now : Q) (s : t) : t :=
  let cutoff := py_sub now (window s) in
  let '(events, failures) := evict_loop cutoff (_events s) (_failures s) in
  mk (window s) events failures.

Definition track (now : Q) (is_failure : bool) (s : t) : t :=
  _evict now
    (mk (window s) (_events s ++ [(now, is_failure)])
        (if is_failure then (_failures s + 1)%Z else _failures s)).

Definition totals (now : Q) (s : t) : (Z * Z) * t :=
  let s1 := _evict now s in
  ((Z.of_nat (length (_events s1)), _failures s1), s1).

(** [(failures / total * 100) if total else 0.0]: the quotient of the two
    ints is rounded, and so is its product with 100.  The [print] is
    omitted. *)
Definition failure_rate_pct (now : Q) (s : t) : result (Q * t) :=
  let '((total, failures), s1) := totals now s in
  if (total =? 0)%Z then Ok (0, s1)
  else
    q ← py_truediv (inject_Z failures) (inject_Z total);
    Ok (py_mul q 100, s1).

(** The number of deque entries flagged as failures. *)
Definition failed (events : list (Q * bool)) : Z :=
  Z.of_nat (length (List.filter snd events)).

(** The running counter agrees with the deque. *)
Definition counter_inv (s : t) : Prop := _failures s = failed (_events s).

End FailureWindow.

(** ** MetricsAggregator *)

(** The snapshot dict, with its six fixed keys. *)
Module Snapshot.

Record t : Type := mk {
  orders_per_min : Q;
  inventory_events : Z;
  failures : Z;
  failure_rate_pct : Q;
  window_seconds : Z;
  generated_at : Q
}.

End Snapshot.

Module MetricsAggregator.

(** The [stats] dict: its three keys are created by [__init__] and no key is
    added or removed afterwards. *)
Record Stats : Type := mkStats {
  orders : Z;
  inventory : Z;
  duplicates : Z
}.

Record t : Type := mk {
  order_window : UniqueOrderWindow.t;
  failure_window : FailureWindow.t;
  window_seconds : Z;
  stats : Stats
}.

Definition __init__ (window_seconds : Q) : t :=
  mk (UniqueOrderWindow.__init__ window_seconds)
     (FailureWindow.__init__ window_seconds)
     (py_int window_seconds)
     (mkStats 0 0 0).

Definition record_order (now : Q) (order_id : option string) (m : t) : t :=
  mk (UniqueOrderWindow.track now order_id (order_window m))
     (failure_window m)
     (window_seconds m)
     (mkStats (orders (stats m) + 1) (inventory (stats m)) (duplicates (stats m))).

Definition record_inventory (now : Q) (is_failure : bool) (m : t) : t :=
  mk (order_window m)
     (FailureWindow.track now is_failure (failure_window m))
     (window_seconds m)
     (mkStats (orders (stats m)) (inventory (stats m) + 1) (duplicates (stats m))).

Definition record_duplicate (m : t) : t :=
  mk (order_window m)
     (failure_window m)
     (window_seconds m)
     (mkStats (orders (stats m)) (inventory (stats m)) (duplicates (stats m) + 1)).

(** [snapshot] reads the clock four times: in [totals], in [per_minute], in
    the [totals] call made by [failure_rate_pct], and for [generated_at]. *)
Definition snapshot (t_totals t_orders t_rate t_generated : Q) (m : t)
    : result (Snapshot.t * t) :=
  let '((inventory_events, failures), fw1) :=
    FailureWindow.totals t_totals (failure_window m) in
  '(per_min, ow1) ← UniqueOrderWindow.per_minute t_orders (order_window m);
  '(rate, fw2) ← FailureWindow.failure_rate_pct t_rate fw1;
  Ok (Snapshot.mk per_min inventory_events failures rate (window_seconds m)
        t_generated,
      mk ow1 fw2 (window_seconds m) (stats m)).

End MetricsAggregator.

(** ** Message payloads *)

(** The values [json.loads] returns: [None], [bool], [int], [float], [str],
    [list] and [dict].  A dict is kept as its items, in insertion order, with
    distinct keys. *)
#[warnings="-register-all"]
Inductive json : Type :=
| JNull
| JBool (b : bool)
| JInt (n : Z)
| JFloat (q : Q)
| JStr (s : string)
| JArr (items : list json)
| JObj (members : list (string * json)).

(** What [json.loads] does with a text: it returns a value, or raises
    [json.JSONDecodeError] on a text that is not JSON, or raises
    [RecursionError] on a text nested too deep for the interpreter. *)
Inductive parse : Type :=
| Parsed (value : json)
| Malformed
| TooDeep.

(** The library functions the consumer calls on payloads and keys, and the
    sleep of its thread. *)
Class PyRuntime : Type := {
  (** [raw.decode("utf-8")]; [None] is [UnicodeDecodeError]. *)
  bytes_decode_utf8 : list Byte.byte -> option string;
  (** [raw.decode("utf-8", errors="ignore")]. *)
  bytes_decode_utf8_ignore : list Byte.byte -> string;
  (** [json.loads(text)]. *)
  json_loads : string -> parse;
  (** [json.dumps(value, sort_keys=True)]. *)
  json_dumps_sort_keys : json -> string;
  (** [sha1(text.encode("utf-8")).hexdigest()]. *)
  sha1_hexdigest : string -> string;
  (** [str(value)] of a float, a list or a dict. *)
  py_repr : json -> string;
  (** [text.lower()]. *)
  str_lower : string -> string;
  (** [time.sleep(seconds)]: the exception it raises, if any.  It raises
      [ValueError] for a negative length, and [OverflowError] or [OSError]
      for a length the clock of the platform cannot hold. *)
  time_sleep : Q -> option exn
}.

(** [dict.get(key)] of a dict's items. *)
Fixpoint dict_lookup (key : string) (members : list (string * json)) : option json :=
  match members with
  | [] => None
  | (k, v) :: rest => if decide (k = key) then Some v else dict_lookup key rest
  end.

(** Truth value of a payload value, as [or] and [not] take it. *)
Definition truthy (v : json) : bool :=
  match v with
  | JNull => false
  | JBool b => b
  | JInt n => negb (n =? 0)%Z
  | JFloat q => negb (Qeq_bool q 0)
  | JStr s => negb (bool_decide (s = ""))
  | JArr items => negb (bool_decide (items = []))
  | JObj members => match members with [] => false | _ => true end
  end.

Section Payloads.
Context `{PyRuntime}.

(** [str(value)], also what an f-string writes for the value. *)
Definition py_str (v : json) : string :=
  match v with
  | JStr s => s
  | JNull => "None"
  | JBool true => "True"
  | JBool false => "False"
  | JInt n => pretty n
  | _ => py_repr v
  end.

(** [payload.get(key)]: [AttributeError] unless the payload is a dict. *)
Definition payload_get (payload : json) (key : string) : result (option json) :=
  match payload with
  | JObj members => Ok (dict_lookup key members)
  | _ => Raise AttributeError
  end.

(** The [except] clause turns [UnicodeDecodeError] and
    [json.JSONDecodeError] into [ValueError]; a [RecursionError] passes
    through it. *)
Definition _decode_payload (raw_value : option (list Byte.byte)) : result json :=
  match raw_value with
  | None => Ok (JObj [])
  | Some raw =>
      match bytes_decode_utf8 raw with
      | None => Raise ValueError
      | Some text =>
          match json_loads text with
          | Parsed payload => Ok payload
          | Malformed => Raise ValueError
          | TooDeep => Raise RecursionError
          end
      end
  end.

(** The payload is a dict here: [_event_id] has run before. *)
Definition _resolve_order_id (message_key : option (list Byte.byte))
    (payload : list (string * json)) : option string :=
  match dict_lookup "order_id" payload with
  | Some v => Some (py_str v)
  | None =>
      match message_key with
      | Some raw =>
          let text := bytes_decode_utf8_ignore raw in
          if decide (text = "") then None else Some text
      | None => None
      end
  end.

Definition _event_id (topic : string) (message_key : option (list Byte.byte))
    (payload : json) : result string :=
  found ← payload_get payload "order_id";
  let identifier :=
    match default JNull found, message_key with
    | JNull, Some raw => JStr (bytes_decode_utf8_ignore raw)
    | v, _ => v
    end in
  let digest := sha1_hexdigest (json_dumps_sort_keys payload) in
  Ok (topic +:+ ":" +:+
      (if truthy identifier then py_str identifier else "na") +:+ ":" +:+ digest).

End Payloads.

(** ** KafkaAnalyticsWorker *)

(** A polled message: [error()] is [None] or the code of a [KafkaError]. *)
Module Message.

Record t : Type := mk {
  error : option Z;
  topic : string;
  key : option (list Byte.byte);
  value : option (list Byte.byte);
  partition : Z;
  offset : Z
}.

End Message.

(** [KafkaError._PARTITION_EOF] and [KafkaError.UNKNOWN_TOPIC_OR_PART]. *)
Definition _PARTITION_EOF : Z := (-191)%Z.
Definition UNKNOWN_TOPIC_OR_PART : Z := 3%Z.

Module KafkaAnalyticsWorker.

Record Env : Type := mkEnv {
  ORDER_TOPIC : string;
  INVENTORY_TOPIC : string;
  WINDOW_SEC : Q;
  THROTTLE_MS : Z
}.

(** The worker with the aggregator it feeds. *)
Record t : Type := mk {
  env : Env;
  metrics : MetricsAggregator.t;
  deduper : DuplicateFilter.t;
  throttle : Q
}.

Definition __init__ (env : Env) (metrics : MetricsAggregator.t) : t :=
  mk env metrics (DuplicateFilter.__init__ (WINDOW_SEC env))
     (py_div (float_of_int (THROTTLE_MS env)) 1000).

(** What the loop does to the consumer and to the thread: a [commit] that
    returned, a [commit] that raised, a [time.sleep] that returned, and
    [close]. *)
Inductive effect : Type :=
| Commit (msg : Message.t)
| CommitFailed (msg : Message.t)
| Sleep (seconds : Q)
| Close.

(** One turn of the loop: what [poll] returned, the clock readings made
    while the message is handled ([register], then the window's [track]),
    and what the broker answers to the [commit] of the message: [None] when
    it accepts, the code of the [KafkaException] when it does not. *)
Record Poll : Type := mkPoll {
  polled : option Message.t;
  t_register : Q;
  t_record : Q;
  commit_error : option Z
}.

Section Worker.
Context `{PyRuntime}.

Definition _handle_message (t_register t_record : Q) (topic : string)
    (key value : option (list Byte.byte)) (w : t) : result t :=
  match _decode_payload value with
  | Raise ValueError => Ok w
  | Raise e => Raise e
  | Ok payload =>
      event_id ← _event_id topic key payload;
      let '(duplicate, deduper') :=
        DuplicateFilter.register t_register event_id (deduper w) in
      if duplicate
      then Ok (mk (env w) (MetricsAggregator.record_duplicate (metrics w))
                  deduper' (throttle w))
      else if decide (topic = ORDER_TOPIC (env w))
      then
        match payload with
        | JObj members =>
            Ok (mk (env w)
                   (MetricsAggregator.record_order t_record
                      (_resolve_order_id key members) (metrics w))
                   deduper' (throttle w))
        | _ => Raise AttributeError
        end
      else if decide (topic = INVENTORY_TOPIC (env w))
      then
        found ← payload_get payload "status";
        let status := str_lower (py_str (default (JStr "") found)) in
        Ok (mk (env w)
               (MetricsAggregator.record_inventory t_record
                  (bool_decide (status = "failure")) (metrics w))
               deduper' (throttle w))
      else Ok (mk (env w) (metrics w) deduper' (throttle w))
  end.

(** The identity [_handle_message] derives for a polled message. *)
Definition message_identity (msg : Message.t) : result string :=
  payload ← _decode_payload (Message.value msg);
  _event_id (Message.topic msg) (Message.key msg) payload.

(** [_handle_message] on a sequence of messages, each with the clock
    readings made while it is handled; an exception ends the sequence. *)
Fixpoint handle_all (deliveries : list (Q * Q * Message.t)) (w : t) : result t :=
  match deliveries with
  | [] => Ok w
  | (t_reg, t_rec, msg) :: rest =>
      w1 ← _handle_message t_reg t_rec (Message.topic msg) (Message.key msg)
             (Message.value msg) w;
      handle_all rest w1
  end.

(** Every message of the sequence has an identity, and the filter reports
    it as registered when its turn comes. *)
Fixpoint all_duplicates (deliveries : list (Q * Q * Message.t))
    (d : DuplicateFilter.t) : Prop :=
  match deliveries with
  | [] => True
  | (t_reg, _, msg) :: rest =>
      exists event_id,
        message_identity msg = Ok event_id /\
        (DuplicateFilter.register t_reg event_id d).1 = true /\
        all_duplicates rest (DuplicateFilter.register t_reg event_id d).2
  end.

(** The body of the [while] loop for one [poll]: the worker it leaves, what
    it did to the consumer and to the thread, and the exception it ended
    with, if any.  [commit] raises [KafkaException] when the broker refuses;
    [time.sleep] is called with every throttle that is not zero, negative
    ones too, and may raise.  The sleep of one second returns. *)
Definition iteration (p : Poll) (w : t) : t * list effect * option exn :=
  match polled p with
  | None => (w, [], None)
  | Some msg =>
      match Message.error msg with
      | Some code =>
          if (code =? _PARTITION_EOF)%Z then (w, [], None)
          else if (code =? UNKNOWN_TOPIC_OR_PART)%Z then (w, [Sleep 1], None)
          else (w, [], Some (KafkaException code))
      | None =>
          match _handle_message (t_register p) (t_record p)
                  (Message.topic msg) (Message.key msg) (Message.value msg) w with
          | Raise e => (w, [], Some e)
          | Ok w' =>
              match commit_error p with
              | Some code => (w', [CommitFailed msg], Some (KafkaException code))
              | None =>
                  if Qeq_bool (throttle w') 0 then (w', [Commit msg], None)
                  else
                    match time_sleep (throttle w') with
                    | Some e => (w', [Commit msg], Some e)
                    | None => (w', [Commit msg; Sleep (throttle w')], None)
                    end
              end
          end
      end
  end.

(** [run] over the polls made until the stop flag is set; an exception ends
    the loop, and the [finally] clause closes the consumer on both exits. *)
Fixpoint run (polls : list Poll) (w : t) : t * list effect * option exn :=
  match polls with
  | [] => (w, [Close], None)
  | p :: rest =>
      let '(w1, effects, outcome) := iteration p w in
      match outcome with
      | Some e => (w1, effects ++ [Close], Some e)
      | None =>
          let '(w2, later, outcome') := run rest w1 in
          (w2, effects ++ later, outcome')
      end
  end.

End Worker.

End KafkaAnalyticsWorker.

(** ** A small runtime to run the examples

    It stands for the library on the inputs the examples use: text of 7-bit
    bytes, where decoding is the identity and a byte above 127 standing
    alone is malformed UTF-8; the documents [{}], [[]] and [null]; and a text
    of a hundred thousand opening brackets, which is nested too deep to be
    parsed.  Any other text is taken as malformed.  Digests are not
    computed: the serialized payload stands for its digest.  A sleep raises
    [ValueError] when its length is negative and returns otherwise. *)

Module Sample.

Definition is_ascii (b : Byte.byte) : bool := (Byte.to_N b <? 128)%N.

(** A hundred thousand opening brackets. *)
Definition deep_text : string :=
  N.iter 100000 (String (Ascii.ascii_of_nat 91)) "".

Definition runtime : PyRuntime := {|
  bytes_decode_utf8 raw :=
    if forallb is_ascii raw then Some (String.string_of_list_byte raw) else None;
  bytes_decode_utf8_ignore raw :=
    String.string_of_list_byte (List.filter is_ascii raw);
  json_loads text :=
    if decide (text = "{}") then Parsed (JObj [])
    else if decide (text = "[]") then Parsed (JArr [])
    else if decide (text = "null") then Parsed JNull
    else if decide (text = deep_text) then TooDeep
    else Malformed;
  json_dumps_sort_keys v :=
    match v with
    | JObj [] => "{}"
    | JArr [] => "[]"
    | JNull => "null"
    | _ => "?"
    end;
  sha1_hexdigest text := text;
  py_repr _ := "?";
  str_lower text := text;
  time_sleep seconds := if Qltb seconds 0 then Some ValueError else None
|}.

Definition env : KafkaAnalyticsWorker.Env :=
  KafkaAnalyticsWorker.mkEnv "orders" "inventory" 60 0.

(** A worker as [main] builds it. *)
Definition worker : KafkaAnalyticsWorker.t :=
  KafkaAnalyticsWorker.__init__ env (MetricsAggregator.__init__ 60).

(** A message whose value is the single byte 0xff, one whose value is not
    JSON, and one whose value is nested too deep. *)
Definition corrupt : Message.t :=
  Message.mk None "orders" None (Some [Byte.xff]) 0 7.

Definition garbled : Message.t :=
  Message.mk None "orders" None (Some (String.list_byte_of_string "{")) 0 5.

Definition deep : Message.t :=
  Message.mk None "orders" None (Some (String.list_byte_of_string deep_text)) 0 6.

(** An order message without a value, keyed [o1], and a second delivery with
    the same topic, key and value. *)
Definition order : Message.t :=
  Message.mk None "orders" (Some (String.list_byte_of_string "o1")) None 0 8.

Definition order_again : Message.t :=
  Message.mk None "orders" (Some (String.list_byte_of_string "o1")) None 0 9.

(** The worker once [order] has been handled at time 0. *)
Definition worker_after_order : KafkaAnalyticsWorker.t :=
  KafkaAnalyticsWorker.mk env
    (MetricsAggregator.record_order 0 (Some "o1") (MetricsAggregator.__init__ 60))
    (DuplicateFilter.register 0 "orders:o1:{}" (DuplicateFilter.__init__ 60)).2
    (KafkaAnalyticsWorker.throttle worker).

(** A failure at time 0 and a success at time 1, in a window of 60 seconds. *)
Definition aggregator : MetricsAggregator.t :=
  MetricsAggregator.record_inventory 1 false
    (MetricsAggregator.record_inventory 0 true (MetricsAggregator.__init__ 60)).

(** One failure among three inventory events. *)
Definition thirds : MetricsAggregator.t :=
  MetricsAggregator.record_inventory 2 false
    (MetricsAggregator.record_inventory 1 false
       (MetricsAggregator.record_inventory 0 true (MetricsAggregator.__init__ 60))).

(** A worker configured with [THROTTLE_MS=-5]. *)
Definition hasty_worker : KafkaAnalyticsWorker.t :=
  KafkaAnalyticsWorker.__init__
    (KafkaAnalyticsWorker.mkEnv "orders" "inventory" 60 (-5))
    (MetricsAggregator.__init__ 60).

(** The doubles nearest to 1700000059.9 and to 59.9. *)
Definition late : Q := round64 (17000000599 # 10).

Definition short_window : Q := round64 (599 # 10).

End Sample.

(** ** Sequences of calls on the windows and on the aggregator *)

Module Calls.

(** A sequence of [FailureWindow.track] calls, each with its clock reading. *)
Fixpoint track_all (calls : list (Q * bool)) (s : FailureWindow.t)
    : FailureWindow.t :=
  match calls with
  | [] => s
  | (now, is_failure) :: rest =>
      track_all rest (FailureWindow.track now is_failure s)
  end.

(** The tracked events that are not older than the cutoff. *)
Definition within (cutoff : Q) (calls : list (Q * bool)) : list (Q * bool) :=
  List.filter (fun e => Qle_bool cutoff e.1) calls.

(** The calls the worker, the reporter and the HTTP endpoint make on the
    aggregator, each with the clock readings it makes. *)
Inductive call : Type :=
| RecordOrder (now : Q) (order_id : option string)
| RecordInventory (now : Q) (is_failure : bool)
| RecordDuplicate
| TakeSnapshot (t_totals t_orders t_rate t_generated : Q).

Definition apply (c : call) (m : MetricsAggregator.t)
    : result MetricsAggregator.t :=
  match c with
  | RecordOrder now order_id => Ok (MetricsAggregator.record_order now order_id m)
  | RecordInventory now is_failure =>
      Ok (MetricsAggregator.record_inventory now is_failure m)
  | RecordDuplicate => Ok (MetricsAggregator.record_duplicate m)
  | TakeSnapshot t_totals t_orders t_rate t_generated =>
      snd <$> MetricsAggregator.snapshot t_totals t_orders t_rate t_generated m
  end.

(** The calls in the order in which the lock serializes them; an exception
    ends the sequence. *)
Fixpoint run (calls : list call) (m : MetricsAggregator.t)
    : result MetricsAggregator.t :=
  match calls with
  | [] => Ok m
  | c :: rest => m1 ← apply c m; run rest m1
  end.

Definition is_order (c : call) : bool :=
  match c with RecordOrder _ _ => true | _ => false end.

Definition is_inventory (c : call) : bool :=
  match c with RecordInventory _ _ => true | _ => false end.

Definition is_duplicate (c : call) : bool :=
  match c with RecordDuplicate => true | _ => false end.

(** How many calls of a kind a sequence holds. *)
Definition count (kind : call -> bool) (calls : list call) : Z :=
  Z.of_nat (length (List.filter kind calls)).

(** The clock readings a call makes, in order. *)
Definition times (c : call) : list Q :=
  match c with
  | RecordOrder now _ => [now]
  | RecordInventory now _ => [now]
  | RecordDuplicate => []
  | TakeSnapshot t_totals t_orders t_rate t_generated =>
      [t_totals; t_orders; t_rate; t_generated]
  end.

Definition is_record (c : call) : bool :=
  match c with TakeSnapshot _ _ _ _ => false | _ => true end.

(** A sequence of calls without its [snapshot] calls. *)
Definition records (calls : list call) : list call := List.filter is_record calls.

(** [m1] is [m2] up to evictions made no later than [bound], and no pair of
    the order deque of [m2] is from after [bound]. *)
Definition behind (bound : Q) (m1 m2 : MetricsAggregator.t) : Prop :=
  MetricsAggregator.stats m1 = MetricsAggregator.stats m2 /\
  MetricsAggregator.window_seconds m1 = MetricsAggregator.window_seconds m2 /\
  (MetricsAggregator.order_window m1 = MetricsAggregator.order_window m2 \/
   exists t, t <= bound /\
     MetricsAggregator.order_window m1 =
       UniqueOrderWindow._evict t (MetricsAggregator.order_window m2)) /\
  (MetricsAggregator.failure_window m1 = MetricsAggregator.failure_window m2 \/
   exists t, t <= bound /\
     MetricsAggregator.failure_window m1 =
       FailureWindow._evict t (MetricsAggregator.failure_window m2)) /\
  Forall (fun e => e.1 <= bound)
    (UniqueOrderWindow._order (MetricsAggregator.order_window m2)).

(** What [MetricsAggregator.__init__] establishes and every call keeps. *)
Definition aggregator_inv (window_seconds : Q) (m : MetricsAggregator.t) : Prop :=
  UniqueOrderWindow.window (MetricsAggregator.order_window m) =
    py_max window_seconds 1 /\
  FailureWindow.window (MetricsAggregator.failure_window m) =
    py_max window_seconds 1 /\
  FailureWindow.counter_inv (MetricsAggregator.failure_window m) /\
  MetricsAggregator.window_seconds m = py_int window_seconds.

(** The messages committed by a list of effects, in order, and those whose
    commit raised. *)
Fixpoint commits (effects : list KafkaAnalyticsWorker.effect) : list Message.t :=
  match effects with
  | [] => []
  | KafkaAnalyticsWorker.Commit msg :: rest => msg :: commits rest
  | _ :: rest => commits rest
  end.

Fixpoint refused (effects : list KafkaAnalyticsWorker.effect) : list Message.t :=
  match effects with
  | [] => []
  | KafkaAnalyticsWorker.CommitFailed msg :: rest => msg :: refused rest
  | _ :: rest => refused rest
  end.

(** The settings of a worker: topics and throttle, the ttl of the filter,
    the sizes of the two windows and the reported window. *)
Definition settings (w : KafkaAnalyticsWorker.t)
    : KafkaAnalyticsWorker.Env * Q * Q * Q * Q * Z :=
  (KafkaAnalyticsWorker.env w, KafkaAnalyticsWorker.throttle w,
   DuplicateFilter.ttl (KafkaAnalyticsWorker.deduper w),
   UniqueOrderWindow.window (MetricsAggregator.order_window (KafkaAnalyticsWorker.metrics w)),
   FailureWindow.window (MetricsAggregator.failure_window (KafkaAnalyticsWorker.metrics w)),
   MetricsAggregator.window_seconds (KafkaAnalyticsWorker.metrics w)).

(** The polled messages that carry no error, in order. *)
Fixpoint delivered (polls : list KafkaAnalyticsWorker.Poll) : list Message.t :=
  match polls with
  | [] => []
  | p :: rest =>
      match KafkaAnalyticsWorker.polled p with
      | Some msg =>
          match Message.error msg with
          | None => msg :: delivered rest
          | Some _ => delivered rest
          end
      | None => delivered rest
      end
  end.

(** A poll the loop absorbs: nothing polled, the end of a partition, or a
    topic that does not exist yet. *)
Definition transient (p : KafkaAnalyticsWorker.Poll) : bool :=
  match KafkaAnalyticsWorker.polled p with
  | None => true
  | Some msg =>
      match Message.error msg with
      | Some code =>
          (code =? _PARTITION_EOF)%Z || (code =? UNKNOWN_TOPIC_OR_PART)%Z
      | None => false
      end
  end.

(** The sleeps the loop makes on absorbed polls: one second for each
    unknown-topic error. *)
Fixpoint waits (polls : list KafkaAnalyticsWorker.Poll)
    : list KafkaAnalyticsWorker.effect :=
  match polls with
  | [] => []
  | p :: rest =>
      match KafkaAnalyticsWorker.polled p with
      | Some msg =>
          match Message.error msg with
          | Some code =>
              if (code =? _PARTITION_EOF)%Z then waits rest
              else if (code =? UNKNOWN_TOPIC_OR_PART)%Z
              then KafkaAnalyticsWorker.Sleep 1 :: waits rest
              else waits rest
          | None => waits rest
          end
      | None => waits rest
      end
  end.

End Calls.

(** ** Configuration: [_load_env] *)

Module Startup.

(** What [_load_env] raises: [RuntimeError] with its message, or the
    [ValueError] of [float] and [int]. *)
Inductive error : Type :=
| RuntimeError (message : string)
| ValueError.

(** The dict [_load_env] returns. *)
Record Config : Type := mkConfig {
  BOOTSTRAP_SERVERS : string;
  ORDER_TOPIC : string;
  INVENTORY_TOPIC : string;
  GROUP_ID : string;
  AUTO_OFFSET_RESET : string;
  WINDOW_SEC : Q;
  THROTTLE_MS : Z;
  HTTP_HOST : string;
  HTTP_PORT : Z;
  REPORT_INTERVAL_SEC : Q;
  GROUP_INSTANCE_ID : option string
}.

(** The library functions [_load_env] calls on the values of variables. *)
Class Parsers : Type := {
  (** [float(text)] with a finite value; [None] is [ValueError]. *)
  py_float : string -> option Q;
  (** [int(text)]; [None] is [ValueError]. *)
  py_int_of_str : string -> option Z;
  (** [text.strip()]. *)
  str_strip : string -> string
}.

Definition required : list string :=
  ["BOOTSTRAP_SERVERS"; "ORDER_TOPIC"; "INVENTORY_TOPIC"; "GROUP_ID"].

(** [not os.getenv(key)]: the variable is unset or empty. *)
Definition unset (environ : gmap string string) (key : string) : bool :=
  match environ !! key with
  | Some val => bool_decide (val = "")
  | None => true
  end.

Definition missing (environ : gmap string string) : list string :=
  List.filter (unset environ) required.

(** [sep.join(items)]. *)
Fixpoint join (sep : string) (items : list string) : string :=
  match items with
  | [] => ""
  | [item] => item
  | item :: rest => item +:+ sep +:+ join sep rest
  end.

Section LoadEnv.
Context `{Parsers}.

Definition _load_env (environ : gmap string string) : error + Config :=
  match missing environ with
  | _ :: _ =>
      inl (RuntimeError
             ("Missing required env vars: " +:+ join ", " (missing environ)))
  | [] =>
      match py_float (default "60" (environ !! "WINDOW_SEC")),
            py_int_of_str (default "0" (environ !! "THROTTLE_MS")),
            py_int_of_str (default "8080" (environ !! "HTTP_PORT")),
            py_float (default "0" (environ !! "REPORT_INTERVAL_SEC")) with
      | Some window_sec, Some throttle_ms, Some http_port, Some report =>
          inr (mkConfig
                 (default "" (environ !! "BOOTSTRAP_SERVERS"))
                 (default "" (environ !! "ORDER_TOPIC"))
                 (default "" (environ !! "INVENTORY_TOPIC"))
                 (default "" (environ !! "GROUP_ID"))
                 (default "earliest" (environ !! "AUTO_OFFSET_RESET"))
                 window_sec throttle_ms
                 (default "0.0.0.0" (environ !! "HTTP_HOST"))
                 http_port report
                 (let text := str_strip (default "" (environ !! "GROUP_INSTANCE_ID")) in
                  if decide (text = "") then None else Some text))
      | _, _, _, _ => inl ValueError
      end
  end.

End LoadEnv.

(** The environment of the worker, and the worker and aggregator [main]
    builds. *)
Definition worker_env (config : Config) : KafkaAnalyticsWorker.Env :=
  KafkaAnalyticsWorker.mkEnv (ORDER_TOPIC config) (INVENTORY_TOPIC config)
    (WINDOW_SEC config) (THROTTLE_MS config).

Definition worker (config : Config) : KafkaAnalyticsWorker.t :=
  KafkaAnalyticsWorker.__init__ (worker_env config)
    (MetricsAggregator.__init__ (WINDOW_SEC config)).

(** Parsers to run the examples: they know the literals the examples use. *)
Definition sample_parsers : Parsers := {|
  py_float text :=
    if decide (text = "60") then Some 60
    else if decide (text = "0") then Some 0
    else if decide (text = "30") then Some 30
    else None;
  py_int_of_str text :=
    if decide (text = "0") then Some 0%Z
    else if decide (text = "8080") then Some 8080%Z
    else None;
  str_strip text := text
|}.

(** An environment with the four required variables and nothing else, and
    one where the group id is empty and the order topic is not set. *)
Definition sample_environ : gmap string string :=
  <["BOOTSTRAP_SERVERS" := "kafka:9092"]>
    (<["ORDER_TOPIC" := "orders"]>
       (<["INVENTORY_TOPIC" := "inventory"]>
          (<["GROUP_ID" := "analytics"]> ∅))).

Definition sample_environ_incomplete : gmap string string :=
  <["BOOTSTRAP_SERVERS" := "kafka:9092"]>
    (<["INVENTORY_TOPIC" := "inventory"]>
       (<["GROUP_ID" := ""]> (<["WINDOW_SEC" := "sixty"]> ∅))).

End Startup.

(** ** A runtime that knows more documents

    As [Sample.runtime], and the objects whose [order_id] is [null], whose
    [order_id] is the string [o7], and whose [status] is [FAILURE]. *)

Module SampleOrders.

Definition quote : string := String (Ascii.ascii_of_nat 34) "".

(** The texts of the objects, with keys and strings in double quotes. *)
Definition null_order_text : string :=
  "{" +:+ quote +:+ "order_id" +:+ quote +:+ ": null}".

Definition o7_order_text : string :=
  "{" +:+ quote +:+ "order_id" +:+ quote +:+ ": " +:+ quote +:+ "o7" +:+ quote +:+ "}".

Definition failure_text : string :=
  "{" +:+ quote +:+ "status" +:+ quote +:+ ": " +:+ quote +:+ "FAILURE" +:+ quote +:+ "}".

Definition runtime : PyRuntime := {|
  bytes_decode_utf8 := @bytes_decode_utf8 Sample.runtime;
  bytes_decode_utf8_ignore := @bytes_decode_utf8_ignore Sample.runtime;
  json_loads text :=
    if decide (text = null_order_text) then Parsed (JObj [("order_id", JNull)])
    else if decide (text = o7_order_text)
    then Parsed (JObj [("order_id", JStr "o7")])
    else if decide (text = failure_text)
    then Parsed (JObj [("status", JStr "FAILURE")])
    else @json_loads Sample.runtime text;
  json_dumps_sort_keys v :=
    match v with
    | JObj [(k, JNull)] =>
        if decide (k = "order_id") then null_order_text
        else @json_dumps_sort_keys Sample.runtime v
    | JObj [(k, JStr text)] =>
        if decide (k = "order_id" /\ text = "o7") then o7_order_text
        else if decide (k = "status" /\ text = "FAILURE") then failure_text
        else @json_dumps_sort_keys Sample.runtime v
    | _ => @json_dumps_sort_keys Sample.runtime v
    end;
  sha1_hexdigest := @sha1_hexdigest Sample.runtime;
  py_repr := @py_repr Sample.runtime;
  str_lower text := if decide (text = "FAILURE") then "failure" else text;
  time_sleep := @time_sleep Sample.runtime
|}.

(** An order message keyed [k1] whose [order_id] is [null], one keyed [k1]
    whose [order_id] is [o7], and an inventory message that reports a
    failure. *)
Definition null_order : Message.t :=
  Message.mk None "orders" (Some (String.list_byte_of_string "k1"))
    (Some (String.list_byte_of_string null_order_text)) 0 4.

Definition o7_order : Message.t :=
  Message.mk None "orders" (Some (String.list_byte_of_string "k1"))
    (Some (String.list_byte_of_string o7_order_text)) 0 5.

Definition failed_reservation : Message.t :=
  Message.mk None "inventory" None
    (Some (String.list_byte_of_string failure_text)) 1 2.

End SampleOrders.

(** * Properties *)

(** ** Rounding to a double is monotone, and exact on small integers *)

Lemma pow2_pos e : 0 < pow2 e.
Proof. apply Qpower_0_lt. reflexivity. Qed.

Lemma pow2_add a b : pow2 (a + b) == pow2 a * pow2 b.
Proof. apply Qpower_plus. discriminate. Qed.

Lemma pow2_le a b : (a <= b)%Z -> pow2 a <= pow2 b.
Proof. intros Hab. apply Qpower_le_compat_l; [exact Hab|discriminate]. Qed.

Lemma pow2_lt_inv a b : pow2 a < pow2 b -> (a < b)%Z.
Proof. intros Hab. apply (Qpower_lt_compat_l_inv 2); [exact Hab|reflexivity]. Qed.

Lemma pow2_Z n : (0 <= n)%Z -> pow2 n == inject_Z (2 ^ n).
Proof. intros Hn. symmetry. apply (Zpower_Qpower 2 n Hn). Qed.

Lemma pow2_div a b : pow2 a / pow2 b == pow2 (a - b).
Proof. symmetry. apply Qpower_minus. discriminate. Qed.

Lemma round_half_even_range x :
  (Qfloor x <= round_half_even x <= Qfloor x + 1)%Z.
Proof.
  unfold round_half_even.
  destruct (Qcompare _ _); [destruct (Z.even _)| |]; lia.
Qed.

Lemma round_half_even_mono x y :
  x <= y -> (round_half_even x <= round_half_even y)%Z.
Proof.
  intros Hxy. pose proof (Qfloor_resp_le x y Hxy) as Hf.
  destruct (Z.eq_dec (Qfloor x) (Qfloor y)) as [Heq|Hne].
  - unfold round_half_even. rewrite <- Heq.
    destruct (Qcompare_spec (x - inject_Z (Qfloor x)) (1 # 2)) as [Hx|Hx|Hx];
      destruct (Qcompare_spec (y - inject_Z (Qfloor x)) (1 # 2)) as [Hy|Hy|Hy];
      try lia; try lra; destruct (Z.even (Qfloor x)); lia.
  - pose proof (round_half_even_range x). pose proof (round_half_even_range y).
    lia.
Qed.

Lemma round_half_even_Z x n : x == inject_Z n -> round_half_even x = n.
Proof.
  intros Hx.
  assert (Hn : round_half_even (inject_Z n) = n).
  { unfold round_half_even. rewrite Qfloor_Z.
    destruct (Qcompare_spec (inject_Z n - inject_Z n) (1 # 2)); [lra|done|lra]. }
  pose proof (round_half_even_mono x (inject_Z n)) as H1.
  pose proof (round_half_even_mono (inject_Z n) x) as H2.
  rewrite Hn in H1, H2. apply Z.le_antisymm; [apply H1|apply H2]; lra.
Qed.

Lemma round_to_mono g x y : x <= y -> round_to g x <= round_to g y.
Proof.
  intros Hxy. unfold round_to. pose proof (pow2_pos g) as Hg.
  apply Qmult_le_compat_r; [|lra]. rewrite <- Zle_Qle.
  apply round_half_even_mono. unfold Qdiv. apply Qmult_le_compat_r; [exact Hxy|].
  apply Qinv_le_0_compat. lra.
Qed.

Lemma round_to_0 g x : x == 0 -> round_to g x == 0.
Proof.
  intros Hx. unfold round_to. rewrite (round_half_even_Z _ 0); [ring|].
  rewrite Hx. unfold Qdiv. ring.
Qed.

Lemma round_to_pow2 g e : (g <= e)%Z -> round_to g (pow2 e) == pow2 e.
Proof.
  intros Hge. unfold round_to.
  rewrite (round_half_even_Z _ (2 ^ (e - g))).
  - rewrite <- pow2_Z by lia. rewrite <- pow2_add. by replace (e - g + g)%Z with e by lia.
  - rewrite pow2_div. apply pow2_Z. lia.
Qed.

Lemma floor_log2_spec x :
  0 < x -> pow2 (floor_log2 x) <= x /\ x < pow2 (floor_log2 x + 1).
Proof.
  intros Hx. destruct x as [n d]. unfold floor_log2. simpl Qnum. simpl Qden.
  assert (Hn : (0 < n)%Z) by (unfold Qlt in Hx; simpl in Hx; lia).
  set (a := Z.log2 n). set (b := Z.log2 (Z.pos d)).
  pose proof (Z.log2_spec n Hn) as [Ha1 Ha2]. fold a in Ha1, Ha2.
  pose proof (Z.log2_spec (Z.pos d) eq_refl) as [Hb1 Hb2]. fold b in Hb1, Hb2.
  pose proof (Z.log2_nonneg n) as Ha0. fold a in Ha0.
  pose proof (Z.log2_nonneg (Z.pos d)) as Hb0. fold b in Hb0.
  rewrite Zle_Qle, <- pow2_Z in Ha1, Hb1 by lia.
  rewrite Zlt_Qlt, <- pow2_Z in Ha2, Hb2 by lia.
  set (N := inject_Z n) in *. set (D := inject_Z (Z.pos d)) in *.
  assert (HD : 0 < D) by (pose proof (pow2_pos b); lra).
  assert (Hq : (n # d) * D == N).
  { rewrite Qmake_Qdiv. fold N D. field. lra. }
  set (x := n # d) in *.
  assert (Hup : x < pow2 (a - b + 1)).
  { apply (Qmult_lt_r _ _ D HD). rewrite Hq.
    apply Qlt_le_trans with (pow2 (a - b + 1) * pow2 b).
    - rewrite <- pow2_add. by replace (a - b + 1 + b)%Z with (Z.succ a) by lia.
    - rewrite (Qmult_comm _ (pow2 b)), (Qmult_comm _ D).
      apply Qmult_le_compat_r; [exact Hb1|]. pose proof (pow2_pos (a - b + 1)). lra. }
  assert (Hlow : pow2 (a - b - 1) < x).
  { apply (Qmult_lt_r _ _ D HD). rewrite Hq.
    apply Qlt_le_trans with (pow2 (a - b - 1) * pow2 (Z.succ b)).
    - rewrite (Qmult_comm _ D), (Qmult_comm _ (pow2 (Z.succ b))).
      apply Qmult_lt_compat_r; [apply pow2_pos|exact Hb2].
    - rewrite <- pow2_add. by replace (a - b - 1 + Z.succ b)%Z with a by lia. }
  destruct (Qle_bool (pow2 (a - b)) x) eqn:E.
  - apply Qle_bool_iff in E. split; [exact E|exact Hup].
  - replace (a - b - 1 + 1)%Z with (a - b)%Z by lia. split; [lra|].
    destruct (Qlt_le_dec x (pow2 (a - b))) as [Hlt|Hle]; [exact Hlt|].
    apply Qle_bool_iff in Hle. congruence.
Qed.

Lemma floor_log2_mono x y : 0 < x -> x <= y -> (floor_log2 x <= floor_log2 y)%Z.
Proof.
  intros Hx Hxy. destruct (floor_log2_spec x Hx) as [Hx1 _].
  destruct (floor_log2_spec y) as [_ Hy2]; [lra|].
  assert (H : (floor_log2 x < floor_log2 y + 1)%Z) by (apply pow2_lt_inv; lra).
  lia.
Qed.

Lemma round_pos_mono x y :
  0 <= x -> x <= y ->
  round_to (binade x - 52) x <= round_to (binade y - 52) y.
Proof.
  intros Hx Hxy. destruct (Qlt_le_dec 0 x) as [Hpos|Hzero].
  - pose proof (floor_log2_mono x y Hpos Hxy) as He.
    destruct (floor_log2_spec x Hpos) as [_ Hx2].
    destruct (floor_log2_spec y) as [Hy1 _]; [lra|].
    destruct (Z.eq_dec (binade x) (binade y)) as [Heq|Hne].
    + rewrite Heq. by apply round_to_mono.
    + unfold binade in *.
      assert (Hy : Z.max (floor_log2 y) (-1022) = floor_log2 y) by lia.
      rewrite Hy in *. set (ey := floor_log2 y) in *.
      set (bx := Z.max (floor_log2 x) (-1022)) in *.
      assert (Hbx : (bx + 1 <= ey)%Z) by lia.
      assert (HxP : x <= pow2 ey).
      { apply Qle_trans with (pow2 (floor_log2 x + 1)); [lra|]. apply pow2_le. lia. }
      apply Qle_trans with (pow2 ey).
      * rewrite <- (round_to_pow2 (bx - 52) ey) by lia. by apply round_to_mono.
      * rewrite <- (round_to_pow2 (ey - 52) ey) at 1 by lia. by apply round_to_mono.
  - apply Qle_trans with 0.
    + rewrite round_to_0; lra.
    + rewrite <- (round_to_0 (binade y - 52) 0) by reflexivity.
      apply round_to_mono. lra.
Qed.

Lemma round_pos_nonneg g x : 0 <= x -> 0 <= round_to g x.
Proof.
  intros Hx. rewrite <- (round_to_0 g 0) by reflexivity. by apply round_to_mono.
Qed.

Lemma round64_mono x y : x <= y -> round64 x <= round64 y.
Proof.
  intros Hxy. unfold round64.
  destruct (Qle_bool 0 x) eqn:Ex; destruct (Qle_bool 0 y) eqn:Ey.
  - apply Qle_bool_iff in Ex. by apply round_pos_mono.
  - apply Qle_bool_iff in Ex.
    assert (Hy : ~ 0 <= y) by (rewrite <- Qle_bool_iff; congruence). lra.
  - assert (Hx : ~ 0 <= x) by (rewrite <- Qle_bool_iff; congruence).
    apply Qle_bool_iff in Ey.
    pose proof (round_pos_nonneg (binade (- x) - 52) (- x)).
    pose proof (round_pos_nonneg (binade y - 52) y). lra.
  - assert (Hx : ~ 0 <= x) by (rewrite <- Qle_bool_iff; congruence).
    assert (Hy : ~ 0 <= y) by (rewrite <- Qle_bool_iff; congruence).
    apply Qopp_le_compat. apply round_pos_mono; lra.
Qed.




Lemma round64_nonneg x : 0 <= x -> 0 <= round64 x.
Proof.
  intros Hx. apply Qle_trans with (round64 0); [|by apply round64_mono].
  vm_compute. discriminate.
Qed.

Lemma is_double_eq x : is_double x = true <-> round64 x == x.
Proof. unfold is_double. apply Qeq_bool_iff. Qed.

Lemma py_sub_mono a b w : a <= b -> py_sub a w <= py_sub b w.
Proof. intros Hab. apply round64_mono. lra. Qed.

(** The cutoff of a reading is not after the reading. *)
Lemma py_sub_le t w : is_double t = true -> 0 <= w -> py_sub t w <= t.
Proof.
  intros Ht Hw. apply is_double_eq in Ht. rewrite <- Ht at 2.
  apply round64_mono. lra.
Qed.

(** Rounding the cutoff never evicts an entry that is within the window. *)
Lemma py_sub_within now w ts :
  is_double ts = true -> now - w <= ts -> py_sub now w <= ts.
Proof.
  intros Hts Hle. apply is_double_eq in Hts. rewrite <- Hts.
  by apply round64_mono.
Qed.

Lemma Qltb_lt (x y : Q) : Qltb x y = true <-> x < y.
Proof.
  unfold Qltb. rewrite negb_true_iff, <- not_true_iff_false, Qle_bool_iff.
  split; intros; lra.
Qed.

Lemma Qltb_ge (x y : Q) : Qltb x y = false <-> y <= x.
Proof.
  unfold Qltb. rewrite negb_false_iff, Qle_bool_iff. tauto.
Qed.

Lemma py_max_lower (a : Q) : 1 <= py_max a 1.
Proof.
  unfold py_max. destruct (Qltb a 1) eqn:E.
  - lra.
  - apply Qltb_ge in E. exact E.
Qed.

Lemma py_max_cases (a : Q) :
  (1 <= a -> py_max a 1 = a) /\ (a < 1 -> py_max a 1 = 1).
Proof.
  unfold py_max. destruct (Qltb a 1) eqn:E.
  - apply Qltb_lt in E. split; [lra|done].
  - apply Qltb_ge in E. split; [done|lra].
Qed.

Lemma nondecreasing_cons (a : Q) (l : list Q) :
  nondecreasing (a :: l) = true <->
  Forall (fun b => a <= b) l /\ nondecreasing l = true.
Proof.
  simpl. rewrite andb_true_iff, forallb_forall, Forall_forall.
  split; intros [H1 H2]; split; auto; intros b Hb.
  - apply Qle_bool_iff, H1. by apply list_elem_of_In.
  - apply Qle_bool_iff, H1. by apply list_elem_of_In.
Qed.

Lemma nondecreasing_app (l1 l2 : list Q) :
  nondecreasing (l1 ++ l2) = true <->
  nondecreasing l1 = true /\ nondecreasing l2 = true /\
  (forall a b, In a l1 -> In b l2 -> a <= b).
Proof.
  induction l1 as [|x l1 IH].
  - simpl. split; [intros H; repeat split; auto; intros ? ? []|tauto].
  - rewrite <- app_comm_cons, !nondecreasing_cons, IH, Forall_app.
    rewrite !Forall_forall.
    split.
    + intros [[Ha Hb] (H1 & H2 & H3)]. repeat split; auto.
      intros a b [->|Hin] Hb'; auto. apply Hb. by apply list_elem_of_In.
    + intros ([Ha H1] & H2 & H3). repeat split; auto.
      * intros b Hb. apply H3; simpl; auto. by apply list_elem_of_In.
      * intros a b Hin Hb. apply H3; simpl; auto.
Qed.

(** ** DuplicateFilter: the deque and the map stay in step *)

Section DuplicateFilterProofs.
Import DuplicateFilter.

Lemma evict_loop_wf (cutoff : Q) (order : list (Q * string)) :
  forall seen, dedup_wf seen order ->
    dedup_wf (evict_loop cutoff seen order).1 (evict_loop cutoff seen order).2.
Proof.
  induction order as [|[ts id] rest IH]; intros seen Hwf; simpl; auto.
  destruct (Qltb ts cutoff); auto.
  apply IH. destruct Hwf as [Hnd Hmap]. simpl in Hnd.
  apply NoDup_cons in Hnd as [Hnotin Hnd]. split; auto.
  intros k t. destruct (decide (k = id)) as [->|Hne].
  - rewrite lookup_delete_eq. split; [discriminate|].
    intros Hin. exfalso. apply Hnotin. apply list_elem_of_In.
    change id with (snd (t, id)). by apply in_map.
  - rewrite lookup_delete_ne by congruence. rewrite Hmap. simpl.
    split; [intros [Heq|Hin]; [congruence|done]|tauto].
Qed.

Lemma evict_loop_suffix (cutoff : Q) (order : list (Q * string)) :
  forall seen, exists dropped,
    order = dropped ++ (evict_loop cutoff seen order).2 /\
    Forall (fun e => e.1 < cutoff) dropped.
Proof.
  induction order as [|[ts id] rest IH]; intros seen; simpl.
  - exists []. split; auto.
  - destruct (Qltb ts cutoff) eqn:E.
    + destruct (IH (delete id seen)) as (dropped & Heq & Hall).
      exists ((ts, id) :: dropped). split.
      * simpl. by rewrite <- Heq.
      * constructor; auto. simpl. by apply Qltb_lt.
    + exists []. split; auto.
Qed.

Lemma evict_loop_fresh (cutoff : Q) (order : list (Q * string)) :
  forall seen e, nondecreasing (map fst order) = true ->
    In e (evict_loop cutoff seen order).2 -> cutoff <= e.1.
Proof.
  induction order as [|[ts id] rest IH]; intros seen e Hs; simpl; [tauto|].
  simpl in Hs. apply nondecreasing_cons in Hs as [Hall Hs].
  destruct (Qltb ts cutoff) eqn:E.
  - by apply IH.
  - apply Qltb_ge in E. intros [<-|Hin]; simpl; auto.
    rewrite Forall_forall in Hall.
    assert (ts <= e.1) by (apply Hall, list_elem_of_In; by apply in_map).
    lra.
Qed.

Lemma evict_loop_In (cutoff : Q) (order : list (Q * string)) seen e :
  nondecreasing (map fst order) = true ->
  In e (evict_loop cutoff seen order).2 <-> In e order /\ cutoff <= e.1.
Proof.
  intros Hs. destruct (evict_loop_suffix cutoff order seen) as (dropped & Heq & Hall).
  split.
  - intros Hin. split; [|by eapply evict_loop_fresh].
    rewrite Heq. apply in_or_app. by right.
  - intros [Hin Hle]. rewrite Heq in Hin. apply in_app_or in Hin as [Hin|Hin]; auto.
    rewrite Forall_forall in Hall. apply list_elem_of_In, Hall in Hin. lra.
Qed.

Lemma evict_loop_sorted (cutoff : Q) (order : list (Q * string)) seen :
  nondecreasing (map fst order) = true ->
  nondecreasing (map fst (evict_loop cutoff seen order).2) = true.
Proof.
  intros Hs. destruct (evict_loop_suffix cutoff order seen) as (dropped & Heq & _).
  rewrite Heq, map_app in Hs. by apply nondecreasing_app in Hs as (_ & Hs & _).
Qed.

Lemma dedup_evict_ttl now s : ttl (_evict now s) = ttl s.
Proof. unfold _evict. by destruct (evict_loop _ _ _). Qed.

Lemma dedup_evict_fields now s :
  _seen (_evict now s) = (evict_loop (py_sub now (ttl s)) (_seen s) (_order s)).1 /\
  _order (_evict now s) = (evict_loop (py_sub now (ttl s)) (_seen s) (_order s)).2.
Proof. unfold _evict. by destruct (evict_loop _ _ _). Qed.

Lemma dedup_inv_init ttl_seconds : dedup_inv [] (__init__ ttl_seconds).
Proof.
  split; simpl; auto.
  split; [constructor|]. intros id ts. rewrite lookup_empty.
  split; [discriminate|intros []].
Qed.

(** Eviction keeps exactly the entries that are not older than the ttl. *)
Lemma dedup_evict_seen hist s now k :
  dedup_inv hist s ->
  _seen (_evict now s) !! k =
    match _seen s !! k with
    | Some ts => if Qle_bool (py_sub now (ttl s)) ts then Some ts else None
    | None => None
    end.
Proof.
  intros [Hs Hwf _ _].
  pose proof (evict_loop_wf (py_sub now (ttl s)) _ _ Hwf) as [_ Hmap'].
  destruct Hwf as [Hnd Hmap].
  destruct (dedup_evict_fields now s) as [-> _].
  set (seen' := (evict_loop (py_sub now (ttl s)) (_seen s) (_order s)).1) in *.
  destruct (_seen s !! k) as [ts|] eqn:Hk.
  - destruct (Qle_bool (py_sub now (ttl s)) ts) eqn:E.
    + apply Hmap'. apply evict_loop_In; auto. split; [by apply Hmap|].
      by apply Qle_bool_iff.
    + destruct (seen' !! k) as [ts'|] eqn:Hk'; auto.
      apply Hmap', evict_loop_In in Hk' as [Hin Hle]; auto.
      apply Hmap in Hin. simpl in Hle. rewrite Hk in Hin. injection Hin as <-.
      apply Qle_bool_iff in Hle. congruence.
  - destruct (seen' !! k) as [ts'|] eqn:Hk'; auto.
    apply Hmap', evict_loop_In in Hk' as [Hin Hle]; auto.
    apply Hmap in Hin. congruence.
Qed.

Lemma register_step hist s now id :
  dedup_inv hist s ->
  (forall c, In c hist -> c.1.1 <= now) ->
  dedup_inv (hist ++ [(now, id, (register now id s).1)]) (register now id s).2 /\
  ttl (register now id s).2 = ttl s /\
  ((register now id s).1 = true <->
     exists ts, In (ts, id, false) hist /\ py_sub now (ttl s) <= ts).
Proof.
  intros Hinv Hclock. pose proof Hinv as [Hs Hwf Hsound Hcomplete].
  pose proof (evict_loop_wf (py_sub now (ttl s)) _ _ Hwf) as Hwf1.
  pose proof (evict_loop_sorted (py_sub now (ttl s)) (_order s) (_seen s) Hs) as Hs1.
  pose proof (fun e => evict_loop_In (py_sub now (ttl s)) (_order s) (_seen s) e Hs) as HIn1.
  destruct (dedup_evict_fields now s) as [Hseen1 Horder1].
  pose proof (dedup_evict_ttl now s) as Httl1.
  rewrite <- Hseen1, <- Horder1 in Hwf1.
  rewrite <- Horder1 in Hs1, HIn1.
  assert (Hlive : forall ts k, In (ts, k, false) hist -> py_sub now (ttl s) <= ts ->
                    In (ts, k) (_order (_evict now s))).
  { intros ts k Hin Hle. apply HIn1. split; auto.
    apply Hcomplete; auto. intros c Hc. apply Hclock in Hc.
    pose proof (py_sub_mono _ _ (ttl s) Hc). lra. }
  unfold register. destruct Hwf1 as [Hnd1 Hmap1].
  destruct (_seen (_evict now s) !! id) as [ts0|] eqn:Hid; simpl.
  - split; [|split; auto].
    + split; auto.
      * by split.
      * intros ts k Hin. apply in_or_app. left. apply Hsound. by apply HIn1 in Hin as [? _].
      * intros ts k Hin Hold. apply in_app_or in Hin as [Hin|[Heq|[]]]; [|discriminate].
        apply Hlive; auto. rewrite Httl1 in Hold.
        apply (Hold (now, id, true)). apply in_or_app. right. by left.
    + split; auto. intros _. exists ts0. apply Hmap1, HIn1 in Hid as [Hin Hle].
      split; auto.
  - split; [|split; auto].
    + split; simpl.
      * rewrite map_app. apply nondecreasing_app. repeat split; auto.
        intros a b Ha [<-|[]]. apply in_map_iff in Ha as ([ts k] & <- & Hin).
        apply HIn1 in Hin as [Hin _]. apply Hsound, Hclock in Hin. exact Hin.
      * split.
        -- rewrite map_app. simpl. apply NoDup_app. repeat split; auto.
           ++ intros k Hk Hk'. apply list_elem_of_In in Hk' as [<-|[]].
              apply list_elem_of_In, in_map_iff in Hk as ([ts k] & Hk & Hin).
              simpl in Hk. subst k. apply Hmap1 in Hin. congruence.
           ++ apply NoDup_singleton.
        -- intros k ts. destruct (decide (k = id)) as [->|Hne].
           ++ rewrite lookup_insert_eq. split.
              ** intros [= <-]. apply in_or_app. right. by left.
              ** intros Hin. apply in_app_or in Hin as [Hin|[Heq|[]]]; [|congruence].
                 apply Hmap1 in Hin. congruence.
           ++ rewrite lookup_insert_ne by congruence. rewrite Hmap1. split.
              ** intros Hin. apply in_or_app. by left.
              ** intros Hin. apply in_app_or in Hin as [Hin|[Heq|[]]]; [done|congruence].
      * intros ts k Hin. apply in_or_app.
        apply in_app_or in Hin as [Hin|[Heq|[]]].
        -- left. apply Hsound. by apply HIn1 in Hin as [? _].
        -- right. left. congruence.
      * intros ts k Hin Hold. apply in_or_app.
        apply in_app_or in Hin as [Hin|[Heq|[]]].
        -- left. apply Hlive; auto. rewrite Httl1 in Hold.
           apply (Hold (now, id, false)). apply in_or_app. right. by left.
        -- right. left. congruence.
    + split; [discriminate|]. intros (ts & Hin & Hle).
      apply Hlive, Hmap1 in Hin; auto. congruence.
Qed.

Lemma run_inv (calls : list (Q * string)) :
  forall hist s,
    dedup_inv hist s ->
    nondecreasing (map (fun c => c.1.1) hist ++ map fst calls) = true ->
    dedup_inv (hist ++ (run calls s).1) (run calls s).2 /\
    ttl (run calls s).2 = ttl s /\
    map (fun c => c.1.1) (run calls s).1 = map fst calls.
Proof.
  induction calls as [|[now id] rest IH]; intros hist s Hinv Hclock; simpl.
  - by rewrite app_nil_r.
  - assert (Hnow : forall c, In c hist -> c.1.1 <= now).
    { intros c Hc. apply nondecreasing_app in Hclock as (_ & _ & Hle).
      apply Hle; [|by left]. apply in_map_iff. by exists c. }
    destruct (register_step hist s now id Hinv Hnow) as (Hinv1 & Httl1 & _).
    destruct (register now id s) as [b s1]. simpl in Hinv1, Httl1.
    specialize (IH (hist ++ [(now, id, b)]) s1 Hinv1).
    destruct (run rest s1) as [h s2]. simpl in *.
    rewrite map_app, <- app_assoc in IH. specialize (IH Hclock).
    rewrite <- app_assoc in IH. simpl in IH.
    destruct IH as (Hinv2 & Httl2 & Hmap).
    split; [exact Hinv2|]. split; [congruence|by rewrite Hmap].
Qed.

(** C3, as the code has it: on a filter built with [__init__], whose ttl
    [T] is [ttl_seconds] when that is at least 1 and 1 otherwise, and driven
    by any sequence of [register] calls whose clock readings never decrease,
    a further call [register(event_id)] at time [now] returns [True]
    exactly when an earlier call recorded the same identity (returned
    [False] for it) at a time [ts] that is not below the cutoff of the
    call, the double nearest to [now - T].  An identity recorded within the
    trailing [T] seconds, [now - T <= ts], is always such.  When the call
    returns [True] it does nothing but the eviction: the map keeps every
    entry that is not below the cutoff, with its timestamp, and the identity
    keeps the timestamp of the call that recorded it.  When it returns
    [False] the identity is stored with the timestamp [now] and appended to
    the deque. *)
Theorem register_true_iff_recorded_within_ttl
    (ttl_seconds : Q) (calls : list (Q * string)) (now : Q) (event_id : string) :
  nondecreasing (map fst calls ++ [now]) = true ->
  let hist := (run calls (__init__ ttl_seconds)).1 in
  let s := (run calls (__init__ ttl_seconds)).2 in
  let T := ttl s in
  let cutoff := py_sub now T in
  let b := (register now event_id s).1 in
  let s' := (register now event_id s).2 in
  (1 <= ttl_seconds -> T = ttl_seconds) /\
  (ttl_seconds < 1 -> T = 1) /\
  (b = true <-> exists ts, In (ts, event_id, false) hist /\ cutoff <= ts) /\
  (forall ts, In (ts, event_id, false) hist -> is_double ts = true ->
     now - T <= ts -> b = true) /\
  (b = true ->
     s' = _evict now s /\
     (forall k, _seen s' !! k =
        match _seen s !! k with
        | Some ts => if Qle_bool cutoff ts then Some ts else None
        | None => None
        end) /\
     exists ts, In (ts, event_id, false) hist /\
       _seen s !! event_id = Some ts /\ _seen s' !! event_id = Some ts) /\
  (b = false ->
     _seen s' = <[event_id := now]> (_seen (_evict now s)) /\
     _order s' = _order (_evict now s) ++ [(now, event_id)] /\
     _seen s' !! event_id = Some now).
Proof.
  intros Hclock hist s T cutoff b s'.
  destruct (run_inv calls [] (__init__ ttl_seconds) (dedup_inv_init _))
    as (Hinv & Httl & Hmap).
  { simpl. by apply nondecreasing_app in Hclock as (? & _). }
  simpl in Hinv, Httl. fold s in Hinv, Httl. fold hist in Hinv, Hmap.
  fold T in Httl.
  destruct (py_max_cases ttl_seconds) as [Hge Hlt].
  split; [intros Hws; rewrite Httl; by apply Hge|].
  split; [intros Hws; rewrite Httl; by apply Hlt|].
  assert (Hnow : forall c, In c hist -> c.1.1 <= now).
  { intros c Hc. apply nondecreasing_app in Hclock as (_ & _ & Hle).
    apply Hle; [|by left]. rewrite <- Hmap. apply in_map_iff. by exists c. }
  destruct (register_step hist s now event_id Hinv Hnow) as (Hinv' & _ & Hiff).
  fold b T cutoff in Hiff. fold s' b in Hinv'.
  split; [exact Hiff|].
  split.
  { intros ts Hin Hdouble Hle. apply Hiff. exists ts. split; [exact Hin|].
    by apply py_sub_within. }
  pose proof (fun k => dedup_evict_seen hist s now k Hinv) as Hseen.
  fold T cutoff in Hseen.
  subst b s'. unfold register in *.
  destruct (_seen (_evict now s) !! event_id) as [ts0|] eqn:Hid; simpl in *.
  - split; [|discriminate]. intros _. split; [done|]. split; [exact Hseen|].
    exists ts0. rewrite Hseen in Hid.
    destruct (_seen s !! event_id) as [ts|] eqn:Hs; [|discriminate].
    destruct (Qle_bool cutoff ts) eqn:Hlive; [|discriminate].
    injection Hid as ->. split; [|split; [done|]].
    + destruct Hinv as [_ [_ Hwf] Hsound _]. by apply Hsound, Hwf.
    + by rewrite Hseen, Hs, Hlive.
  - split; [discriminate|]. intros _. repeat split; auto.
    by rewrite lookup_insert_eq.
Qed.

End DuplicateFilterProofs.

(** ** UniqueOrderWindow: live keys *)

Section UniqueOrderWindowProofs.
Import UniqueOrderWindow.

Lemma last_track_app (l1 l2 : list (Q * option string)) (k : string) :
  last_track (l1 ++ l2) k =
    match last_track l2 k with
    | Some ts => Some ts
    | None => last_track l1 k
    end.
Proof.
  induction l1 as [|[now oid] l1 IH]; simpl.
  - by destruct (last_track l2 k).
  - rewrite IH. by destruct (last_track l2 k).
Qed.

Lemma window_evict_suffix (cutoff : Q) (order : list (Q * string)) :
  forall entries, exists dropped,
    order = dropped ++ (evict_loop cutoff entries order).2 /\
    Forall (fun e => e.1 < cutoff) dropped.
Proof.
  induction order as [|[ts k] rest IH]; intros entries; simpl.
  - exists []. split; auto.
  - destruct (Qltb ts cutoff) eqn:E.
    + match goal with |- context [evict_loop cutoff ?m rest] =>
        destruct (IH m) as (dropped & Heq & Hall) end.
      exists ((ts, k) :: dropped). split.
      * simpl. by rewrite <- Heq.
      * constructor; auto. simpl. by apply Qltb_lt.
    + exists []. split; auto.
Qed.

Lemma window_evict_sub (cutoff : Q) (order : list (Q * string)) :
  forall entries k ts,
    (evict_loop cutoff entries order).1 !! k = Some ts -> entries !! k = Some ts.
Proof.
  induction order as [|[ts0 k0] rest IH]; intros entries k ts; simpl; auto.
  destruct (Qltb ts0 cutoff); auto.
  intros Hk. apply IH in Hk.
  destruct (entries !! k0) as [ts'|]; auto.
  destruct (Qeq_bool ts' ts0); auto.
  by apply lookup_delete_Some in Hk as [_ Hk].
Qed.

Lemma window_evict_keep (cutoff : Q) (order : list (Q * string)) :
  forall entries k ts,
    entries !! k = Some ts -> cutoff <= ts ->
    (evict_loop cutoff entries order).1 !! k = Some ts.
Proof.
  induction order as [|[ts0 k0] rest IH]; intros entries k ts Hk Hle; simpl; auto.
  destruct (Qltb ts0 cutoff) eqn:E; auto.
  apply Qltb_lt in E. apply IH; auto.
  destruct (entries !! k0) as [ts'|] eqn:Hk0; auto.
  destruct (Qeq_bool ts' ts0) eqn:Heq; auto.
  apply Qeq_bool_iff in Heq.
  destruct (decide (k = k0)) as [->|Hne].
  - rewrite Hk in Hk0. injection Hk0 as ->. lra.
  - by rewrite lookup_delete_ne.
Qed.

Lemma window_evict_queued (cutoff : Q) (order : list (Q * string)) :
  forall entries,
    (forall k ts, entries !! k = Some ts -> In (ts, k) order) ->
    forall k ts, (evict_loop cutoff entries order).1 !! k = Some ts ->
      In (ts, k) (evict_loop cutoff entries order).2.
Proof.
  induction order as [|[ts0 k0] rest IH]; intros entries Hq k ts; simpl;
    [apply Hq|].
  destruct (Qltb ts0 cutoff) eqn:E; [|apply Hq].
  apply IH. clear k ts. intros k ts Hk.
  assert (Hin : entries !! k = Some ts).
  { destruct (entries !! k0) as [ts'|]; auto.
    destruct (Qeq_bool ts' ts0); auto.
    by apply lookup_delete_Some in Hk as [_ Hk]. }
  destruct (Hq k ts Hin) as [Heq|Hrest]; auto.
  injection Heq as -> ->. rewrite Hin in Hk.
  rewrite (proj2 (Qeq_bool_iff ts ts)) in Hk by reflexivity.
  by rewrite lookup_delete_eq in Hk.
Qed.

Lemma window_evict_fresh (cutoff : Q) (order : list (Q * string)) :
  forall entries e, nondecreasing (map fst order) = true ->
    In e (evict_loop cutoff entries order).2 -> cutoff <= e.1.
Proof.
  induction order as [|[ts k] rest IH]; intros entries e Hs; simpl; [tauto|].
  simpl in Hs. apply nondecreasing_cons in Hs as [Hall Hs].
  destruct (Qltb ts cutoff) eqn:E.
  - by apply IH.
  - apply Qltb_ge in E. intros [<-|Hin]; simpl; auto.
    rewrite Forall_forall in Hall.
    assert (ts <= e.1) by (apply Hall, list_elem_of_In; by apply in_map).
    lra.
Qed.

Lemma window_evict_fields now s :
  window (_evict now s) = window s /\
  _entries (_evict now s) = (evict_loop (py_sub now (window s)) (_entries s) (_order s)).1 /\
  _order (_evict now s) = (evict_loop (py_sub now (window s)) (_entries s) (_order s)).2.
Proof. unfold _evict. by destruct (evict_loop _ _ _). Qed.

Lemma window_inv_init window_seconds : window_inv [] (__init__ window_seconds).
Proof.
  split; simpl; auto; try (intros ? ?; rewrite lookup_empty; discriminate).
Qed.

(** Eviction at the time of a call that is already part of the history. *)
Lemma window_inv_evict calls s now :
  window_inv calls s -> (calls <> [] -> In now (map fst calls)) ->
  window_inv calls (_evict now s).
Proof.
  intros [Hs Hb Hq Hl Hne Hlive] Hnow.
  destruct (window_evict_fields now s) as (HW & He & Ho).
  destruct (window_evict_suffix (py_sub now (window s)) (_order s) (_entries s))
    as (dropped & Heq & _).
  split; rewrite ?HW, ?He, ?Ho.
  - rewrite Heq, map_app in Hs. by apply nondecreasing_app in Hs as (_ & Hs & _).
  - intros ts k Hin. apply (Hb ts k). rewrite Heq. apply in_or_app. by right.
  - by apply window_evict_queued.
  - intros k ts Hk. apply window_evict_sub in Hk. by apply Hl.
  - destruct ((evict_loop (py_sub now (window s)) (_entries s) (_order s)).1 !! "")
      as [ts|] eqn:Hk; auto.
    apply window_evict_sub in Hk. congruence.
  - intros k ts Hk Hnk Hold. apply window_evict_keep; auto.
    destruct calls as [|c calls']; [discriminate|].
    apply in_map_iff in Hnow as (c0 & <- & Hc0); [|discriminate].
    by apply Hold.
Qed.

Lemma window_inv_track calls s now order_id :
  window_inv calls s ->
  (forall c, In c calls -> c.1 <= now) ->
  window_inv (calls ++ [(now, order_id)]) (track now order_id s).
Proof.
  intros Hinv Hclock. pose proof Hinv as [Hs Hb Hq Hl Hne Hlive].
  assert (Hskip : (forall k, k <> "" -> order_id <> Some k) ->
            window_inv (calls ++ [(now, order_id)]) s).
  { intros Hoid. split; auto.
    - intros ts k Hin. rewrite map_app. apply in_or_app. left. eauto.
    - intros k ts Hk. rewrite last_track_app. simpl.
      destruct (decide (order_id = Some k)) as [Heq|_]; auto.
      exfalso. apply (Hoid k); auto. intros ->. congruence.
    - intros k ts Hk Hnk Hold. rewrite last_track_app in Hk. simpl in Hk.
      destruct (decide (order_id = Some k)) as [Heq|_]; [by apply Hoid in Heq|].
      apply Hlive; auto. intros c Hc. apply Hold, in_or_app. by left. }
  unfold track. destruct order_id as [k0|]; [|apply Hskip; congruence].
  destruct (decide (k0 = "")) as [->|Hk0]; [apply Hskip; congruence|].
  apply window_inv_evict.
  - split; simpl.
    + rewrite map_app. apply nondecreasing_app. repeat split; auto.
      intros a b Ha [<-|[]]. apply in_map_iff in Ha as ([ts k] & <- & Hin).
      apply Hb, in_map_iff in Hin as (c & <- & Hc). by apply Hclock.
    + intros ts k Hin. rewrite map_app. apply in_or_app.
      apply in_app_or in Hin as [Hin|[[= <- <-]|[]]]; [left; eauto|right; by left].
    + intros k ts. destruct (decide (k = k0)) as [->|Hne'].
      * rewrite lookup_insert_eq. intros [= <-]. apply in_or_app. right. by left.
      * rewrite lookup_insert_ne by congruence. intros Hk.
        apply in_or_app. left. eauto.
    + intros k ts. rewrite last_track_app. simpl.
      destruct (decide (k = k0)) as [->|Hne'].
      * rewrite lookup_insert_eq. intros [= <-].
        by destruct (decide (Some k0 = Some k0)).
      * rewrite lookup_insert_ne by congruence.
        destruct (decide (Some k0 = Some k)); [congruence|]. eauto.
    + by rewrite lookup_insert_ne.
    + intros k ts. rewrite last_track_app. simpl. intros Hk Hnk Hold.
      destruct (decide (k = k0)) as [->|Hne'].
      * rewrite lookup_insert_eq.
        destruct (decide (Some k0 = Some k0)); congruence.
      * rewrite lookup_insert_ne by congruence.
        destruct (decide (Some k0 = Some k)); [congruence|].
        apply Hlive; auto. intros c Hc. apply Hold, in_or_app. by left.
  - intros _. rewrite map_app. apply in_or_app. right. by left.
Qed.

Lemma window_run_inv (calls : list (Q * option string)) :
  forall past s,
    window_inv past s ->
    nondecreasing (map fst past ++ map fst calls) = true ->
    window_inv (past ++ calls) (run calls s) /\ window (run calls s) = window s.
Proof.
  induction calls as [|[now oid] rest IH]; intros past s Hinv Hclock; simpl.
  - by rewrite app_nil_r.
  - assert (Hnow : forall c, In c past -> c.1 <= now).
    { intros c Hc. apply nondecreasing_app in Hclock as (_ & _ & Hle).
      apply Hle; [|by left]. by apply in_map. }
    pose proof (window_inv_track past s now oid Hinv Hnow) as Hinv1.
    specialize (IH (past ++ [(now, oid)]) (track now oid s) Hinv1).
    rewrite map_app, <- !app_assoc in IH. simpl in IH.
    destruct (IH Hclock) as [Hinv2 HW]. split; auto.
    rewrite HW. unfold track. destruct oid as [k|]; auto.
    destruct (decide (k = "")); auto. by destruct (window_evict_fields now
      (mk (window s) (<[k:=now]> (_entries s)) (_order s ++ [(now, k)]))).
Qed.

Lemma window_run_keeps_size (calls : list (Q * option string)) :
  forall s, UniqueOrderWindow.window (UniqueOrderWindow.run calls s) =
            UniqueOrderWindow.window s.
Proof.
  induction calls as [|[now oid] rest IH]; intros s; simpl; auto.
  rewrite IH. unfold UniqueOrderWindow.track. destruct oid as [k|]; auto.
  destruct (decide (k = "")); auto.
  by destruct (window_evict_fields now
    (UniqueOrderWindow.mk (UniqueOrderWindow.window s)
       (<[k:=now]> (UniqueOrderWindow._entries s))
       (UniqueOrderWindow._order s ++ [(now, k)]))).
Qed.

(** The keys left after eviction at a time not before the calls. *)
Lemma window_live_keys
    (window_seconds : Q) (calls : list (Q * option string)) (now : Q) :
  nondecreasing (map fst calls ++ [now]) = true ->
  forall k ts,
    _entries (_evict now (run calls (__init__ window_seconds))) !! k = Some ts <->
    k <> "" /\ last_track calls k = Some ts /\ py_sub now (py_max window_seconds 1) <= ts.
Proof.
  intros Hclock. set (s := run calls (__init__ window_seconds)).
  destruct (window_run_inv calls [] (__init__ window_seconds)
              (window_inv_init _)) as [Hinv HW].
  { simpl. by apply nondecreasing_app in Hclock as (? & _). }
  simpl in Hinv, HW. fold s in Hinv, HW.
  destruct Hinv as [Hs Hb Hq Hl Hne Hlive].
  destruct (window_evict_fields now s) as (_ & He & Ho).
  rewrite He, HW. intros k ts. split.
  - intros Hk. pose proof (window_evict_sub _ _ _ _ _ Hk) as Hk0.
    split; [intros ->; congruence|]. split; auto.
    apply window_evict_queued in Hk; auto.
    by apply window_evict_fresh in Hk.
  - intros (Hnk & Hk & Hle). apply window_evict_keep; auto.
    apply Hlive; auto. intros c Hc. rewrite HW.
    apply nondecreasing_app in Hclock as (_ & _ & Hclock).
    assert (Hc' : c.1 <= now) by (apply Hclock; [by apply in_map|by left]).
    pose proof (py_sub_mono _ _ (py_max window_seconds 1) Hc'). lra.
Qed.

(** C4, as the code has it: on a window built with [__init__], whose size
    [W] is [window_seconds] when that is at least 1 and 1 otherwise, and
    driven by any sequence of [track] calls whose clock readings never
    decrease, [active_orders()] at a later time [now] returns the number of
    keys left in [_entries], and a key is left exactly when it is not empty
    and its latest [track] call was made at a time [ts] that is not below
    the cutoff of the call, the double nearest to [now - W]; the timestamp
    kept for the key is that of its latest call.  A key whose latest call
    lies within the trailing [W] seconds, [now - W <= ts], is always such:
    a key tracked again stays counted until the window has passed since its
    latest call, whatever became of its earlier entries. *)
Theorem active_orders_counts_keys_tracked_within_window
    (window_seconds : Q) (calls : list (Q * option string)) (now : Q) :
  nondecreasing (map fst calls ++ [now]) = true ->
  let s := run calls (__init__ window_seconds) in
  let W := window s in
  let cutoff := py_sub now W in
  let n := (active_orders now s).1 in
  let s' := (active_orders now s).2 in
  (1 <= window_seconds -> W = window_seconds) /\
  (window_seconds < 1 -> W = 1) /\
  n = Z.of_nat (size (_entries s')) /\
  (forall k ts,
     _entries s' !! k = Some ts <->
     k <> "" /\ last_track calls k = Some ts /\ cutoff <= ts) /\
  (forall k ts,
     k <> "" -> last_track calls k = Some ts -> is_double ts = true ->
     now - W <= ts -> _entries s' !! k = Some ts).
Proof.
  intros Hclock s W cutoff n s'.
  assert (HW : W = py_max window_seconds 1) by apply window_run_keeps_size.
  destruct (py_max_cases window_seconds) as [Hge Hlt].
  split; [intros Hws; rewrite HW; by apply Hge|].
  split; [intros Hws; rewrite HW; by apply Hlt|].
  split; [done|].
  pose proof (window_live_keys window_seconds calls now Hclock) as Hlive.
  fold s in Hlive. rewrite <- HW in Hlive. fold cutoff in Hlive.
  split; [exact Hlive|].
  intros k ts Hk Hlast Hdouble Hle. apply Hlive.
  split; [exact Hk|]. split; [exact Hlast|]. by apply py_sub_within.
Qed.

End UniqueOrderWindowProofs.

Lemma py_truediv_ok (a b : Q) : ~ b == 0 -> py_truediv a b = Ok (py_div a b).
Proof.
  intros Hb. unfold py_truediv. destruct (Qeq_bool b 0) eqn:E; auto.
  by apply Qeq_bool_iff in E.
Qed.



(** ** FailureWindow: the running counter *)

Section FailureWindowProofs.
Import FailureWindow.

Lemma failed_cons ts (b : bool) events :
  failed ((ts, b) :: events) = ((if b then 1 else 0) + failed events)%Z.
Proof. unfold failed. destruct b; simpl; lia. Qed.

Lemma failed_app events1 events2 :
  failed (events1 ++ events2) = (failed events1 + failed events2)%Z.
Proof. unfold failed. rewrite List.filter_app, length_app. lia. Qed.

Lemma failed_bounds events : (0 <= failed events <= Z.of_nat (length events))%Z.
Proof.
  unfold failed. pose proof (List.filter_length_le snd events). lia.
Qed.

Lemma failure_evict_counter (cutoff : Q) (events : list (Q * bool)) :
  forall failures, failures = failed events ->
    (evict_loop cutoff events failures).2 =
      failed (evict_loop cutoff events failures).1.
Proof.
  induction events as [|[ts b] rest IH]; intros failures Hf; simpl; auto.
  destruct (Qltb ts cutoff); auto.
  apply IH. rewrite failed_cons in Hf. pose proof (failed_bounds rest).
  destruct b; lia.
Qed.

Lemma failure_evict_fields now s :
  window (_evict now s) = window s /\
  _events (_evict now s) = (evict_loop (py_sub now (window s)) (_events s) (_failures s)).1 /\
  _failures (_evict now s) = (evict_loop (py_sub now (window s)) (_events s) (_failures s)).2.
Proof. unfold _evict. by destruct (evict_loop _ _ _). Qed.

Lemma counter_inv_evict now s : counter_inv s -> counter_inv (_evict now s).
Proof.
  unfold counter_inv. intros Hs.
  destruct (failure_evict_fields now s) as (_ & -> & ->).
  by apply failure_evict_counter.
Qed.

(** Both roundings keep the rate between 0 and 100. *)
Lemma ratio_bounds (f n : Z) :
  (0 <= f <= n)%Z -> (0 < n)%Z ->
  0 <= py_mul (py_div (inject_Z f) (inject_Z n)) 100 <= 100.
Proof.
  intros [Hf Hfn] Hn.
  assert (Hn' : 0 < inject_Z n) by (change 0 with (inject_Z 0); by rewrite <- Zlt_Qlt).
  assert (Hf' : 0 <= inject_Z f) by (change 0 with (inject_Z 0); by rewrite <- Zle_Qle).
  assert (Hfn' : inject_Z f <= inject_Z n) by (by rewrite <- Zle_Qle).
  assert (H0 : 0 <= inject_Z f / inject_Z n).
  { apply Qle_shift_div_l; [exact Hn'|lra]. }
  assert (H1 : inject_Z f / inject_Z n <= 1).
  { apply Qle_shift_div_r; [exact Hn'|lra]. }
  assert (Hq0 : 0 <= py_div (inject_Z f) (inject_Z n)) by (by apply round64_nonneg).
  assert (Hq1 : py_div (inject_Z f) (inject_Z n) <= 1).
  { apply Qle_trans with (round64 1); [by apply round64_mono|].
    vm_compute. discriminate. }
  unfold py_mul. split.
  - apply round64_nonneg. lra.
  - apply Qle_trans with (round64 100); [apply round64_mono; lra|].
    vm_compute. discriminate.
Qed.

Lemma failure_rate_pct_unfold now s :
  failure_rate_pct now s =
    let s1 := _evict now s in
    let total := Z.of_nat (length (_events s1)) in
    if (total =? 0)%Z then Ok (0, s1)
    else Ok (py_mul (py_div (inject_Z (_failures s1)) (inject_Z total)) 100, s1).
Proof.
  unfold failure_rate_pct, totals. simpl.
  destruct (Z.of_nat (length (_events (_evict now s))) =? 0)%Z eqn:E; auto.
  rewrite py_truediv_ok; [done|].
  apply Z.eqb_neq in E. intros Hq. apply E.
  change 0 with (inject_Z 0) in Hq. by apply inject_Z_injective.
Qed.

(** C10: the counter [_failures] equals the number of deque entries flagged
    as failures when the window is created, and [track], [totals] and
    [failure_rate_pct] keep it so.  Hence [totals()] returns
    [0 <= failures <= total], and [failure_rate_pct()] returns a value
    between 0 and 100. *)
Theorem failure_counter_matches_deque (s : t) (now : Q) :
  counter_inv s ->
  (forall window_seconds, counter_inv (__init__ window_seconds)) /\
  (forall is_failure, counter_inv (track now is_failure s)) /\
  counter_inv (totals now s).2 /\
  (0 <= (totals now s).1.2 <= (totals now s).1.1)%Z /\
  exists r, failure_rate_pct now s = Ok (r, (totals now s).2) /\
    counter_inv (totals now s).2 /\ 0 <= r <= 100.
Proof.
  intros Hs. split; [done|]. split.
  { intros b. unfold track. apply counter_inv_evict. unfold counter_inv. simpl.
    rewrite failed_app, Hs. unfold failed. destruct b; simpl; lia. }
  pose proof (counter_inv_evict now s Hs) as Hs1.
  assert (Hb : (0 <= _failures (_evict now s)
                  <= Z.of_nat (length (_events (_evict now s))))%Z).
  { rewrite Hs1. apply failed_bounds. }
  split; [exact Hs1|]. split; [exact Hb|].
  rewrite failure_rate_pct_unfold. simpl.
  destruct (Z.of_nat (length (_events (_evict now s))) =? 0)%Z eqn:E.
  - exists 0. repeat split; auto; lra.
  - eexists. split; [reflexivity|]. split; [exact Hs1|].
    apply ratio_bounds; auto. apply Z.eqb_neq in E. lia.
Qed.

Lemma failure_evict_all (cutoff : Q) (events : list (Q * bool)) :
  forall failures, Forall (fun e => e.1 < cutoff) events ->
    (evict_loop cutoff events failures).1 = [].
Proof.
  induction events as [|[ts b] rest IH]; intros failures Hall; simpl; auto.
  apply Forall_cons in Hall as [Hts Hall]. simpl in Hts.
  apply Qltb_lt in Hts. rewrite Hts. by apply IH.
Qed.

(** C6: [failure_rate_pct()] returns a value for every window state and every
    clock reading, so it raises nothing, [ZeroDivisionError] included: the
    division is made only in the branch where the total is not zero.  When
    every entry is older than the window (none, in particular), it returns
    [0.0] and leaves the deque empty. *)
Theorem failure_rate_pct_empty_window (s : t) (now : Q) :
  Forall (fun e => e.1 < py_sub now (window s)) (_events s) ->
  (forall s0 now0, exists r s1, failure_rate_pct now0 s0 = Ok (r, s1)) /\
  exists s', failure_rate_pct now s = Ok (0, s') /\ _events s' = [] /\
    (totals now s).1.1 = 0%Z.
Proof.
  intros Hall. split.
  - intros s0 now0. rewrite failure_rate_pct_unfold. simpl.
    destruct (_ =? _)%Z; eauto.
  - rewrite failure_rate_pct_unfold. simpl.
    destruct (failure_evict_fields now s) as (_ & He & _).
    pose proof (failure_evict_all _ _ (_failures s) Hall) as Hnil.
    rewrite <- He in Hnil. rewrite Hnil. simpl. eauto.
Qed.

Lemma failure_evict_head (cutoff : Q) (events : list (Q * bool)) :
  forall failures e rest,
    (evict_loop cutoff events failures).1 = e :: rest ->
    In e events /\ cutoff <= e.1.
Proof.
  induction events as [|[ts b] tl IH]; intros failures e rest; simpl; [discriminate|].
  destruct (Qltb ts cutoff) eqn:E.
  - intros Heq. apply IH in Heq as [Hin Hle]. auto.
  - simpl. intros [= <- <-]. apply Qltb_ge in E. auto.
Qed.

Lemma failure_evict_idle (cutoff : Q) (events : list (Q * bool)) failures :
  match events with [] => True | e :: _ => cutoff <= e.1 end ->
  evict_loop cutoff events failures = (events, failures).
Proof.
  destruct events as [|[ts b] rest]; simpl; auto.
  intros Hle. apply Qltb_ge in Hle. by rewrite Hle.
Qed.

(** Reading the window again changes nothing when every entry that was
    live at the first reading is still live at the second. *)
Lemma failure_evict_twice t1 t2 s :
  (forall e, In e (_events s) -> py_sub t1 (window s) <= e.1 -> py_sub t2 (window s) <= e.1) ->
  _evict t2 (_evict t1 s) = _evict t1 s.
Proof.
  intros Hlive. destruct (failure_evict_fields t1 s) as (HW & He & Hf).
  unfold _evict at 1. rewrite HW, failure_evict_idle.
  - clear He Hf. destruct (_evict t1 s) as [W ev f]. simpl in *. by rewrite HW.
  - rewrite He.
    destruct (evict_loop (py_sub t1 (window s)) (_events s) (_failures s)).1
      as [|e rest] eqn:Hev; auto.
    apply failure_evict_head in Hev as [Hin Hle]. auto.
Qed.

End FailureWindowProofs.

(** ** MetricsAggregator: the snapshot *)

Section MetricsAggregatorProofs.
Import MetricsAggregator.

Lemma per_minute_ok now s :
  1 <= UniqueOrderWindow.window s ->
  UniqueOrderWindow.per_minute now s =
    Ok (py_div
          (py_mul (float_of_int (Z.of_nat (size (UniqueOrderWindow._entries
                                     (UniqueOrderWindow._evict now s))))) 60)
          (UniqueOrderWindow.window s),
        UniqueOrderWindow._evict now s).
Proof.
  intros HW. unfold UniqueOrderWindow.per_minute.
  destruct (window_evict_fields now s) as (-> & _ & _).
  rewrite py_truediv_ok; [done|lra].
Qed.

(** The order window of an aggregator keeps the size [__init__] gave it,
    which is at least 1. *)
Lemma aggregator_window_size window_seconds :
  1 <= UniqueOrderWindow.window (order_window (__init__ window_seconds)) /\
  forall m,
    1 <= UniqueOrderWindow.window (order_window m) ->
    (forall now order_id,
       1 <= UniqueOrderWindow.window (order_window (record_order now order_id m))) /\
    (forall now is_failure,
       1 <= UniqueOrderWindow.window (order_window (record_inventory now is_failure m))) /\
    1 <= UniqueOrderWindow.window (order_window (record_duplicate m)).
Proof.
  split; [apply py_max_lower|]. intros m Hm. repeat split; auto.
  intros now order_id. simpl. unfold UniqueOrderWindow.track.
  destruct order_id as [k|]; auto. destruct (decide (k = "")); auto.
  by destruct (window_evict_fields now
    (UniqueOrderWindow.mk (UniqueOrderWindow.window (order_window m))
       (<[k:=now]> (UniqueOrderWindow._entries (order_window m)))
       (UniqueOrderWindow._order (order_window m) ++ [(now, k)]))) as (-> & _).
Qed.

(** C2, as the code has it: in a snapshot whose rate is computed from the
    window contents its counts were taken from (every entry kept by the
    reading that gives [inventory_events] and [failures] is kept by the
    reading that gives [failure_rate_pct], as when the clock shows the same
    time), the rate is [failures / inventory_events * 100] as computed on
    doubles, the quotient rounded and then its product with 100, when
    [inventory_events > 0], and [0.0] when it is 0.  The order window has
    size at least 1, as in every aggregator built with [__init__]. *)
Theorem snapshot_rate_of_counts
    (m : t) (t_totals t_orders t_rate t_generated : Q) :
  1 <= UniqueOrderWindow.window (order_window m) ->
  (forall e, In e (FailureWindow._events (failure_window m)) ->
     py_sub t_totals (FailureWindow.window (failure_window m)) <= e.1 ->
     py_sub t_rate (FailureWindow.window (failure_window m)) <= e.1) ->
  exists snap m',
    snapshot t_totals t_orders t_rate t_generated m = Ok (snap, m') /\
    ((0 < Snapshot.inventory_events snap)%Z ->
       Snapshot.failure_rate_pct snap =
         py_mul (py_div (inject_Z (Snapshot.failures snap))
                   (inject_Z (Snapshot.inventory_events snap))) 100) /\
    (Snapshot.inventory_events snap = 0%Z ->
       Snapshot.failure_rate_pct snap = 0).
Proof.
  intros HW Hlive. unfold snapshot, FailureWindow.totals.
  rewrite per_minute_ok by exact HW. simpl.
  rewrite failure_rate_pct_unfold, failure_evict_twice by exact Hlive. simpl.
  set (fw1 := FailureWindow._evict t_totals (failure_window m)).
  destruct (Z.of_nat (length (FailureWindow._events fw1)) =? 0)%Z eqn:E; simpl.
  - do 2 eexists. split; [reflexivity|]. simpl. apply Z.eqb_eq in E.
    split; [lia|done].
  - do 2 eexists. split; [reflexivity|]. simpl. apply Z.eqb_neq in E.
    split; [done|lia].
Qed.

End MetricsAggregatorProofs.

(** ** Tracking at a reading keeps the new entry *)

Lemma failure_evict_loop_snoc (c : Q) (x : Q * bool) (events : list (Q * bool)) :
  c <= x.1 ->
  forall failures,
    FailureWindow.evict_loop c (events ++ [x]) failures =
    ((FailureWindow.evict_loop c events failures).1 ++ [x],
     (FailureWindow.evict_loop c events failures).2).
Proof.
  intros Hc. induction events as [|[ts b] rest IH]; intros failures; simpl.
  - destruct x as [tx bx]. simpl in *. apply Qltb_ge in Hc. by rewrite Hc.
  - destruct (Qltb ts c); [apply IH|done].
Qed.

(** A key tracked at a reading is in [_entries] with that reading. *)
Lemma track_records now k s :
  k <> "" -> 0 <= UniqueOrderWindow.window s -> is_double now = true ->
  UniqueOrderWindow._entries (UniqueOrderWindow.track now (Some k) s) !! k = Some now.
Proof.
  intros Hk HW Hnow. unfold UniqueOrderWindow.track.
  destruct (decide (k = "")); [done|].
  destruct (window_evict_fields now
    (UniqueOrderWindow.mk (UniqueOrderWindow.window s)
       (<[k:=now]> (UniqueOrderWindow._entries s))
       (UniqueOrderWindow._order s ++ [(now, k)]))) as (_ & -> & _).
  simpl. apply window_evict_keep; [apply lookup_insert_eq|by apply py_sub_le].
Qed.

(** An event tracked at a reading is the last of the deque. *)
Lemma failure_track_last now b s :
  0 <= FailureWindow.window s -> is_double now = true ->
  last (FailureWindow._events (FailureWindow.track now b s)) = Some (now, b).
Proof.
  intros HW Hnow. unfold FailureWindow.track.
  destruct (failure_evict_fields now
    (FailureWindow.mk (FailureWindow.window s)
       (FailureWindow._events s ++ [(now, b)])
       (if b then (FailureWindow._failures s + 1)%Z
        else FailureWindow._failures s))) as (_ & -> & _).
  simpl. rewrite failure_evict_loop_snoc by (by apply py_sub_le).
  simpl. apply last_snoc.
Qed.

(** ** KafkaAnalyticsWorker: what one message does *)

Section WorkerProofs.
Context `{PyRuntime}.
Import KafkaAnalyticsWorker.

Lemma decode_payload_fails (value : option (list Byte.byte)) :
  _decode_payload value = Raise ValueError <->
  exists raw, value = Some raw /\
    (bytes_decode_utf8 raw = None \/
     exists text, bytes_decode_utf8 raw = Some text /\ json_loads text = Malformed).
Proof.
  unfold _decode_payload. destruct value as [raw|].
  - destruct (bytes_decode_utf8 raw) as [text|] eqn:Ht.
    + destruct (json_loads text) as [v| |] eqn:Hj.
      * split; [discriminate|].
        intros (raw' & [= <-] & [Hd|(text' & Hd & Hl)]); congruence.
      * split; [|done]. intros _. exists raw. split; auto. right. by exists text.
      * split; [discriminate|].
        intros (raw' & [= <-] & [Hd|(text' & Hd & Hl)]); congruence.
    + split; [|done]. intros _. exists raw. auto.
  - split; [discriminate|]. by intros (raw & ? & _).
Qed.

Lemma decode_payload_too_deep (value : option (list Byte.byte)) :
  _decode_payload value = Raise RecursionError <->
  exists raw text, value = Some raw /\
    bytes_decode_utf8 raw = Some text /\ json_loads text = TooDeep.
Proof.
  unfold _decode_payload. destruct value as [raw|].
  - destruct (bytes_decode_utf8 raw) as [text|] eqn:Ht.
    + destruct (json_loads text) as [v| |] eqn:Hj.
      * split; [discriminate|]. intros (raw' & text' & [= <-] & Hd & Hl). congruence.
      * split; [discriminate|]. intros (raw' & text' & [= <-] & Hd & Hl). congruence.
      * split; [|done]. intros _. by exists raw, text.
    + split; [discriminate|]. intros (raw' & text' & [= <-] & Hd & Hl). congruence.
  - split; [discriminate|]. by intros (raw & text & ? & _).
Qed.

Lemma event_id_dict topic key payload event_id :
  _event_id topic key payload = Ok event_id -> exists members, payload = JObj members.
Proof. destruct payload; try discriminate. eauto. Qed.

Lemma run_cons_step p rest w :
  run (p :: rest) w =
    match (iteration p w).2 with
    | Some e => ((iteration p w).1.1, (iteration p w).1.2 ++ [Close], Some e)
    | None =>
        ((run rest (iteration p w).1.1).1.1,
         (iteration p w).1.2 ++ (run rest (iteration p w).1.1).1.2,
         (run rest (iteration p w).1.1).2)
    end.
Proof.
  simpl. destruct (iteration p w) as [[w1 effects] [e|]]; simpl; [done|].
  by destruct (run rest w1) as [[w2 later] outcome].
Qed.

(** C1, as the code has it: a polled message whose value makes
    [bytes.decode] raise [UnicodeDecodeError] or [json.loads] raise
    [json.JSONDecodeError] is skipped by [_handle_message], which returns
    with the worker, its aggregator and its filter as they were (no
    [record_*] call, no [register] call); the loop then calls [commit] for
    the message like for any other handled message.  If the broker refuses,
    the loop ends with [KafkaException]; otherwise the message is committed
    and the loop goes on, after a sleep if the throttle is not zero, or ends
    with the exception of [time.sleep] if it raises one, as it does for a
    negative throttle.  In each case the worker
    is left as it was, so every later snapshot is what it would have been
    without the message.  A value nested so deep that [json.loads] raises
    [RecursionError] is not skipped: the exception ends the loop, the
    message is not committed and the consumer is closed. *)
Theorem corrupt_message_not_recorded_but_committed
    (w : t) (p : Poll) (msg : Message.t) (raw : list Byte.byte) :
  polled p = Some msg ->
  Message.error msg = None ->
  Message.value msg = Some raw ->
  (bytes_decode_utf8 raw = None \/
   (exists text, bytes_decode_utf8 raw = Some text /\ json_loads text = Malformed) ->
   _handle_message (t_register p) (t_record p) (Message.topic msg)
     (Message.key msg) (Message.value msg) w = Ok w /\
   iteration p w =
     match commit_error p with
     | Some code => (w, [CommitFailed msg], Some (KafkaException code))
     | None =>
         if Qeq_bool (throttle w) 0 then (w, [Commit msg], None)
         else
           match time_sleep (throttle w) with
           | Some e => (w, [Commit msg], Some e)
           | None => (w, [Commit msg; Sleep (throttle w)], None)
           end
     end /\
   forall rest,
     (In (Commit msg) (run (p :: rest) w).1.2 \/
      In (CommitFailed msg) (run (p :: rest) w).1.2) /\
     (run (p :: rest) w).1.1 =
       match (iteration p w).2 with
       | None => (run rest w).1.1
       | Some _ => w
       end) /\
  ((exists text, bytes_decode_utf8 raw = Some text /\ json_loads text = TooDeep) ->
   _handle_message (t_register p) (t_record p) (Message.topic msg)
     (Message.key msg) (Message.value msg) w = Raise RecursionError /\
   forall rest, run (p :: rest) w = (w, [Close], Some RecursionError)).
Proof.
  intros Hp He Hraw. split.
  - intros Hbad.
    assert (Hd : _decode_payload (Message.value msg) = Raise ValueError).
    { apply decode_payload_fails. by exists raw. }
    assert (Hh : _handle_message (t_register p) (t_record p) (Message.topic msg)
                   (Message.key msg) (Message.value msg) w = Ok w).
    { unfold _handle_message. by rewrite Hd. }
    assert (Hi : iteration p w =
      match commit_error p with
      | Some code => (w, [CommitFailed msg], Some (KafkaException code))
      | None =>
          if Qeq_bool (throttle w) 0 then (w, [Commit msg], None)
          else
            match time_sleep (throttle w) with
            | Some e => (w, [Commit msg], Some e)
            | None => (w, [Commit msg; Sleep (throttle w)], None)
            end
      end).
    { unfold iteration. by rewrite Hp, He, Hh. }
    split; [exact Hh|]. split; [exact Hi|].
    intros rest. rewrite run_cons_step, Hi.
    destruct (commit_error p) as [code|]; simpl; [auto|].
    destruct (Qeq_bool (throttle w) 0); simpl; [auto|].
    destruct (time_sleep (throttle w)); simpl; auto.
  - intros (text & Ht & Hdeep).
    assert (Hd : _decode_payload (Message.value msg) = Raise RecursionError).
    { apply decode_payload_too_deep. by exists raw, text. }
    assert (Hh : _handle_message (t_register p) (t_record p) (Message.topic msg)
                   (Message.key msg) (Message.value msg) w = Raise RecursionError).
    { unfold _handle_message. by rewrite Hd. }
    split; [exact Hh|]. intros rest. rewrite run_cons_step.
    unfold iteration. by rewrite Hp, He, Hh.
Qed.

Lemma snapshot_ignores_stats (m m' : MetricsAggregator.t) t1 t2 t3 t4 :
  MetricsAggregator.order_window m' = MetricsAggregator.order_window m ->
  MetricsAggregator.failure_window m' = MetricsAggregator.failure_window m ->
  MetricsAggregator.window_seconds m' = MetricsAggregator.window_seconds m ->
  fst <$> MetricsAggregator.snapshot t1 t2 t3 t4 m' =
  fst <$> MetricsAggregator.snapshot t1 t2 t3 t4 m.
Proof.
  intros Ho Hf Hw. unfold MetricsAggregator.snapshot. rewrite Ho, Hf, Hw.
  simpl.
  destruct (UniqueOrderWindow.per_minute t2 (MetricsAggregator.order_window m))
    as [[per_min ow1]|e]; simpl; auto.
  destruct (FailureWindow.failure_rate_pct t3 _) as [[rate fw2]|e]; simpl; auto.
Qed.

(** A message the filter reports as registered is counted as a duplicate,
    and nothing else is done. *)
Lemma handle_duplicate t_reg t_rec msg event_id w :
  message_identity msg = Ok event_id ->
  (DuplicateFilter.register t_reg event_id (deduper w)).1 = true ->
  _handle_message t_reg t_rec (Message.topic msg) (Message.key msg)
    (Message.value msg) w =
  Ok (mk (env w) (MetricsAggregator.record_duplicate (metrics w))
        (DuplicateFilter.register t_reg event_id (deduper w)).2 (throttle w)).
Proof.
  unfold message_identity, _handle_message.
  destruct (_decode_payload (Message.value msg)) as [payload|e]; [|discriminate].
  simpl. intros -> Hdup. simpl.
  destruct (DuplicateFilter.register t_reg event_id (deduper w)) as [dup d'].
  simpl in Hdup. by subst dup.
Qed.

Lemma handle_all_duplicates (deliveries : list (Q * Q * Message.t)) :
  forall w, all_duplicates deliveries (deduper w) ->
    exists w', handle_all deliveries w = Ok w' /\
      MetricsAggregator.duplicates (MetricsAggregator.stats (metrics w')) =
        (MetricsAggregator.duplicates (MetricsAggregator.stats (metrics w)) +
         Z.of_nat (length deliveries))%Z /\
      MetricsAggregator.orders (MetricsAggregator.stats (metrics w')) =
        MetricsAggregator.orders (MetricsAggregator.stats (metrics w)) /\
      MetricsAggregator.inventory (MetricsAggregator.stats (metrics w')) =
        MetricsAggregator.inventory (MetricsAggregator.stats (metrics w)) /\
      MetricsAggregator.order_window (metrics w') =
        MetricsAggregator.order_window (metrics w) /\
      MetricsAggregator.failure_window (metrics w') =
        MetricsAggregator.failure_window (metrics w) /\
      MetricsAggregator.window_seconds (metrics w') =
        MetricsAggregator.window_seconds (metrics w).
Proof.
  induction deliveries as [|[[t_reg t_rec] msg] rest IH]; intros w Hall.
  - exists w. split; [done|]. simpl. repeat split; auto. lia.
  - destruct Hall as (event_id & Hid & Hdup & Hrest).
    cbn [handle_all]. rewrite (handle_duplicate _ _ _ _ _ Hid Hdup). simpl.
    destruct (IH (mk (env w) (MetricsAggregator.record_duplicate (metrics w))
                    (DuplicateFilter.register t_reg event_id (deduper w)).2
                    (throttle w)) Hrest)
      as (w' & Hw' & Hd & Ho & Hi & How & Hfw & Hws).
    simpl in *. exists w'. split; [exact Hw'|].
    rewrite Hd, Ho, Hi, How, Hfw, Hws. repeat split; auto. lia.
Qed.

Lemma dict_lookup_In (key : string) (members : list (string * json)) (v : json) :
  NoDup (map fst members) -> In (key, v) members ->
  dict_lookup key members = Some v.
Proof.
  induction members as [|[k0 v0] rest IH]; intros Hnd Hin; [destruct Hin|].
  simpl in Hnd. apply NoDup_cons in Hnd as [Hnotin Hnd]. simpl.
  destruct (decide (k0 = key)) as [->|Hne].
  - destruct Hin as [[= ->]|Hin]; [done|].
    exfalso. apply Hnotin, list_elem_of_In.
    change key with (fst (key, v)). by apply in_map.
  - destruct Hin as [[= -> _]|Hin]; [done|]. by apply IH.
Qed.

Lemma dict_lookup_absent (key : string) (members : list (string * json)) :
  ~ In key (map fst members) -> dict_lookup key members = None.
Proof.
  induction members as [|[k0 v0] rest IH]; intros Hnotin; [done|].
  simpl in *. destruct (decide (k0 = key)) as [->|Hne]; [tauto|].
  apply IH. tauto.
Qed.

(** C5: deliveries whose identity the filter reports as registered when
    their turn comes, however many, are handled without raising, and
    [_handle_message] does nothing with them on the aggregator but count
    them: [duplicates] grows by their number; [orders], [inventory], both
    windows and every snapshot (so [orders_per_min] and [failure_rate_pct])
    are as before.  A message the filter reports as new leaves [duplicates]
    as it was and records one business metric: on the order topic [orders]
    grows by one and the identifier, unless it is missing or empty, is
    added to the order window with the reading of the clock and evicted by
    none of the evictions made then; on the inventory topic [inventory]
    grows by one and the event is appended to the failure window with its
    flag, [true] exactly for the status [failure] in any case of letters;
    on any other topic the aggregator is left as it was. *)
Theorem duplicate_delivery_only_counts_duplicate
    (w : t) (deliveries : list (Q * Q * Message.t)) :
  all_duplicates deliveries (deduper w) ->
  let m := metrics w in
  (exists w', handle_all deliveries w = Ok w' /\
     let m' := metrics w' in
     MetricsAggregator.duplicates (MetricsAggregator.stats m') =
       (MetricsAggregator.duplicates (MetricsAggregator.stats m) +
        Z.of_nat (length deliveries))%Z /\
     MetricsAggregator.orders (MetricsAggregator.stats m') =
       MetricsAggregator.orders (MetricsAggregator.stats m) /\
     MetricsAggregator.inventory (MetricsAggregator.stats m') =
       MetricsAggregator.inventory (MetricsAggregator.stats m) /\
     MetricsAggregator.order_window m' = MetricsAggregator.order_window m /\
     MetricsAggregator.failure_window m' = MetricsAggregator.failure_window m /\
     forall t1 t2 t3 t4,
       fst <$> MetricsAggregator.snapshot t1 t2 t3 t4 m' =
       fst <$> MetricsAggregator.snapshot t1 t2 t3 t4 m) /\
  forall t_reg t_rec topic key value members event_id,
    _decode_payload value = Ok (JObj members) ->
    _event_id topic key (JObj members) = Ok event_id ->
    (DuplicateFilter.register t_reg event_id (deduper w)).1 = false ->
    exists w1, _handle_message t_reg t_rec topic key value w = Ok w1 /\
      let m1 := metrics w1 in
      let ow := MetricsAggregator.order_window m in
      let fw := MetricsAggregator.failure_window m in
      MetricsAggregator.duplicates (MetricsAggregator.stats m1) =
        MetricsAggregator.duplicates (MetricsAggregator.stats m) /\
      (topic = ORDER_TOPIC (env w) ->
         MetricsAggregator.orders (MetricsAggregator.stats m1) =
           (MetricsAggregator.orders (MetricsAggregator.stats m) + 1)%Z /\
         MetricsAggregator.inventory (MetricsAggregator.stats m1) =
           MetricsAggregator.inventory (MetricsAggregator.stats m) /\
         MetricsAggregator.failure_window m1 = fw /\
         MetricsAggregator.order_window m1 =
           match _resolve_order_id key members with
           | Some k =>
               if decide (k = "") then ow
               else UniqueOrderWindow._evict t_rec
                      (UniqueOrderWindow.mk (UniqueOrderWindow.window ow)
                         (<[k := t_rec]> (UniqueOrderWindow._entries ow))
                         (UniqueOrderWindow._order ow ++ [(t_rec, k)]))
           | None => ow
           end /\
         forall k, _resolve_order_id key members = Some k -> k <> "" ->
           0 <= UniqueOrderWindow.window ow -> is_double t_rec = true ->
           UniqueOrderWindow._entries (MetricsAggregator.order_window m1) !! k
             = Some t_rec) /\
      (topic <> ORDER_TOPIC (env w) -> topic = INVENTORY_TOPIC (env w) ->
         let is_failure :=
           bool_decide
             (str_lower (py_str (default (JStr "") (dict_lookup "status" members)))
              = "failure") in
         MetricsAggregator.inventory (MetricsAggregator.stats m1) =
           (MetricsAggregator.inventory (MetricsAggregator.stats m) + 1)%Z /\
         MetricsAggregator.orders (MetricsAggregator.stats m1) =
           MetricsAggregator.orders (MetricsAggregator.stats m) /\
         MetricsAggregator.order_window m1 = ow /\
         MetricsAggregator.failure_window m1 =
           FailureWindow._evict t_rec
             (FailureWindow.mk (FailureWindow.window fw)
                (FailureWindow._events fw ++ [(t_rec, is_failure)])
                (if is_failure then (FailureWindow._failures fw + 1)%Z
                 else FailureWindow._failures fw)) /\
         (0 <= FailureWindow.window fw -> is_double t_rec = true ->
          last (FailureWindow._events (MetricsAggregator.failure_window m1))
            = Some (t_rec, is_failure))) /\
      (topic <> ORDER_TOPIC (env w) -> topic <> INVENTORY_TOPIC (env w) ->
         m1 = m).
Proof.
  intros Hall m. split.
  - destruct (handle_all_duplicates deliveries w Hall)
      as (w' & Hw' & Hd & Ho & Hi & How & Hfw & Hws).
    exists w'. split; [exact Hw'|]. cbv zeta. repeat split; auto.
    intros t1 t2 t3 t4. by apply snapshot_ignores_stats.
  - intros t_reg t_rec topic key value members event_id Hd He Hnew.
    unfold _handle_message. rewrite Hd, He. simpl.
    destruct (DuplicateFilter.register t_reg event_id (deduper w)) as [dup d'].
    simpl in Hnew. subst dup.
    destruct (decide (topic = ORDER_TOPIC (env w))) as [Ht|Ht].
    + eexists. split; [reflexivity|]. cbv zeta. simpl.
      split; [done|]. split; [|split; [tauto|tauto]].
      intros _. split; [done|]. split; [done|]. split; [done|].
      split.
      * unfold UniqueOrderWindow.track.
        destruct (_resolve_order_id key members) as [k|]; [|done].
        by destruct (decide (k = "")).
      * intros k -> Hk HW Hdouble. by apply track_records.
    + destruct (decide (topic = INVENTORY_TOPIC (env w))) as [Hi|Hi].
      * eexists. split; [reflexivity|]. cbv zeta. simpl.
        split; [done|]. split; [tauto|]. split; [|tauto].
        intros _ _. split; [done|]. split; [done|]. split; [done|].
        split; [done|]. intros HW Hdouble. by apply failure_track_last.
      * eexists. split; [reflexivity|]. cbv zeta. simpl.
        split; [done|]. split; [tauto|]. split; [tauto|]. by intros _ _.
Qed.

(** C9: an order-topic message whose value decodes to a dict and which the
    filter reports as new is counted as an order, and recorded in the
    unique-order window under an identifier found as follows.  When the
    dict has the key [order_id], the identifier is [str] of its value, and
    unless that text is empty it becomes a key of [_entries] with the
    reading of the clock, a double as every value of [time.time()] is.
    When the dict has no such key and the message
    key decodes to a text that is not empty, that text becomes a key of
    [_entries] with the reading of the clock.  When the dict has no such
    key and there is no message key, or it decodes to the empty text, there
    is no identifier: [orders] grows by one all the same and the
    unique-order window is left as it was, so [per_minute()] returns what it
    would have returned without the message. *)
Theorem order_message_identifier
    (w : t) (t_reg t_rec : Q) (key value : option (list Byte.byte))
    (members : list (string * json)) (event_id : string) :
  _decode_payload value = Ok (JObj members) ->
  NoDup (map fst members) ->
  _event_id (ORDER_TOPIC (env w)) key (JObj members) = Ok event_id ->
  (DuplicateFilter.register t_reg event_id (deduper w)).1 = false ->
  0 <= UniqueOrderWindow.window (MetricsAggregator.order_window (metrics w)) ->
  is_double t_rec = true ->
  let m := metrics w in
  exists w',
    _handle_message t_reg t_rec (ORDER_TOPIC (env w)) key value w = Ok w' /\
    let m' := metrics w' in
    let entries' := UniqueOrderWindow._entries (MetricsAggregator.order_window m') in
    MetricsAggregator.orders (MetricsAggregator.stats m') =
      (MetricsAggregator.orders (MetricsAggregator.stats m) + 1)%Z /\
    (forall v, In ("order_id", v) members ->
       _resolve_order_id key members = Some (py_str v) /\
       (py_str v <> "" -> entries' !! py_str v = Some t_rec) /\
       (py_str v = "" ->
          MetricsAggregator.order_window m' = MetricsAggregator.order_window m)) /\
    (forall raw, ~ In "order_id" (map fst members) -> key = Some raw ->
       bytes_decode_utf8_ignore raw <> "" ->
       _resolve_order_id key members = Some (bytes_decode_utf8_ignore raw) /\
       entries' !! bytes_decode_utf8_ignore raw = Some t_rec) /\
    (~ In "order_id" (map fst members) ->
     key = None \/ (exists raw, key = Some raw /\ bytes_decode_utf8_ignore raw = "") ->
       _resolve_order_id key members = None /\
       MetricsAggregator.order_window m' = MetricsAggregator.order_window m /\
       forall now,
         UniqueOrderWindow.per_minute now (MetricsAggregator.order_window m') =
         UniqueOrderWindow.per_minute now (MetricsAggregator.order_window m)).
Proof.
  intros Hd Hnd He Hreg HW Hdouble m.
  unfold _handle_message. rewrite Hd, He. simpl.
  destruct (DuplicateFilter.register t_reg event_id (deduper w)) as [dup d'].
  simpl in Hreg. subst dup.
  destruct (decide (ORDER_TOPIC (env w) = ORDER_TOPIC (env w))); [|done].
  eexists. split; [reflexivity|]. cbv zeta. simpl. fold m.
  split; [done|]. split; [|split].
  - intros v Hin.
    assert (Hres : _resolve_order_id key members = Some (py_str v)).
    { unfold _resolve_order_id. by rewrite (dict_lookup_In _ _ _ Hnd Hin). }
    rewrite Hres. split; [done|]. split.
    + intros Hne. by apply track_records.
    + intros Hempty. unfold UniqueOrderWindow.track. rewrite Hempty.
      by destruct (decide ("" = "")).
  - intros raw Habsent -> Hne.
    assert (Hres : _resolve_order_id (Some raw) members =
                   Some (bytes_decode_utf8_ignore raw)).
    { unfold _resolve_order_id. rewrite (dict_lookup_absent _ _ Habsent).
      by destruct (decide (bytes_decode_utf8_ignore raw = "")). }
    rewrite Hres. split; [done|]. by apply track_records.
  - intros Habsent Hkey.
    assert (Hres : _resolve_order_id key members = None).
    { unfold _resolve_order_id. rewrite (dict_lookup_absent _ _ Habsent).
      destruct Hkey as [->|(raw & -> & Hraw)]; auto.
      by destruct (decide (bytes_decode_utf8_ignore raw = "")). }
    rewrite Hres. simpl. auto.
Qed.

(** C8: the identity [_handle_message] derives is a function of the topic,
    the message key and the message value alone: two deliveries that agree
    on the three get the same identity (or fail alike), whatever their
    partition, offset, the clock and the state of the worker.  Hence, when
    the first delivery is recorded by a filter in a state that [register]
    calls produce, a redelivery made while the entry is not older than the
    ttl is reported as a duplicate and only counted as one. *)
Theorem redelivery_has_same_identity (m1 m2 : Message.t) :
  Message.topic m1 = Message.topic m2 ->
  Message.key m1 = Message.key m2 ->
  Message.value m1 = Message.value m2 ->
  message_identity m1 = message_identity m2 /\
  forall w hist t1 t1' t2 t2' event_id,
    DuplicateFilter.dedup_inv hist (deduper w) ->
    (forall c, In c hist -> c.1.1 <= t1) ->
    t1 <= t2 -> py_sub t2 (DuplicateFilter.ttl (deduper w)) <= t1 ->
    message_identity m1 = Ok event_id ->
    (DuplicateFilter.register t1 event_id (deduper w)).1 = false ->
    exists w1 w2,
      _handle_message t1 t1' (Message.topic m1) (Message.key m1)
        (Message.value m1) w = Ok w1 /\
      _handle_message t2 t2' (Message.topic m2) (Message.key m2)
        (Message.value m2) w1 = Ok w2 /\
      metrics w2 = MetricsAggregator.record_duplicate (metrics w1).
Proof.
  intros Ht Hk Hv. split.
  { unfold message_identity. by rewrite Ht, Hk, Hv. }
  intros w hist t1 t1' t2 t2' event_id Hinv Hclock H12 Httl Hid Hnew.
  rewrite <- Ht, <- Hk, <- Hv. unfold message_identity in Hid.
  destruct (_decode_payload (Message.value m1)) as [payload|e] eqn:Hd;
    [|discriminate]. simpl in Hid.
  destruct (event_id_dict _ _ _ _ Hid) as [members ->].
  destruct (register_step hist (deduper w) t1 event_id Hinv Hclock)
    as (Hinv1 & Httl1 & _).
  assert (Hdup : (DuplicateFilter.register t2 event_id
                    (DuplicateFilter.register t1 event_id (deduper w)).2).1 = true).
  { eapply register_step; [exact Hinv1| |].
    - intros c Hc. apply in_app_or in Hc as [Hc|[<-|[]]]; simpl; auto.
      apply Hclock in Hc. lra.
    - exists t1. rewrite Httl1. split; [|exact Httl].
      apply in_or_app. right. left. by rewrite Hnew. }
  unfold _handle_message. rewrite Hd, Hid. simpl.
  destruct (DuplicateFilter.register t1 event_id (deduper w)) as [dup d1].
  simpl in Hnew, Hdup. subst dup.
  destruct (DuplicateFilter.register t2 event_id d1) as [dup d2] eqn:Hreg2.
  simpl in Hdup. subst dup.
  destruct (decide (Message.topic m1 = ORDER_TOPIC (env w))).
  - do 2 eexists. split; [reflexivity|]. simpl. rewrite Hreg2. eauto.
  - destruct (decide (Message.topic m1 = INVENTORY_TOPIC (env w))).
    + do 2 eexists. split; [reflexivity|]. simpl. rewrite Hreg2. eauto.
    + do 2 eexists. split; [reflexivity|]. simpl. rewrite Hreg2. eauto.
Qed.

End WorkerProofs.

(** ** The code on concrete inputs *)

(** A ttl of 60 seconds: recorded at 0, duplicate at 30 and at 60, new at 61. *)
Example register_scenario :
  (DuplicateFilter.run [(0, "a"); (30, "a"); (60, "a"); (61, "a")]
     (DuplicateFilter.__init__ 60)).1 =
  [(0, "a", false); (30, "a", true); (60, "a", true); (61, "a", false)].
Proof. reflexivity. Qed.

(** Order "X" tracked at 0 in a window of 60 seconds: counted at 30, gone
    at 61. *)
Example active_orders_scenario :
  let s := UniqueOrderWindow.run [(0, Some "X")] (UniqueOrderWindow.__init__ 60) in
  (UniqueOrderWindow.active_orders 30 s).1 = 1%Z /\
  (UniqueOrderWindow.active_orders 61 s).1 = 0%Z.
Proof. split; reflexivity. Qed.

(** Ten inventory events, three of them failures, all in the window. *)
Example failure_rate_scenario :
  let s := fold_left (fun s c => FailureWindow.track c.1 c.2 s)
             [(0, true); (1, false); (2, true); (3, true); (4, false);
              (5, false); (6, false); (7, false); (8, false); (9, false)]
             (FailureWindow.__init__ 60) in
  exists r s', FailureWindow.failure_rate_pct 10 s = Ok (r, s') /\ r == 30.
Proof. do 2 eexists. split; [vm_compute; reflexivity|reflexivity]. Qed.

(** One failure among three events: the rate is 33.33333333333333, the
    double below the one nearest to 100 / 3. *)
Example failure_rate_one_of_three :
  let s := fold_left (fun s c => FailureWindow.track c.1 c.2 s)
             [(0, true); (1, false); (2, false)] (FailureWindow.__init__ 60) in
  exists r s', FailureWindow.failure_rate_pct 3 s = Ok (r, s') /\
    r == 2345624805922133 # 70368744177664 /\
    round64 (100 # 3) == 4691249611844267 # 140737488355328 /\
    r < round64 (100 # 3).
Proof.
  do 2 eexists. split; [vm_compute; reflexivity|].
  split; [reflexivity|]. split; reflexivity.
Qed.

(** The doubles nearest to 1700000059.9 and to 59.9, and their difference
    as computed: 1700000000.0, although the two are more than 1700000000
    apart. *)
Example rounded_cutoff_scenario :
  Sample.late == 3565158525619405 # 2097152 /\
  Sample.short_window == 8430175552484147 # 140737488355328 /\
  py_sub Sample.late Sample.short_window == 1700000000 /\
  1700000000 < Sample.late - Sample.short_window.
Proof. repeat split; reflexivity. Qed.

(** With [THROTTLE_MS=-5] the first handled message is committed and
    [time.sleep] then ends the loop: the second message is not polled. *)
Example negative_throttle_scenario :
  @KafkaAnalyticsWorker.run Sample.runtime
    [KafkaAnalyticsWorker.mkPoll (Some Sample.corrupt) 0 0 None;
     KafkaAnalyticsWorker.mkPoll (Some Sample.order) 1 1 None]
    Sample.hasty_worker =
  (Sample.hasty_worker,
   [KafkaAnalyticsWorker.Commit Sample.corrupt; KafkaAnalyticsWorker.Close],
   Some ValueError).
Proof. reflexivity. Qed.

(** A commit the broker refuses ends the loop with the message counted and
    not committed. *)
Example refused_commit_scenario :
  let out := @KafkaAnalyticsWorker.run Sample.runtime
               [KafkaAnalyticsWorker.mkPoll (Some Sample.order) 0 0 (Some 27%Z);
                KafkaAnalyticsWorker.mkPoll (Some Sample.order_again) 1 1 None]
               Sample.worker in
  out = (Sample.worker_after_order,
         [KafkaAnalyticsWorker.CommitFailed Sample.order; KafkaAnalyticsWorker.Close],
         Some (KafkaException 27)) /\
  MetricsAggregator.orders
    (MetricsAggregator.stats (KafkaAnalyticsWorker.metrics out.1.1)) = 1%Z /\
  Calls.commits out.1.2 = [].
Proof. repeat split; reflexivity. Qed.

Lemma register_true_iff_recorded_within_ttl_witness :
  nondecreasing (map fst [(0, "a"); (30, "a")] ++ [61]) = true /\
  ((DuplicateFilter.register 61 "a"
      (DuplicateFilter.run [(0, "a"); (30, "a")] (DuplicateFilter.__init__ 60)).2).1
     = true <->
   exists ts,
     In (ts, "a", false)
        (DuplicateFilter.run [(0, "a"); (30, "a")] (DuplicateFilter.__init__ 60)).1
     /\ py_sub 61
          (DuplicateFilter.ttl
             (DuplicateFilter.run [(0, "a"); (30, "a")]
                (DuplicateFilter.__init__ 60)).2) <= ts).
Proof.
  split; [reflexivity|].
  exact (proj1 (proj2 (proj2
    (register_true_iff_recorded_within_ttl 60
       [(0, "a"); (30, "a")] 61 "a" eq_refl)))).
Defined.

(** C3, the claim as written, on the code.  First, a clock that steps back:
    with a ttl of 60 seconds, [b] is recorded at time 10, after [a] was
    recorded at time 100; at time 75 the entry of [a] at the left end of the
    deque stops the eviction, and [b] is reported as registered 65 seconds
    after it was recorded.  Second, a clock that does not step back: with a
    ttl of 59.9 seconds, [a] is recorded at 1700000000.0; at 1700000059.9
    the cutoff is rounded to 1700000000.0 and [a] is reported as
    registered, although more than the ttl has elapsed. *)
Lemma register_within_ttl_counterexample :
  (let s := (DuplicateFilter.run [(100, "a"); (10, "b")]
               (DuplicateFilter.__init__ 60)).2 in
   DuplicateFilter.ttl s = 60 /\
   (DuplicateFilter.register 75 "b" s).1 = true /\
   60 < 75 - 10) /\
  (let s := (DuplicateFilter.run [(1700000000, "a")]
               (DuplicateFilter.__init__ Sample.short_window)).2 in
   DuplicateFilter.ttl s = Sample.short_window /\
   nondecreasing [1700000000; Sample.late] = true /\
   (DuplicateFilter.register Sample.late "a" s).1 = true /\
   Sample.short_window < Sample.late - 1700000000).
Proof. repeat split; reflexivity. Qed.

Lemma active_orders_counts_keys_tracked_within_window_witness :
  nondecreasing (map fst [(0, Some "X"); (30, Some "X")] ++ [61]) = true /\
  forall k ts,
    UniqueOrderWindow._entries
      (UniqueOrderWindow.active_orders 61
         (UniqueOrderWindow.run [(0, Some "X"); (30, Some "X")]
            (UniqueOrderWindow.__init__ 60))).2 !! k = Some ts <->
    k <> "" /\
    UniqueOrderWindow.last_track [(0, Some "X"); (30, Some "X")] k = Some ts /\
    py_sub 61
      (UniqueOrderWindow.window
         (UniqueOrderWindow.run [(0, Some "X"); (30, Some "X")]
            (UniqueOrderWindow.__init__ 60))) <= ts.
Proof.
  split; [reflexivity|].
  exact (proj1 (proj2 (proj2 (proj2
    (active_orders_counts_keys_tracked_within_window 60
       [(0, Some "X"); (30, Some "X")] 61 eq_refl))))).
Defined.

(** C4, the claim as written, on the code.  First, a clock that steps back:
    in a window of 60 seconds, [Y] is tracked at time 10 after [X] was
    tracked at time 100; at time 75 both are counted, [Y] 65 seconds after
    its only [track] call.  Second, a clock that does not step back: in a
    window of 59.9 seconds, [X] is tracked at 1700000000.0 and still
    counted at 1700000059.9, more than the window later. *)
Lemma active_orders_within_window_counterexample :
  (let s := UniqueOrderWindow.run [(100, Some "X"); (10, Some "Y")]
              (UniqueOrderWindow.__init__ 60) in
   UniqueOrderWindow.window s = 60 /\
   (UniqueOrderWindow.active_orders 75 s).1 = 2%Z /\
   UniqueOrderWindow._entries (UniqueOrderWindow.active_orders 75 s).2 !! "Y"
     = Some 10 /\
   UniqueOrderWindow.last_track [(100, Some "X"); (10, Some "Y")] "Y" = Some 10 /\
   60 < 75 - 10) /\
  (let s := UniqueOrderWindow.run [(1700000000, Some "X")]
              (UniqueOrderWindow.__init__ Sample.short_window) in
   UniqueOrderWindow.window s = Sample.short_window /\
   nondecreasing [1700000000; Sample.late] = true /\
   (UniqueOrderWindow.active_orders Sample.late s).1 = 1%Z /\
   Sample.short_window < Sample.late - 1700000000).
Proof. repeat split; reflexivity. Qed.

Lemma failure_counter_matches_deque_witness :
  FailureWindow.counter_inv (FailureWindow.track 0 true (FailureWindow.__init__ 60)) /\
  (0 <= (FailureWindow.totals 10
           (FailureWindow.track 0 true (FailureWindow.__init__ 60))).1.2
     <= (FailureWindow.totals 10
           (FailureWindow.track 0 true (FailureWindow.__init__ 60))).1.1)%Z.
Proof.
  split; [reflexivity|].
  exact (proj1 (proj2 (proj2 (proj2
    (failure_counter_matches_deque
       (FailureWindow.track 0 true (FailureWindow.__init__ 60)) 10 eq_refl))))).
Defined.

Lemma failure_rate_pct_empty_window_witness :
  Forall (fun e => e.1 < py_sub 100 60) [(0, true)] /\
  exists s',
    FailureWindow.failure_rate_pct 100
      (FailureWindow.track 0 true (FailureWindow.__init__ 60)) = Ok (0, s') /\
    FailureWindow._events s' = [] /\
    (FailureWindow.totals 100
       (FailureWindow.track 0 true (FailureWindow.__init__ 60))).1.1 = 0%Z.
Proof.
  assert (Hold : Forall (fun e : Q * bool => e.1 < py_sub 100 60) [(0, true)]).
  { constructor; [reflexivity|constructor]. }
  split; [exact Hold|].
  exact (proj2 (failure_rate_pct_empty_window
                  (FailureWindow.track 0 true (FailureWindow.__init__ 60)) 100 Hold)).
Defined.

Lemma snapshot_rate_of_counts_witness :
  exists snap m',
    MetricsAggregator.snapshot 60 60 60 60 Sample.aggregator = Ok (snap, m') /\
    ((0 < Snapshot.inventory_events snap)%Z ->
       Snapshot.failure_rate_pct snap =
         py_mul (py_div (inject_Z (Snapshot.failures snap))
                   (inject_Z (Snapshot.inventory_events snap))) 100) /\
    (Snapshot.inventory_events snap = 0%Z -> Snapshot.failure_rate_pct snap = 0).
Proof.
  apply (snapshot_rate_of_counts Sample.aggregator 60 60 60 60).
  - vm_compute. discriminate.
  - intros e _ Hlive. exact Hlive.
Defined.

(** C2, the claim as written, on the code: one failure among three events
    in a window of 60 seconds, and a snapshot whose four clock readings all
    show the time 3.  The snapshot holds 3 events and 1 failure with the
    rate 33.33333333333333, the double [1 / 3 * 100]; it is neither
    [100 * 1 / 3] nor the double nearest to it, 33.333333333333336. *)
Lemma snapshot_rate_counterexample :
  exists snap m',
    MetricsAggregator.snapshot 3 3 3 3 Sample.thirds = Ok (snap, m') /\
    Snapshot.inventory_events snap = 3%Z /\
    Snapshot.failures snap = 1%Z /\
    Snapshot.failure_rate_pct snap == 2345624805922133 # 70368744177664 /\
    ~ Snapshot.failure_rate_pct snap ==
        100 * inject_Z (Snapshot.failures snap)
          / inject_Z (Snapshot.inventory_events snap) /\
    ~ Snapshot.failure_rate_pct snap ==
        py_div (py_mul 100 (inject_Z (Snapshot.failures snap)))
          (inject_Z (Snapshot.inventory_events snap)).
Proof.
  do 2 eexists. split; [vm_compute; reflexivity|]. simpl.
  repeat split; vm_compute; discriminate.
Qed.

(** X20: the counts and the rate of one snapshot can disagree.  A failure
    at time 0 and a success at time 1 in a window of 60 seconds;
    [snapshot()] reads the clock at 60 for the counts and at 60.5 for the
    rate, when the failure has left the window.  The snapshot holds 2
    events and 1 failure with a rate of 0.0. *)
Theorem snapshot_rate_disagrees_with_counts :
  exists snap m',
    MetricsAggregator.snapshot 60 60 (121 # 2) 61 Sample.aggregator = Ok (snap, m') /\
    Snapshot.inventory_events snap = 2%Z /\
    Snapshot.failures snap = 1%Z /\
    Snapshot.failure_rate_pct snap == 0 /\
    ~ Snapshot.failure_rate_pct snap ==
        100 * inject_Z (Snapshot.failures snap)
          / inject_Z (Snapshot.inventory_events snap).
Proof.
  do 2 eexists. split; [vm_compute; reflexivity|]. simpl.
  repeat split. vm_compute. discriminate.
Qed.

Lemma corrupt_message_not_recorded_but_committed_witness :
  @bytes_decode_utf8 Sample.runtime [Byte.xff] = None /\
  @KafkaAnalyticsWorker.iteration Sample.runtime
    (KafkaAnalyticsWorker.mkPoll (Some Sample.corrupt) 0 0 None) Sample.worker =
  (Sample.worker, [KafkaAnalyticsWorker.Commit Sample.corrupt], None).
Proof.
  split; [reflexivity|].
  exact (proj1 (proj2 (proj1
    (@corrupt_message_not_recorded_but_committed Sample.runtime Sample.worker
       (KafkaAnalyticsWorker.mkPoll (Some Sample.corrupt) 0 0 None) Sample.corrupt
       [Byte.xff] eq_refl eq_refl eq_refl) (or_introl eq_refl)))).
Defined.

(** C1, the claim as written, on the code: the value of the polled message
    is the byte 0xff, which is not UTF-8, or the text of an opening brace,
    which is not JSON; [run] leaves the worker as it was and commits the
    message. *)
Lemma corrupt_message_commit_counterexample :
  @_decode_payload Sample.runtime (Message.value Sample.corrupt) = Raise ValueError /\
  @KafkaAnalyticsWorker.run Sample.runtime
    [KafkaAnalyticsWorker.mkPoll (Some Sample.corrupt) 0 0 None] Sample.worker =
  (Sample.worker,
   [KafkaAnalyticsWorker.Commit Sample.corrupt; KafkaAnalyticsWorker.Close],
   None) /\
  @_decode_payload Sample.runtime (Message.value Sample.garbled) = Raise ValueError /\
  @KafkaAnalyticsWorker.run Sample.runtime
    [KafkaAnalyticsWorker.mkPoll (Some Sample.garbled) 0 0 None] Sample.worker =
  (Sample.worker,
   [KafkaAnalyticsWorker.Commit Sample.garbled; KafkaAnalyticsWorker.Close],
   None).
Proof. repeat split; reflexivity. Qed.

(** A value nested too deep stops the worker: nothing is committed. *)
Example deep_payload_scenario :
  @KafkaAnalyticsWorker.run Sample.runtime
    [KafkaAnalyticsWorker.mkPoll (Some Sample.deep) 0 0 None;
     KafkaAnalyticsWorker.mkPoll (Some Sample.order) 1 1 None]
    Sample.worker =
  (Sample.worker, [KafkaAnalyticsWorker.Close], Some RecursionError).
Proof. vm_compute. reflexivity. Qed.

(** The first delivery of [order] is recorded as an order. *)
Example order_first_delivery :
  @KafkaAnalyticsWorker._handle_message Sample.runtime 0 0
    (Message.topic Sample.order) (Message.key Sample.order)
    (Message.value Sample.order) Sample.worker =
  Ok Sample.worker_after_order.
Proof. reflexivity. Qed.

(** The first delivery of an inventory message whose status is [FAILURE]
    counts one inventory event and one failure. *)
Example inventory_first_delivery :
  exists w',
    @KafkaAnalyticsWorker._handle_message SampleOrders.runtime 2 2
      (Message.topic SampleOrders.failed_reservation)
      (Message.key SampleOrders.failed_reservation)
      (Message.value SampleOrders.failed_reservation) Sample.worker = Ok w' /\
    MetricsAggregator.stats (KafkaAnalyticsWorker.metrics w') =
      MetricsAggregator.mkStats 0 1 0 /\
    FailureWindow._events
      (MetricsAggregator.failure_window (KafkaAnalyticsWorker.metrics w')) =
      [(2, true)] /\
    FailureWindow._failures
      (MetricsAggregator.failure_window (KafkaAnalyticsWorker.metrics w')) = 1%Z.
Proof. eexists. split; [reflexivity|]. repeat split. Qed.

Lemma duplicate_delivery_only_counts_duplicate_witness :
  @KafkaAnalyticsWorker.all_duplicates Sample.runtime
    [(30, 30, Sample.order_again); (45, 45, Sample.order)]
    (KafkaAnalyticsWorker.deduper Sample.worker_after_order) /\
  exists w',
    @KafkaAnalyticsWorker.handle_all Sample.runtime
      [(30, 30, Sample.order_again); (45, 45, Sample.order)]
      Sample.worker_after_order = Ok w' /\
    MetricsAggregator.duplicates
      (MetricsAggregator.stats (KafkaAnalyticsWorker.metrics w')) =
    (MetricsAggregator.duplicates
       (MetricsAggregator.stats
          (KafkaAnalyticsWorker.metrics Sample.worker_after_order)) + 2)%Z /\
    MetricsAggregator.order_window (KafkaAnalyticsWorker.metrics w') =
    MetricsAggregator.order_window
      (KafkaAnalyticsWorker.metrics Sample.worker_after_order).
Proof.
  assert (Hall : @KafkaAnalyticsWorker.all_duplicates Sample.runtime
            [(30, 30, Sample.order_again); (45, 45, Sample.order)]
            (KafkaAnalyticsWorker.deduper Sample.worker_after_order)).
  { exists "orders:o1:{}". split; [reflexivity|]. split; [reflexivity|].
    exists "orders:o1:{}". split; [reflexivity|]. split; [reflexivity|exact I]. }
  split; [exact Hall|].
  destruct (proj1 (@duplicate_delivery_only_counts_duplicate Sample.runtime
                     Sample.worker_after_order
                     [(30, 30, Sample.order_again); (45, 45, Sample.order)] Hall))
    as (w' & Hw' & Hd & _ & _ & How & _).
  exists w'. split; [exact Hw'|]. split; [exact Hd|exact How].
Defined.

Lemma order_message_identifier_witness :
  @_decode_payload SampleOrders.runtime (Message.value SampleOrders.o7_order) =
    Ok (JObj [("order_id", JStr "o7")]) /\
  (DuplicateFilter.register 5 ("orders:o7:" +:+ SampleOrders.o7_order_text)
     (KafkaAnalyticsWorker.deduper Sample.worker)).1 = false /\
  is_double 5 = true /\
  exists w',
    @KafkaAnalyticsWorker._handle_message SampleOrders.runtime 5 5 "orders"
      (Message.key SampleOrders.o7_order) (Message.value SampleOrders.o7_order)
      Sample.worker = Ok w' /\
    @_resolve_order_id SampleOrders.runtime (Message.key SampleOrders.o7_order)
      [("order_id", JStr "o7")] = Some "o7" /\
    UniqueOrderWindow._entries
      (MetricsAggregator.order_window (KafkaAnalyticsWorker.metrics w'))
      !! "o7" = Some 5.
Proof.
  split; [reflexivity|]. split; [reflexivity|]. split; [reflexivity|].
  assert (Hnd : NoDup (map fst [("order_id", JStr "o7")])).
  { apply NoDup_singleton. }
  assert (HW : 0 <= UniqueOrderWindow.window
                      (MetricsAggregator.order_window
                         (KafkaAnalyticsWorker.metrics Sample.worker))).
  { vm_compute. discriminate. }
  destruct (@order_message_identifier SampleOrders.runtime Sample.worker 5 5
              (Message.key SampleOrders.o7_order)
              (Message.value SampleOrders.o7_order)
              [("order_id", JStr "o7")]
              ("orders:o7:" +:+ SampleOrders.o7_order_text)
              eq_refl Hnd eq_refl eq_refl HW eq_refl)
    as (w' & Hw' & _ & Hpresent & _).
  exists w'. split; [exact Hw'|].
  destruct (Hpresent (JStr "o7") (or_introl eq_refl)) as (Hres & Hentry & _).
  split; [exact Hres|]. apply Hentry. discriminate.
Defined.

Lemma redelivery_has_same_identity_witness :
  @KafkaAnalyticsWorker.message_identity Sample.runtime Sample.order =
  @KafkaAnalyticsWorker.message_identity Sample.runtime Sample.order_again /\
  exists w1 w2,
    @KafkaAnalyticsWorker._handle_message Sample.runtime 0 0
      (Message.topic Sample.order) (Message.key Sample.order)
      (Message.value Sample.order) Sample.worker = Ok w1 /\
    @KafkaAnalyticsWorker._handle_message Sample.runtime 30 30
      (Message.topic Sample.order_again) (Message.key Sample.order_again)
      (Message.value Sample.order_again) w1 = Ok w2 /\
    KafkaAnalyticsWorker.metrics w2 =
      MetricsAggregator.record_duplicate (KafkaAnalyticsWorker.metrics w1).
Proof.
  destruct (@redelivery_has_same_identity Sample.runtime
              Sample.order Sample.order_again eq_refl eq_refl eq_refl)
    as [Hsame Hdup].
  split; [exact Hsame|].
  apply (Hdup Sample.worker [] 0 0 30 30 "orders:o1:{}").
  - apply dedup_inv_init.
  - intros c [].
  - vm_compute. discriminate.
  - vm_compute. discriminate.
  - reflexivity.
  - reflexivity.
Defined.


(** * Further properties of the consumer *)

(** ** Eviction at two successive times *)

Lemma dedup_evict_loop_compose (c1 c2 : Q) (order : list (Q * string)) :
  c1 <= c2 ->
  forall seen,
    DuplicateFilter.evict_loop c2
      (DuplicateFilter.evict_loop c1 seen order).1
      (DuplicateFilter.evict_loop c1 seen order).2 =
    DuplicateFilter.evict_loop c2 seen order.
Proof.
  intros Hc. induction order as [|[ts id] rest IH]; intros seen; simpl; auto.
  destruct (Qltb ts c1) eqn:E1.
  - apply Qltb_lt in E1. assert (E2 : Qltb ts c2 = true) by (apply Qltb_lt; lra).
    rewrite E2. apply IH.
  - reflexivity.
Qed.

Lemma window_evict_loop_compose (c1 c2 : Q) (order : list (Q * string)) :
  c1 <= c2 ->
  forall entries,
    UniqueOrderWindow.evict_loop c2
      (UniqueOrderWindow.evict_loop c1 entries order).1
      (UniqueOrderWindow.evict_loop c1 entries order).2 =
    UniqueOrderWindow.evict_loop c2 entries order.
Proof.
  intros Hc. induction order as [|[ts id] rest IH]; intros entries; simpl; auto.
  destruct (Qltb ts c1) eqn:E1.
  - apply Qltb_lt in E1. assert (E2 : Qltb ts c2 = true) by (apply Qltb_lt; lra).
    rewrite E2. apply IH.
  - reflexivity.
Qed.

Lemma failure_evict_loop_compose (c1 c2 : Q) (events : list (Q * bool)) :
  c1 <= c2 ->
  forall failures,
    FailureWindow.evict_loop c2
      (FailureWindow.evict_loop c1 events failures).1
      (FailureWindow.evict_loop c1 events failures).2 =
    FailureWindow.evict_loop c2 events failures.
Proof.
  intros Hc. induction events as [|[ts b] rest IH]; intros failures; simpl; auto.
  destruct (Qltb ts c1) eqn:E1.
  - apply Qltb_lt in E1. assert (E2 : Qltb ts c2 = true) by (apply Qltb_lt; lra).
    rewrite E2. apply IH.
  - reflexivity.
Qed.

Lemma dedup_evict_compose (t1 t2 : Q) (s : DuplicateFilter.t) :
  t1 <= t2 ->
  DuplicateFilter._evict t2 (DuplicateFilter._evict t1 s) = DuplicateFilter._evict t2 s.
Proof.
  intros Ht. unfold DuplicateFilter._evict at 1 3.
  destruct (dedup_evict_fields t1 s) as [-> ->]. rewrite dedup_evict_ttl.
  rewrite dedup_evict_loop_compose by (by apply py_sub_mono). reflexivity.
Qed.

Lemma window_evict_compose (t1 t2 : Q) (s : UniqueOrderWindow.t) :
  t1 <= t2 ->
  UniqueOrderWindow._evict t2 (UniqueOrderWindow._evict t1 s) =
  UniqueOrderWindow._evict t2 s.
Proof.
  intros Ht. unfold UniqueOrderWindow._evict at 1 3.
  destruct (window_evict_fields t1 s) as (-> & -> & ->).
  rewrite window_evict_loop_compose by (by apply py_sub_mono). reflexivity.
Qed.

Lemma failure_evict_compose (t1 t2 : Q) (s : FailureWindow.t) :
  t1 <= t2 ->
  FailureWindow._evict t2 (FailureWindow._evict t1 s) = FailureWindow._evict t2 s.
Proof.
  intros Ht. unfold FailureWindow._evict at 1 3.
  destruct (failure_evict_fields t1 s) as (-> & -> & ->).
  rewrite failure_evict_loop_compose by (by apply py_sub_mono). reflexivity.
Qed.

(** X1: the eviction a call makes is not seen by a later call: on every
    state of the filter and of the two windows, evicting at a time [t1] and
    then at a later time [t2] leaves what evicting at [t2] alone leaves.  So
    [active_orders()], [per_minute()], [totals()] and [failure_rate_pct()]
    return at [t2] what they would have returned had the read at [t1] not
    been made. *)
Theorem earlier_read_is_not_observed (t1 t2 : Q) :
  t1 <= t2 ->
  (forall s, DuplicateFilter._evict t2 (DuplicateFilter._evict t1 s) =
             DuplicateFilter._evict t2 s) /\
  (forall s,
     UniqueOrderWindow.active_orders t2 (UniqueOrderWindow.active_orders t1 s).2 =
       UniqueOrderWindow.active_orders t2 s /\
     (forall r s1, UniqueOrderWindow.per_minute t1 s = Ok (r, s1) ->
        UniqueOrderWindow.per_minute t2 s1 = UniqueOrderWindow.per_minute t2 s)) /\
  (forall s,
     FailureWindow.totals t2 (FailureWindow.totals t1 s).2 = FailureWindow.totals t2 s /\
     (forall r s1, FailureWindow.failure_rate_pct t1 s = Ok (r, s1) ->
        FailureWindow.failure_rate_pct t2 s1 = FailureWindow.failure_rate_pct t2 s)).
Proof.
  intros Ht. split; [|split].
  - intros s. by apply dedup_evict_compose.
  - intros s. split.
    + unfold UniqueOrderWindow.active_orders. simpl.
      by rewrite window_evict_compose.
    + intros r s1. unfold UniqueOrderWindow.per_minute.
      destruct (py_truediv _ _) as [q|e]; simpl; [|discriminate].
      intros [= _ <-]. by rewrite window_evict_compose.
  - intros s. split.
    + unfold FailureWindow.totals. simpl. by rewrite failure_evict_compose.
    + intros r s1. rewrite !failure_rate_pct_unfold. cbv zeta.
      destruct (_ =? _)%Z; intros [= _ <-]; by rewrite failure_evict_compose.
Qed.

Lemma earlier_read_is_not_observed_witness :
  0 <= 61 /\
  UniqueOrderWindow.active_orders 61
    (UniqueOrderWindow.active_orders 0
       (UniqueOrderWindow.run [(0, Some "X")] (UniqueOrderWindow.__init__ 60))).2 =
  UniqueOrderWindow.active_orders 61
    (UniqueOrderWindow.run [(0, Some "X")] (UniqueOrderWindow.__init__ 60)).
Proof.
  assert (Ht : 0 <= 61) by (vm_compute; discriminate).
  split; [exact Ht|].
  exact (proj1 (proj1 (proj2 (earlier_read_is_not_observed 0 61 Ht)) _)).
Defined.

(** ** Snapshots and the calls on the aggregator *)

Lemma per_minute_state now s r s1 :
  UniqueOrderWindow.per_minute now s = Ok (r, s1) ->
  s1 = UniqueOrderWindow._evict now s.
Proof.
  unfold UniqueOrderWindow.per_minute.
  destruct (py_truediv _ _) as [q|e]; simpl; [|discriminate]. by intros [= _ <-].
Qed.

Lemma failure_rate_pct_state now s r s1 :
  FailureWindow.failure_rate_pct now s = Ok (r, s1) ->
  s1 = FailureWindow._evict now s.
Proof.
  rewrite failure_rate_pct_unfold. cbv zeta.
  destruct (_ =? _)%Z; by intros [= _ <-].
Qed.

Lemma snapshot_state t1 t2 t3 t4 m snap m1 :
  MetricsAggregator.snapshot t1 t2 t3 t4 m = Ok (snap, m1) ->
  m1 = MetricsAggregator.mk
         (UniqueOrderWindow._evict t2 (MetricsAggregator.order_window m))
         (FailureWindow._evict t3
            (FailureWindow._evict t1 (MetricsAggregator.failure_window m)))
         (MetricsAggregator.window_seconds m)
         (MetricsAggregator.stats m).
Proof.
  unfold MetricsAggregator.snapshot, FailureWindow.totals. simpl.
  destruct (UniqueOrderWindow.per_minute t2 _) as [[pm ow1]|e] eqn:Hpm;
    simpl; [|discriminate].
  destruct (FailureWindow.failure_rate_pct t3 _) as [[rate fw2]|e] eqn:Hrate;
    simpl; [|discriminate].
  intros [= _ <-]. apply per_minute_state in Hpm.
  apply failure_rate_pct_state in Hrate. by subst.
Qed.

(** X2: a snapshot does not change what a later snapshot returns.  When
    [snapshot()] has returned, a second call whose clock readings are not
    before those of the first returns the snapshot, and leaves the
    aggregator, that it would have without the first call; the lifetime
    counters and [window_seconds] are as they were. *)
Theorem later_snapshot_ignores_earlier_one
    (m m1 : MetricsAggregator.t) (snap : Snapshot.t)
    (t1 t2 t3 t4 u1 u2 u3 u4 : Q) :
  MetricsAggregator.snapshot t1 t2 t3 t4 m = Ok (snap, m1) ->
  t1 <= u1 -> t3 <= u1 -> t2 <= u2 ->
  MetricsAggregator.snapshot u1 u2 u3 u4 m1 =
    MetricsAggregator.snapshot u1 u2 u3 u4 m /\
  MetricsAggregator.stats m1 = MetricsAggregator.stats m /\
  MetricsAggregator.window_seconds m1 = MetricsAggregator.window_seconds m.
Proof.
  intros Hsnap H1 H3 H2. apply snapshot_state in Hsnap. subst m1.
  split; [|done].
  unfold MetricsAggregator.snapshot, FailureWindow.totals,
    UniqueOrderWindow.per_minute. simpl.
  rewrite !failure_evict_compose, window_evict_compose by assumption.
  reflexivity.
Qed.

Lemma later_snapshot_ignores_earlier_one_witness :
  exists snap m1,
    MetricsAggregator.snapshot 60 60 60 60 Sample.aggregator = Ok (snap, m1) /\
    MetricsAggregator.snapshot 61 61 61 61 m1 =
      MetricsAggregator.snapshot 61 61 61 61 Sample.aggregator.
Proof.
  destruct (MetricsAggregator.snapshot 60 60 60 60 Sample.aggregator)
    as [[snap m1]|e] eqn:Hsnap; [|vm_compute in Hsnap; discriminate].
  exists snap, m1. split; [reflexivity|].
  refine (proj1 (later_snapshot_ignores_earlier_one Sample.aggregator m1 snap
                   60 60 60 60 61 61 61 61 Hsnap _ _ _));
    vm_compute; discriminate.
Defined.

(** ** DuplicateFilter: what the map holds *)

Section DuplicateFilterState.
Import DuplicateFilter.

Lemma dedup_wf_size (seen : gmap string Q) (order : list (Q * string)) :
  dedup_wf seen order -> size seen = length order.
Proof.
  intros [Hnd Hmap].
  set (items := map (fun e : Q * string => (e.2, e.1)) order).
  assert (Hkeys : items.*1 = map snd order).
  { unfold items. clear. induction order as [|[ts k] rest IH]; [done|].
    cbn. f_equal. exact IH. }
  assert (Heq : seen = list_to_map items).
  { apply map_eq. intros k. apply option_eq. intros ts.
    rewrite Hmap, <- elem_of_list_to_map by (by rewrite Hkeys).
    rewrite list_elem_of_In. unfold items. rewrite in_map_iff. split.
    - intros Hin. by exists (ts, k).
    - by intros ([ts' k'] & [= <- <-] & Hin). }
  rewrite Heq, map_size_list_to_map by (by rewrite Hkeys).
  unfold items. by rewrite length_map.
Qed.

Lemma run_history (calls : list (Q * string)) :
  forall s, map fst (run calls s).1 = calls.
Proof.
  induction calls as [|[now id] rest IH]; intros s; simpl; auto.
  destruct (register now id s) as [b s1]. specialize (IH s1).
  destruct (run rest s1) as [h s2]. simpl in *. by rewrite IH.
Qed.

(** X3: after every [register] call of a sequence whose clock readings never
    decrease, the last one a double as every reading of the clock is, the
    map and the deque hold the same identities, each once, with the same
    timestamps; every timestamp kept is not below the cutoff of the call,
    the double nearest to [now - ttl], and not after [now]; the identity
    just registered is in the map; and the ttl is [max(ttl_seconds, 1)]:
    [ttl_seconds] when that is at least 1, and 1 otherwise. *)
Theorem filter_holds_only_recent_identities
    (ttl_seconds : Q) (calls : list (Q * string)) (now : Q) (event_id : string) :
  nondecreasing (map fst calls ++ [now]) = true ->
  is_double now = true ->
  let T := py_max ttl_seconds 1 in
  let s' := (register now event_id (run calls (__init__ ttl_seconds)).2).2 in
  ttl s' = T /\ 1 <= T /\
  size (_seen s') = length (_order s') /\
  NoDup (map snd (_order s')) /\
  (forall k ts, _seen s' !! k = Some ts <-> In (ts, k) (_order s')) /\
  (forall k ts, _seen s' !! k = Some ts -> py_sub now T <= ts /\ ts <= now) /\
  is_Some (_seen s' !! event_id) /\
  (1 <= ttl_seconds -> T = ttl_seconds) /\ (ttl_seconds < 1 -> T = 1).
Proof.
  intros Hclock Hdouble T s'.
  destruct (run_inv calls [] (__init__ ttl_seconds) (dedup_inv_init _))
    as (Hinv & Httl & Hmap).
  { simpl. by apply nondecreasing_app in Hclock as (? & _). }
  simpl in Hinv, Httl, Hmap.
  set (s := (run calls (__init__ ttl_seconds)).2) in *.
  set (hist := (run calls (__init__ ttl_seconds)).1) in *.
  change (ttl s = T) in Httl.
  assert (Hnow : forall c, In c hist -> c.1.1 <= now).
  { intros c Hc. apply nondecreasing_app in Hclock as (_ & _ & Hle).
    apply Hle; [|by left]. rewrite <- Hmap. apply in_map_iff. by exists c. }
  destruct (register_step hist s now event_id Hinv Hnow) as (Hinv' & Httl' & _).
  fold s' in Hinv', Httl'. pose proof (py_max_lower ttl_seconds) as HT. fold T in HT.
  destruct Hinv' as [Hs' Hwf' Hsound' _].
  split; [congruence|]. split; [exact HT|].
  split; [by apply dedup_wf_size|]. destruct Hwf' as [Hnd' Hmap'].
  split; [exact Hnd'|]. split; [exact Hmap'|]. split.
  - intros k ts Hk. apply Hmap' in Hk. split.
    + subst s'. unfold register in Hk.
      pose proof (evict_loop_fresh (py_sub now (ttl s)) (_order s) (_seen s) (ts, k)
                    (inv_sorted _ _ Hinv)) as Hfresh.
      destruct (dedup_evict_fields now s) as [_ Ho]. rewrite <- Ho in Hfresh.
      rewrite Httl in Hfresh.
      destruct (_seen (_evict now s) !! event_id); simpl in Hk; auto.
      apply in_app_or in Hk as [Hk|[[= <- <-]|[]]]; auto.
      apply py_sub_le; [exact Hdouble|lra].
    + apply Hsound' in Hk. apply in_app_or in Hk as [Hk|[[= <- <- _]|[]]].
      * by apply Hnow in Hk.
      * lra.
  - split; [|apply py_max_cases]. subst s'. unfold register.
    destruct (_seen (_evict now s) !! event_id) eqn:Hid; simpl.
    + rewrite Hid. eauto.
    + rewrite lookup_insert_eq. eauto.
Qed.

Lemma filter_holds_only_recent_identities_witness :
  nondecreasing (map fst [(0, "a"); (30, "b")] ++ [70]) = true /\
  is_double 70 = true /\
  size (_seen (register 70 "c"
                 (run [(0, "a"); (30, "b")] (__init__ 60)).2).2) =
  length (_order (register 70 "c"
                    (run [(0, "a"); (30, "b")] (__init__ 60)).2).2).
Proof.
  split; [reflexivity|]. split; [reflexivity|].
  exact (proj1 (proj2 (proj2
    (filter_holds_only_recent_identities 60 [(0, "a"); (30, "b")] 70 "c"
       eq_refl eq_refl)))).
Defined.

Lemma dedup_evict_loop_sub (cutoff : Q) (order : list (Q * string)) :
  forall seen k,
    is_Some ((evict_loop cutoff seen order).1 !! k) -> is_Some (seen !! k).
Proof.
  induction order as [|[ts id] rest IH]; intros seen k; simpl; auto.
  destruct (Qltb ts cutoff); auto.
  intros Hk. apply IH in Hk. destruct Hk as [v Hk].
  apply lookup_delete_Some in Hk as [_ Hk]. eauto.
Qed.

Lemma register_keys (P : string -> Prop) now id s :
  (forall k, is_Some (_seen s !! k) -> P k) -> P id ->
  forall k, is_Some (_seen (register now id s).2 !! k) -> P k.
Proof.
  intros Hs Hid k. unfold register.
  destruct (dedup_evict_fields now s) as [Hseen _].
  assert (Hsub : forall k', is_Some (_seen (_evict now s) !! k') -> P k').
  { intros k'. rewrite Hseen. intros Hk'. apply dedup_evict_loop_sub in Hk'.
    by apply Hs. }
  destruct (_seen (_evict now s) !! id); simpl; auto.
  destruct (decide (k = id)) as [->|Hne]; auto.
  rewrite lookup_insert_ne by congruence. auto.
Qed.

Lemma run_keys (calls : list (Q * string)) :
  forall s k,
    is_Some (_seen (run calls s).2 !! k) ->
    is_Some (_seen s !! k) \/ In k (map snd calls).
Proof.
  induction calls as [|[now id] rest IH]; intros s k; simpl; auto.
  pose proof (register_keys
    (fun k' => is_Some (_seen s !! k') \/ k' = id) now id s) as Hreg.
  destruct (register now id s) as [b s1]. specialize (IH s1 k).
  destruct (run rest s1) as [h s2]. simpl in *.
  intros Hk. destruct (IH Hk) as [Hk1|Hin]; auto.
  destruct (Hreg (fun k' H' => or_introl H') (or_intror eq_refl) k Hk1); auto.
Qed.

(** X4: an identity that no earlier call carried is reported as new,
    whatever the clock readings: [register] returns [False] for it. *)
Theorem unseen_identity_is_new
    (ttl_seconds : Q) (calls : list (Q * string)) (now : Q) (event_id : string) :
  ~ In event_id (map snd calls) ->
  (register now event_id (run calls (__init__ ttl_seconds)).2).1 = false.
Proof.
  intros Hnew. set (s := (run calls (__init__ ttl_seconds)).2).
  assert (Hnone : _seen (_evict now s) !! event_id = None).
  { destruct (_seen (_evict now s) !! event_id) as [ts|] eqn:Hk; auto.
    exfalso. destruct (dedup_evict_fields now s) as [Hseen _].
    rewrite Hseen in Hk.
    assert (Hs : is_Some (_seen s !! event_id)).
    { eapply dedup_evict_loop_sub. rewrite Hk. eauto. }
    apply run_keys in Hs as [[v Hv]|Hin]; auto.
    simpl in Hv. by rewrite lookup_empty in Hv. }
  unfold register. by rewrite Hnone.
Qed.

Lemma unseen_identity_is_new_witness :
  ~ In "c" (map snd [(5, "a"); (3, "b")]) /\
  (register 1 "c" (run [(5, "a"); (3, "b")] (__init__ 60)).2).1 = false.
Proof.
  assert (Hnew : ~ In "c" (map snd [(5, "a"); (3, "b")])).
  { simpl. intros [H|[H|[]]]; discriminate. }
  split; [exact Hnew|].
  exact (unseen_identity_is_new 60 [(5, "a"); (3, "b")] 1 "c" Hnew).
Defined.

End DuplicateFilterState.

(** ** UniqueOrderWindow: what the deque holds *)

Section UniqueOrderWindowState.
Import UniqueOrderWindow.

Lemma entries_size_le (entries : gmap string Q) (order : list (Q * string)) :
  (forall k ts, entries !! k = Some ts -> In (ts, k) order) ->
  (size entries <= length order)%nat.
Proof.
  intros Hq. rewrite <- length_map_to_list.
  rewrite <- (length_fmap (fun p : string * Q => (p.2, p.1)) (map_to_list entries)).
  apply submseteq_length, NoDup_submseteq.
  - apply NoDup_fmap_2_strong; [|apply NoDup_map_to_list].
    intros [a b] [c d] _ _ [= -> ->]. reflexivity.
  - intros [ts k] Hin.
    apply list_elem_of_fmap in Hin as ([k' ts'] & [= -> ->] & Hin).
    apply list_elem_of_In, Hq. by apply elem_of_map_to_list.
Qed.

Lemma window_evict_length now s :
  (length (_order (_evict now s)) <= length (_order s))%nat.
Proof.
  destruct (window_evict_fields now s) as (_ & _ & ->).
  destruct (window_evict_suffix (py_sub now (window s)) (_order s) (_entries s))
    as (dropped & Heq & _).
  rewrite Heq at 2. rewrite length_app. lia.
Qed.

Lemma window_run_length (calls : list (Q * option string)) :
  forall s, (length (_order (run calls s)) <= length (_order s) + length calls)%nat.
Proof.
  induction calls as [|[now oid] rest IH]; intros s; simpl; [lia|].
  specialize (IH (track now oid s)).
  assert (length (_order (track now oid s)) <= length (_order s) + 1)%nat; [|lia].
  unfold track. destruct oid as [k|]; [|lia]. destruct (decide (k = "")); [lia|].
  etransitivity; [apply window_evict_length|]. simpl. rewrite length_app. simpl. lia.
Qed.

(** X5: after [active_orders()] (or [per_minute()]) at a time [now] that is
    not before the [track] calls made, with clock readings that never
    decrease, every pair left in the deque is not below the cutoff of the
    call, the double nearest to [now - W], and not from the future; every
    key of [_entries] has its pair in the deque; the window holds at most
    as many keys as the deque has pairs and at most as many pairs as [track]
    calls were made; and the size [W] is [max(window_seconds, 1)]:
    [window_seconds] when that is at least 1, and 1 otherwise. *)
Theorem window_holds_only_recent_orders
    (window_seconds : Q) (calls : list (Q * option string)) (now : Q) :
  nondecreasing (map fst calls ++ [now]) = true ->
  let W := py_max window_seconds 1 in
  let s' := (active_orders now (run calls (__init__ window_seconds))).2 in
  window s' = W /\
  (forall ts k, In (ts, k) (_order s') -> py_sub now W <= ts /\ ts <= now) /\
  (forall k ts, _entries s' !! k = Some ts -> In (ts, k) (_order s')) /\
  (size (_entries s') <= length (_order s'))%nat /\
  (length (_order s') <= length calls)%nat /\
  (1 <= window_seconds -> W = window_seconds) /\ (window_seconds < 1 -> W = 1).
Proof.
  intros Hclock W s'. set (s := run calls (__init__ window_seconds)).
  destruct (window_run_inv calls [] (__init__ window_seconds)
              (window_inv_init _)) as [Hinv HW].
  { simpl. by apply nondecreasing_app in Hclock as (? & _). }
  simpl in Hinv, HW. fold s in Hinv, HW. change (window s = W) in HW.
  destruct Hinv as [Hs Hb Hq Hl Hne Hlive].
  change s' with (_evict now s).
  destruct (window_evict_fields now s) as (HW' & He & Ho).
  destruct (window_evict_suffix (py_sub now (window s)) (_order s) (_entries s))
    as (dropped & Heq & _).
  assert (Hqueued : forall k ts, _entries (_evict now s) !! k = Some ts ->
                      In (ts, k) (_order (_evict now s))).
  { rewrite He, Ho. by apply window_evict_queued. }
  split; [congruence|]. split; [|split; [exact Hqueued|split]].
  - intros ts k Hin. rewrite Ho in Hin. split.
    + rewrite <- HW. by apply (window_evict_fresh _ _ _ (ts, k)) in Hin.
    + apply nondecreasing_app in Hclock as (_ & _ & Hclock).
      apply Hclock; [|by left]. apply (Hb ts k). rewrite Heq.
      apply in_or_app. by right.
  - by apply entries_size_le.
  - split; [|apply py_max_cases].
    etransitivity; [apply window_evict_length|].
    pose proof (window_run_length calls (__init__ window_seconds)) as Hlen.
    simpl in Hlen. exact Hlen.
Qed.

Lemma window_holds_only_recent_orders_witness :
  nondecreasing (map fst [(0, Some "X"); (30, Some "X"); (40, Some "Y")] ++ [70]) = true /\
  forall ts k,
    In (ts, k) (_order (active_orders 70
                          (run [(0, Some "X"); (30, Some "X"); (40, Some "Y")]
                             (__init__ 60))).2) ->
    py_sub 70 (py_max 60 1) <= ts /\ ts <= 70.
Proof.
  split; [reflexivity|].
  exact (proj1 (proj2
    (window_holds_only_recent_orders 60
       [(0, Some "X"); (30, Some "X"); (40, Some "Y")] 70 eq_refl))).
Defined.

End UniqueOrderWindowState.

(** ** FailureWindow: what [totals] counts *)

Section FailureWindowState.
Import FailureWindow.

Lemma within_app c l1 l2 :
  Calls.within c (l1 ++ l2) = Calls.within c l1 ++ Calls.within c l2.
Proof. apply List.filter_app. Qed.

Lemma within_all c (l : list (Q * bool)) :
  (forall e, In e l -> c <= e.1) -> Calls.within c l = l.
Proof.
  induction l as [|e l IH]; intros Hall; simpl; auto.
  rewrite (proj2 (Qle_bool_iff c e.1)) by (apply Hall; by left).
  rewrite IH; auto. intros e' He'. apply Hall. by right.
Qed.

Lemma within_within c1 c2 (l : list (Q * bool)) :
  c1 <= c2 -> Calls.within c2 (Calls.within c1 l) = Calls.within c2 l.
Proof.
  intros Hc. induction l as [|e l IH]; simpl; auto.
  destruct (Qle_bool c1 e.1) eqn:E1; simpl.
  - by rewrite IH.
  - rewrite IH. destruct (Qle_bool c2 e.1) eqn:E2; auto.
    apply Qle_bool_iff in E2.
    assert (Qle_bool c1 e.1 = true) by (apply Qle_bool_iff; lra). congruence.
Qed.

Lemma within_In c (l : list (Q * bool)) e :
  In e (Calls.within c l) <-> In e l /\ c <= e.1.
Proof. unfold Calls.within. rewrite filter_In, Qle_bool_iff. tauto. Qed.

Lemma failure_evict_within (cutoff : Q) (events : list (Q * bool)) :
  forall failures, nondecreasing (map fst events) = true ->
    (evict_loop cutoff events failures).1 = Calls.within cutoff events.
Proof.
  induction events as [|[ts b] rest IH]; intros failures Hs; simpl; auto.
  simpl in Hs. apply nondecreasing_cons in Hs as [Hall Hs].
  destruct (Qltb ts cutoff) eqn:E.
  - apply Qltb_lt in E.
    destruct (Qle_bool cutoff ts) eqn:E'; [apply Qle_bool_iff in E'; lra|].
    by apply IH.
  - apply Qltb_ge in E. rewrite (proj2 (Qle_bool_iff cutoff ts)) by exact E.
    simpl. f_equal. symmetry. apply within_all. intros e He.
    rewrite Forall_forall in Hall.
    assert (ts <= e.1) by (apply Hall, list_elem_of_In; by apply in_map). lra.
Qed.

Lemma counter_inv_track now b s : counter_inv s -> counter_inv (track now b s).
Proof.
  intros Hs. unfold track. apply counter_inv_evict. unfold counter_inv. simpl.
  rewrite failed_app, Hs. unfold failed. destruct b; simpl; lia.
Qed.

Lemma track_all_events (calls : list (Q * bool)) :
  forall past s c0,
    _events s = Calls.within c0 past ->
    counter_inv s ->
    nondecreasing (map fst past ++ map fst calls) = true ->
    (forall t, In t (map fst calls) -> c0 <= py_sub t (window s)) ->
    window (Calls.track_all calls s) = window s /\
    counter_inv (Calls.track_all calls s) /\
    exists c1,
      _events (Calls.track_all calls s) = Calls.within c1 (past ++ calls) /\
      forall t, (forall t', In t' (map fst calls) -> t' <= t) ->
                c0 <= py_sub t (window s) -> c1 <= py_sub t (window s).
Proof.
  induction calls as [|[now b] rest IH]; intros past s c0 He Hc Hs Hc0; simpl.
  - split; [done|]. split; [done|]. exists c0. rewrite app_nil_r. auto.
  - assert (HW : window (track now b s) = window s).
    { unfold track. by destruct (failure_evict_fields now
        (mk (window s) (_events s ++ [(now, b)])
            (if b then (_failures s + 1)%Z else _failures s))) as (-> & _). }
    assert (Hsplit := Hs). apply nondecreasing_app in Hsplit as (Hpast & Hrest & Hle).
    assert (He1 : _events (track now b s) =
                  Calls.within (py_sub now (window s)) (past ++ [(now, b)])).
    { unfold track.
      destruct (failure_evict_fields now
        (mk (window s) (_events s ++ [(now, b)])
            (if b then (_failures s + 1)%Z else _failures s))) as (_ & -> & _).
      simpl. rewrite failure_evict_within.
      - rewrite He, !within_app, within_within; [done|].
        apply Hc0. by left.
      - rewrite map_app. apply nondecreasing_app. split; [|split; [done|]].
        + apply nondecreasing_app in Hs as (Hp & _).
          revert Hp. rewrite He. clear. induction past as [|e l IH]; simpl; auto.
          intros Hp. apply andb_true_iff in Hp as [Hall Hp].
          destruct (Qle_bool c0 e.1); simpl; auto.
          apply andb_true_iff. split; auto.
          apply forallb_forall. intros x Hx. rewrite forallb_forall in Hall.
          apply Hall. apply in_map_iff in Hx as (e' & <- & He').
          apply in_map. apply within_In in He'. tauto.
        + intros a t Ha [<-|[]]. apply Hle; [|by left].
          apply in_map_iff in Ha as (e & <- & Hin). apply in_map.
          rewrite He in Hin. apply within_In in Hin. tauto. }
    destruct (IH (past ++ [(now, b)]) (track now b s) (py_sub now (window s)))
      as (HW2 & Hc2 & c1 & He2 & Hc1).
    + exact He1.
    + by apply counter_inv_track.
    + by rewrite map_app, <- app_assoc.
    + intros t Ht. rewrite HW. apply py_sub_mono.
      simpl in Hrest. apply nondecreasing_cons in Hrest as [Hall _].
      rewrite Forall_forall in Hall. by apply Hall, list_elem_of_In.
    + split; [congruence|]. split; [exact Hc2|].
      exists c1. rewrite <- app_assoc in He2. split; [exact He2|].
      intros t Hlater Hct. rewrite <- HW. apply Hc1.
      * intros t' Ht'. apply Hlater. by right.
      * rewrite HW. apply py_sub_mono. apply Hlater. by left.
Qed.

(** X6: on a window built with [__init__] and fed by [track] calls whose
    clock readings never decrease, [totals()] at a later time [now] returns
    the number of tracked events that are not below the cutoff of the call,
    the double nearest to [now - window], and the number of failures among
    them; the deque holds just these events in order, and
    [failure_rate_pct()] is 0.0 when there is none and
    [failures / total * 100] as computed on doubles otherwise.  The window
    is [max(window_seconds, 1)]: [window_seconds] when that is at least 1,
    and 1 otherwise. *)
Theorem totals_count_events_within_window
    (window_seconds : Q) (calls : list (Q * bool)) (now : Q) :
  nondecreasing (map fst calls ++ [now]) = true ->
  let W := py_max window_seconds 1 in
  let s := Calls.track_all calls (__init__ window_seconds) in
  let live := Calls.within (py_sub now W) calls in
  (totals now s).1 = (Z.of_nat (length live), failed live) /\
  _events (totals now s).2 = live /\
  ((1 <= window_seconds -> W = window_seconds) /\ (window_seconds < 1 -> W = 1)) /\
  exists r, failure_rate_pct now s = Ok (r, (totals now s).2) /\
    (live = [] -> r = 0) /\
    (live <> [] ->
       r = py_mul (py_div (inject_Z (failed live))
                     (inject_Z (Z.of_nat (length live)))) 100).
Proof.
  intros Hclock W s live.
  assert (Hsplit := Hclock).
  apply nondecreasing_app in Hsplit as (Hcalls & _ & Hle).
  set (c0 := py_sub (hd now (map fst calls)) W).
  destruct (track_all_events calls [] (__init__ window_seconds) c0)
    as (HW & Hc & c1 & He & Hc1); auto.
  { reflexivity. }
  { intros t Ht. simpl. fold W. unfold c0. apply py_sub_mono.
    destruct calls as [|[t0 b0] rest]; [destruct Ht|]. simpl in *.
    destruct Ht as [<-|Ht]; [lra|].
    apply nondecreasing_cons in Hcalls as [Hall _].
    rewrite Forall_forall in Hall.
    by apply Hall, list_elem_of_In. }
  fold s in HW, Hc, He. simpl in HW, He. change (window s = W) in HW.
  assert (Hc1' : c1 <= py_sub now W).
  { change W with (window (__init__ window_seconds)). apply Hc1.
    - intros t' Ht'. apply Hle; [done|by left].
    - simpl. fold W. unfold c0. apply py_sub_mono.
      destruct calls as [|[t0 b0] rest]; simpl; [lra|].
      apply Hle; by left. }
  assert (Hsorted : nondecreasing (map fst (_events s)) = true).
  { rewrite He. revert Hcalls. clear. induction calls as [|e l IH]; simpl; auto.
    intros Hp. apply andb_true_iff in Hp as [Hall Hp].
    destruct (Qle_bool c1 e.1); simpl; auto.
    apply andb_true_iff. split; auto.
    apply forallb_forall. intros x Hx. rewrite forallb_forall in Hall.
    apply Hall. apply in_map_iff in Hx as (e' & <- & He').
    apply in_map. apply within_In in He'. tauto. }
  assert (Hlive : _events (_evict now s) = live).
  { destruct (failure_evict_fields now s) as (_ & -> & _).
    rewrite failure_evict_within by exact Hsorted.
    rewrite He, HW, within_within by exact Hc1'. reflexivity. }
  pose proof (counter_inv_evict now s Hc) as Hcount. unfold counter_inv in Hcount.
  rewrite Hlive in Hcount.
  split; [unfold totals; simpl; by rewrite Hlive, Hcount|].
  split; [exact Hlive|]. split; [apply py_max_cases|].
  rewrite failure_rate_pct_unfold. cbv zeta. unfold totals. simpl.
  rewrite Hlive, Hcount.
  destruct (Z.of_nat (length live) =? 0)%Z eqn:E.
  - exists 0. split; [done|]. split; [done|]. intros Hne.
    apply Z.eqb_eq in E. destruct live; [done|simpl in E; lia].
  - eexists. split; [reflexivity|]. split.
    + intros Hnil. rewrite Hnil in E. discriminate.
    + done.
Qed.

Lemma totals_count_events_within_window_witness :
  nondecreasing (map fst [(0, true); (30, false); (45, true)] ++ [70]) = true /\
  (totals 70 (Calls.track_all [(0, true); (30, false); (45, true)] (__init__ 60))).1 =
  (Z.of_nat (length (Calls.within (py_sub 70 (py_max 60 1))
                       [(0, true); (30, false); (45, true)])),
   failed (Calls.within (py_sub 70 (py_max 60 1)) [(0, true); (30, false); (45, true)])).
Proof.
  split; [reflexivity|].
  exact (proj1 (totals_count_events_within_window 60
                  [(0, true); (30, false); (45, true)] 70 eq_refl)).
Defined.

End FailureWindowState.

(** ** MetricsAggregator: any sequence of calls *)

Section AggregatorCalls.
Import MetricsAggregator.

Lemma aggregator_inv_init ws : Calls.aggregator_inv ws (__init__ ws).
Proof. repeat split. Qed.

Lemma track_keeps_window now order_id s :
  UniqueOrderWindow.window (UniqueOrderWindow.track now order_id s) =
  UniqueOrderWindow.window s.
Proof.
  unfold UniqueOrderWindow.track. destruct order_id as [k|]; auto.
  destruct (decide (k = "")); auto.
  by destruct (window_evict_fields now
    (UniqueOrderWindow.mk (UniqueOrderWindow.window s)
       (<[k:=now]> (UniqueOrderWindow._entries s))
       (UniqueOrderWindow._order s ++ [(now, k)]))) as (-> & _).
Qed.

Lemma failure_track_keeps_window now b s :
  FailureWindow.window (FailureWindow.track now b s) = FailureWindow.window s.
Proof.
  unfold FailureWindow.track.
  by destruct (failure_evict_fields now
    (FailureWindow.mk (FailureWindow.window s)
       (FailureWindow._events s ++ [(now, b)])
       (if b then (FailureWindow._failures s + 1)%Z
        else FailureWindow._failures s))) as (-> & _).
Qed.

Lemma snapshot_returns ws m t1 t2 t3 t4 :
  Calls.aggregator_inv ws m ->
  exists snap,
    snapshot t1 t2 t3 t4 m =
      Ok (snap,
          mk (UniqueOrderWindow._evict t2 (order_window m))
             (FailureWindow._evict t3 (FailureWindow._evict t1 (failure_window m)))
             (MetricsAggregator.window_seconds m) (stats m)) /\
    (0 <= Snapshot.failures snap <= Snapshot.inventory_events snap)%Z /\
    0 <= Snapshot.failure_rate_pct snap <= 100 /\
    0 <= Snapshot.orders_per_min snap /\
    Snapshot.window_seconds snap = py_int ws /\
    Snapshot.generated_at snap = t4.
Proof.
  intros (HWo & HWf & Hc & Hws).
  pose proof (py_max_lower ws) as HW.
  unfold snapshot, FailureWindow.totals.
  rewrite per_minute_ok by (rewrite HWo; exact HW). simpl.
  rewrite failure_rate_pct_unfold. cbv zeta.
  set (fw1 := FailureWindow._evict t1 (failure_window m)).
  set (fw2 := FailureWindow._evict t3 fw1).
  assert (Hc1 : FailureWindow.counter_inv fw1) by (by apply counter_inv_evict).
  assert (Hc2 : FailureWindow.counter_inv fw2) by (by apply counter_inv_evict).
  set (count := Z.of_nat (size (UniqueOrderWindow._entries
                                  (UniqueOrderWindow._evict t2 (order_window m))))).
  assert (Hopm : 0 <= py_div (py_mul (float_of_int count) 60)
                        (UniqueOrderWindow.window (order_window m))).
  { rewrite HWo. apply round64_nonneg. apply Qle_shift_div_l; [lra|].
    assert (0 <= float_of_int count).
    { apply round64_nonneg. change 0 with (inject_Z 0). rewrite <- Zle_Qle.
      unfold count. lia. }
    assert (0 <= py_mul (float_of_int count) 60) by (apply round64_nonneg; lra).
    lra. }
  assert (Hb1 : (0 <= FailureWindow._failures fw1
                   <= Z.of_nat (length (FailureWindow._events fw1)))%Z).
  { rewrite Hc1. apply failed_bounds. }
  assert (Hb2 : (0 <= FailureWindow._failures fw2
                   <= Z.of_nat (length (FailureWindow._events fw2)))%Z).
  { rewrite Hc2. apply failed_bounds. }
  destruct (Z.of_nat (length (FailureWindow._events fw2)) =? 0)%Z eqn:E; simpl.
  - eexists. split; [reflexivity|]. simpl.
    split; [exact Hb1|]. split; [lra|]. split; [exact Hopm|].
    split; [exact Hws|reflexivity].
  - eexists. split; [reflexivity|]. simpl. apply Z.eqb_neq in E.
    split; [exact Hb1|]. split; [apply ratio_bounds; lia|]. split; [exact Hopm|].
    split; [exact Hws|reflexivity].
Qed.

Lemma apply_keeps_inv ws c m :
  Calls.aggregator_inv ws m ->
  exists m', Calls.apply c m = Ok m' /\ Calls.aggregator_inv ws m' /\
    stats m' =
      mkStats (orders (stats m) + (if Calls.is_order c then 1 else 0))
              (inventory (stats m) + (if Calls.is_inventory c then 1 else 0))
              (duplicates (stats m) + (if Calls.is_duplicate c then 1 else 0)).
Proof.
  intros Hinv. pose proof Hinv as (HWo & HWf & Hc & Hws).
  assert (Hstats : forall st : Stats,
            st = mkStats (orders st + 0) (inventory st + 0) (duplicates st + 0)).
  { intros [a b d]. simpl. f_equal; lia. }
  destruct c as [now oid|now b| |t1 t2 t3 t4]; simpl.
  - eexists. split; [reflexivity|]. split.
    + repeat split; simpl; auto. by rewrite track_keeps_window.
    + simpl. f_equal; lia.
  - eexists. split; [reflexivity|]. split.
    + repeat split; simpl; auto.
      * by rewrite failure_track_keeps_window.
      * by apply counter_inv_track.
    + simpl. f_equal; lia.
  - eexists. split; [reflexivity|]. split.
    + repeat split; simpl; auto.
    + simpl. f_equal; lia.
  - destruct (snapshot_returns ws m t1 t2 t3 t4 Hinv) as (snap & -> & _).
    simpl. eexists. split; [reflexivity|]. split; [|apply Hstats].
    repeat split; simpl; auto.
    + by destruct (window_evict_fields t2 (order_window m)) as (-> & _).
    + destruct (failure_evict_fields t3
                  (FailureWindow._evict t1 (failure_window m))) as (-> & _).
      by destruct (failure_evict_fields t1 (failure_window m)) as (-> & _).
    + by do 2 apply counter_inv_evict.
Qed.

Lemma run_keeps_inv ws (calls : list Calls.call) :
  forall m, Calls.aggregator_inv ws m ->
    exists m', Calls.run calls m = Ok m' /\ Calls.aggregator_inv ws m' /\
      orders (stats m') = (orders (stats m) + Calls.count Calls.is_order calls)%Z /\
      inventory (stats m') =
        (inventory (stats m) + Calls.count Calls.is_inventory calls)%Z /\
      duplicates (stats m') =
        (duplicates (stats m) + Calls.count Calls.is_duplicate calls)%Z.
Proof.
  unfold Calls.count.
  induction calls as [|c rest IH]; intros m Hinv; simpl.
  - exists m. split; [done|]. split; [exact Hinv|]. repeat split; lia.
  - destruct (apply_keeps_inv ws c m Hinv) as (m1 & -> & Hinv1 & Hst).
    simpl. destruct (IH m1 Hinv1) as (m' & Hrun & Hinv' & Ho & Hi & Hd).
    exists m'. split; [exact Hrun|]. split; [exact Hinv'|].
    rewrite Ho, Hi, Hd, Hst. simpl.
    destruct c; simpl; repeat split; lia.
Qed.

(** X7: on an aggregator built with [__init__] and used through any
    sequence of [record_order], [record_inventory], [record_duplicate] and
    [snapshot] calls, with any clock readings, no call raises, and
    [snapshot()] returns a dict with [0 <= failures <= inventory_events],
    [0 <= failure_rate_pct <= 100], [orders_per_min >= 0], [window_seconds]
    equal to [int] of the configured window and [generated_at] equal to its
    last clock reading. *)
Theorem snapshot_never_raises
    (window_seconds : Q) (calls : list Calls.call) (t1 t2 t3 t4 : Q) :
  exists m snap m',
    Calls.run calls (__init__ window_seconds) = Ok m /\
    snapshot t1 t2 t3 t4 m = Ok (snap, m') /\
    (0 <= Snapshot.failures snap <= Snapshot.inventory_events snap)%Z /\
    0 <= Snapshot.failure_rate_pct snap <= 100 /\
    0 <= Snapshot.orders_per_min snap /\
    Snapshot.window_seconds snap = py_int window_seconds /\
    Snapshot.generated_at snap = t4.
Proof.
  destruct (run_keeps_inv window_seconds calls (__init__ window_seconds)
              (aggregator_inv_init _)) as (m & Hrun & Hinv & _).
  destruct (snapshot_returns window_seconds m t1 t2 t3 t4 Hinv)
    as (snap & Hsnap & Hrest).
  exists m, snap. eexists. split; [exact Hrun|]. split; [exact Hsnap|exact Hrest].
Qed.

(** X8: the lifetime counters count the calls: after any sequence of calls
    on an aggregator built with [__init__], [orders], [inventory] and
    [duplicates] are the numbers of [record_order], [record_inventory] and
    [record_duplicate] calls made; [snapshot] calls change none of them, and
    an order without identifier is counted like any other. *)
Theorem lifetime_counters_count_calls
    (window_seconds : Q) (calls : list Calls.call) :
  exists m,
    Calls.run calls (__init__ window_seconds) = Ok m /\
    orders (stats m) = Calls.count Calls.is_order calls /\
    inventory (stats m) = Calls.count Calls.is_inventory calls /\
    duplicates (stats m) = Calls.count Calls.is_duplicate calls.
Proof.
  destruct (run_keeps_inv window_seconds calls (__init__ window_seconds)
              (aggregator_inv_init _)) as (m & Hrun & _ & Ho & Hi & Hd).
  exists m. split; [exact Hrun|]. simpl in Ho, Hi, Hd. repeat split; lia.
Qed.

End AggregatorCalls.

(** ** KafkaAnalyticsWorker: the loop *)

Section WorkerLoop.
Context `{PyRuntime}.
Import KafkaAnalyticsWorker.

Lemma commits_app effects1 effects2 :
  Calls.commits (effects1 ++ effects2) =
  Calls.commits effects1 ++ Calls.commits effects2.
Proof.
  induction effects1 as [|[msg|msg|q|] rest IH]; simpl; auto. by rewrite IH.
Qed.

Lemma refused_app effects1 effects2 :
  Calls.refused (effects1 ++ effects2) =
  Calls.refused effects1 ++ Calls.refused effects2.
Proof.
  induction effects1 as [|[msg|msg|q|] rest IH]; simpl; auto. by rewrite IH.
Qed.

(** One turn of the loop does not close the consumer, and commits the
    polled message if it ends without an exception. *)
Lemma iteration_effects p w :
  ~ In Close (iteration p w).1.2 /\
  exists pending,
    Calls.delivered [p] = Calls.commits (iteration p w).1.2 ++ pending /\
    ((iteration p w).2 = None -> pending = []).
Proof.
  unfold iteration. simpl. destruct (polled p) as [msg|]; [|simpl; split; [tauto|by exists []]].
  destruct (Message.error msg) as [code|] eqn:He.
  - destruct (code =? _PARTITION_EOF)%Z; [simpl; split; [tauto|by exists []]|].
    destruct (code =? UNKNOWN_TOPIC_OR_PART)%Z; simpl.
    + split; [intros [Heq|[]]; discriminate|by exists []].
    + split; [tauto|by exists []].
  - destruct (_handle_message _ _ _ _ _ w) as [w'|e] eqn:Hh; simpl.
    + destruct (commit_error p) as [code|]; simpl.
      * split; [intros [Heq|[]]; discriminate|]. exists [msg]. split; [done|discriminate].
      * destruct (Qeq_bool (throttle w') 0); simpl.
        -- split; [intros [Heq|[]]; discriminate|by exists []].
        -- destruct (time_sleep (throttle w')); simpl.
           ++ split; [intros [Heq|[]]; discriminate|by exists []].
           ++ split; [intros [Heq|[Heq|[]]]; discriminate|by exists []].
    + split; [tauto|]. exists [msg]. split; [done|discriminate].
Qed.

(** X9: [run] closes the consumer on every exit: whatever is polled and
    whether the loop ends by the stop flag or by an exception, the last
    thing done to the consumer is [close()], and it is done once. *)
Theorem run_closes_consumer (polls : list Poll) (w : t) :
  exists body, (run polls w).1.2 = body ++ [Close] /\ ~ In Close body.
Proof.
  revert w. induction polls as [|p rest IH]; intros w.
  - exists []. split; auto.
  - rewrite run_cons_step. destruct (iteration_effects p w) as [Hno _].
    destruct (iteration p w) as [[w1 effects] [e|]]; simpl in *.
    + exists effects. split; [done|exact Hno].
    + destruct (IH w1) as (body & Hbody & Hnot).
      exists (effects ++ body). rewrite Hbody, app_assoc. split; [done|].
      intros Hin. apply in_app_or in Hin as [Hin|Hin]; tauto.
Qed.

Lemma delivered_cons p rest :
  Calls.delivered (p :: rest) = Calls.delivered [p] ++ Calls.delivered rest.
Proof.
  simpl. destruct (polled p) as [msg|]; auto.
  destruct (Message.error msg); auto.
Qed.

(** X10: the commits follow the deliveries: the messages [run] commits are,
    in order, the first of the polled messages that carry no error, each
    once; when the loop ends without an exception they are all of them, so
    every polled message without error is committed, duplicates and corrupt
    messages included. *)
Theorem commits_follow_deliveries (polls : list Poll) (w : t) :
  exists pending,
    Calls.delivered polls = Calls.commits (run polls w).1.2 ++ pending /\
    ((run polls w).2 = None -> pending = []).
Proof.
  revert w. induction polls as [|p rest IH]; intros w.
  - exists []. split; auto.
  - rewrite delivered_cons, run_cons_step.
    destruct (iteration_effects p w) as (_ & pend & Hp & Hnone).
    destruct (iteration p w) as [[w1 effects] [e|]]; simpl in *.
    + exists (pend ++ Calls.delivered rest). split; [|discriminate].
      rewrite commits_app, Hp. simpl. by rewrite app_nil_r, app_assoc.
    + rewrite (Hnone eq_refl), app_nil_r in Hp.
      destruct (IH w1) as (pending & Hd & Hnone').
      exists pending. split; [|exact Hnone'].
      by rewrite commits_app, Hp, Hd, app_assoc.
Qed.

End WorkerLoop.

(** ** KafkaAnalyticsWorker: errors and configuration *)

Section WorkerErrors.
Context `{PyRuntime}.
Import KafkaAnalyticsWorker.

Lemma run_absorbs (polls : list Poll) :
  forallb Calls.transient polls = true ->
  forall rest w,
    run (polls ++ rest) w =
      ((run rest w).1.1, Calls.waits polls ++ (run rest w).1.2, (run rest w).2).
Proof.
  induction polls as [|p polls IH]; intros Hall rest w.
  - simpl. by destruct (run rest w) as [[w2 later] outcome].
  - simpl in Hall. apply andb_true_iff in Hall as [Hp Hall].
    specialize (IH Hall rest w). simpl. unfold iteration, Calls.transient in *.
    destruct (polled p) as [msg|]; [|by rewrite IH].
    destruct (Message.error msg) as [code|]; [|discriminate].
    destruct (code =? _PARTITION_EOF)%Z; [by rewrite IH|].
    simpl in Hp. rewrite Hp. by rewrite IH.
Qed.

(** X11: polls that return nothing, the end of a partition or an unknown
    topic are absorbed: they leave the worker as it is, commit nothing, and
    cost a sleep of one second for each unknown-topic error.  Any other
    error code then ends the loop with [KafkaException]: the consumer is
    closed, the worker is as it was, and the polls after it are not made. *)
Theorem bus_errors_absorbed_or_fatal
    (polls : list Poll) (p : Poll) (msg : Message.t) (code : Z)
    (rest : list Poll) (w : t) :
  forallb Calls.transient polls = true ->
  polled p = Some msg ->
  Message.error msg = Some code ->
  code <> _PARTITION_EOF -> code <> UNKNOWN_TOPIC_OR_PART ->
  run polls w = (w, Calls.waits polls ++ [Close], None) /\
  Calls.commits (Calls.waits polls) = [] /\
  run (polls ++ p :: rest) w =
    (w, Calls.waits polls ++ [Close], Some (KafkaException code)).
Proof.
  intros Hall Hp He Heof Hunk.
  split; [|split].
  - rewrite <- (app_nil_r polls) at 1. by rewrite run_absorbs.
  - clear. induction polls as [|q polls IH]; simpl; auto.
    destruct (polled q) as [m|]; auto. destruct (Message.error m) as [c|]; auto.
    destruct (c =? _PARTITION_EOF)%Z; auto.
    destruct (c =? UNKNOWN_TOPIC_OR_PART)%Z; auto.
  - rewrite run_absorbs by exact Hall. simpl. unfold iteration.
    rewrite Hp, He.
    apply Z.eqb_neq in Heof, Hunk. by rewrite Heof, Hunk.
Qed.

(** X12: a message whose value is well-formed JSON but not an object (a
    list, a number, a string, [null]) is not skipped: [payload.get] raises
    [AttributeError] in [_event_id], before the filter and the aggregator are
    touched; the message is not committed, the consumer is closed and the
    loop ends with the exception, leaving the later polls unmade. *)
Theorem non_object_payload_stops_worker
    (p : Poll) (msg : Message.t) (payload : json) (rest : list Poll) (w : t) :
  polled p = Some msg ->
  Message.error msg = None ->
  _decode_payload (Message.value msg) = Ok payload ->
  (forall members, payload <> JObj members) ->
  _handle_message (t_register p) (t_record p) (Message.topic msg)
    (Message.key msg) (Message.value msg) w = Raise AttributeError /\
  run (p :: rest) w = (w, [Close], Some AttributeError).
Proof.
  intros Hp He Hd Hobj.
  assert (Hh : _handle_message (t_register p) (t_record p) (Message.topic msg)
                 (Message.key msg) (Message.value msg) w = Raise AttributeError).
  { unfold _handle_message. rewrite Hd.
    destruct payload; try reflexivity. by destruct (Hobj members). }
  split; [exact Hh|]. simpl. unfold iteration. by rewrite Hp, He, Hh.
Qed.

Lemma register_keeps_ttl now id s :
  DuplicateFilter.ttl (DuplicateFilter.register now id s).2 = DuplicateFilter.ttl s.
Proof.
  unfold DuplicateFilter.register.
  destruct (DuplicateFilter._seen (DuplicateFilter._evict now s) !! id);
    simpl; apply dedup_evict_ttl.
Qed.

Lemma handle_keeps_settings t_reg t_rec topic key value w w' :
  _handle_message t_reg t_rec topic key value w = Ok w' ->
  Calls.settings w' = Calls.settings w.
Proof.
  unfold _handle_message, Calls.settings.
  destruct (_decode_payload value) as [payload|e].
  - destruct (_event_id topic key payload) as [event_id|e]; simpl; [|discriminate].
    pose proof (register_keeps_ttl t_reg event_id (deduper w)) as Httl.
    destruct (DuplicateFilter.register t_reg event_id (deduper w)) as [dup d'].
    simpl in Httl. destruct dup.
    + intros [= <-]. simpl. by rewrite Httl.
    + destruct (decide (topic = ORDER_TOPIC (env w))).
      * destruct payload; try discriminate. intros [= <-]. simpl.
        by rewrite Httl, track_keeps_window.
      * destruct (decide (topic = INVENTORY_TOPIC (env w))).
        -- destruct (payload_get payload "status"); simpl; [|discriminate].
           intros [= <-]. simpl. by rewrite Httl, failure_track_keeps_window.
        -- intros [= <-]. simpl. by rewrite Httl.
  - destruct e; try discriminate. by intros [= <-].
Qed.

Lemma iteration_settings (p : Poll) (w : t) :
  Calls.settings (iteration p w).1.1 = Calls.settings w.
Proof.
  unfold iteration.
  destruct (polled p) as [msg|]; [|done].
  destruct (Message.error msg) as [code|].
  - destruct (code =? _PARTITION_EOF)%Z; [done|].
    by destruct (code =? UNKNOWN_TOPIC_OR_PART)%Z.
  - destruct (_handle_message _ _ _ _ _ w) as [w'|e] eqn:Hh; [|done].
    apply handle_keeps_settings in Hh.
    destruct (commit_error p); [done|].
    destruct (Qeq_bool (throttle w') 0); [done|].
    by destruct (time_sleep (throttle w')).
Qed.

Lemma run_settings (polls : list Poll) (w : t) :
  Calls.settings (run polls w).1.1 = Calls.settings w.
Proof.
  revert w. induction polls as [|p rest IH]; intros w; [done|].
  rewrite run_cons_step. pose proof (iteration_settings p w) as Hi.
  destruct (iteration p w) as [[w1 effects] [e|]]; simpl in *; [done|].
  by rewrite IH.
Qed.

(** X13: the worker [main] builds from a configuration remembers an
    identity for as long as an order or an inventory event stays in its
    window: at every point of the loop the ttl of the filter and the sizes
    of both windows are [max(WINDOW_SEC, 1)], at least one second, and the
    throttle is [THROTTLE_MS / 1000.0]. *)
Theorem filter_ttl_is_window_size (config : Startup.Config) (polls : list Poll) :
  let w := (run polls (Startup.worker config)).1.1 in
  let W := py_max (Startup.WINDOW_SEC config) 1 in
  DuplicateFilter.ttl (deduper w) = W /\
  UniqueOrderWindow.window (MetricsAggregator.order_window (metrics w)) = W /\
  FailureWindow.window (MetricsAggregator.failure_window (metrics w)) = W /\
  1 <= W /\
  MetricsAggregator.window_seconds (metrics w) = py_int (Startup.WINDOW_SEC config) /\
  throttle w = py_div (float_of_int (Startup.THROTTLE_MS config)) 1000 /\
  ORDER_TOPIC (env w) = Startup.ORDER_TOPIC config /\
  INVENTORY_TOPIC (env w) = Startup.INVENTORY_TOPIC config.
Proof.
  intros w W. pose proof (run_settings polls (Startup.worker config)) as Hs.
  fold w in Hs. unfold Calls.settings in Hs. simpl in Hs.
  injection Hs as He Ht Httl Hwo Hwf Hws.
  rewrite He, Ht, Httl, Hwo, Hwf, Hws. repeat split. apply py_max_lower.
Qed.

(** X14: when the payload carries an [order_id] other than [null], the
    identity does not depend on the message key: two deliveries on the same
    topic with the same value get the same identity whatever their keys,
    and it is the topic, [str(order_id)] (or [na] when the value is falsy)
    and the digest, joined by colons. *)
Theorem identity_ignores_key_when_order_id_present
    (topic : string) (key key' : option (list Byte.byte))
    (members : list (string * json)) (v : json) :
  dict_lookup "order_id" members = Some v ->
  v <> JNull ->
  _event_id topic key (JObj members) = _event_id topic key' (JObj members) /\
  _event_id topic key (JObj members) =
    Ok (topic +:+ ":" +:+ (if truthy v then py_str v else "na") +:+ ":" +:+
        sha1_hexdigest (json_dumps_sort_keys (JObj members))).
Proof.
  intros Hv Hnull. unfold _event_id. simpl. rewrite Hv. simpl.
  destruct v; try done; by destruct key, key'.
Qed.

End WorkerErrors.

Lemma bus_errors_absorbed_or_fatal_witness :
  @KafkaAnalyticsWorker.run Sample.runtime
    [KafkaAnalyticsWorker.mkPoll None 0 0 None;
     KafkaAnalyticsWorker.mkPoll (Some (Message.mk (Some UNKNOWN_TOPIC_OR_PART) "orders" None None 0 0)) 0 0 None;
     KafkaAnalyticsWorker.mkPoll (Some (Message.mk (Some (-195)%Z) "orders" None None 0 0)) 0 0 None;
     KafkaAnalyticsWorker.mkPoll (Some Sample.order) 0 0 None]
    Sample.worker =
  (Sample.worker, [KafkaAnalyticsWorker.Sleep 1; KafkaAnalyticsWorker.Close], Some (KafkaException (-195)%Z)).
Proof.
  refine (proj2 (proj2
    (@bus_errors_absorbed_or_fatal Sample.runtime
       [KafkaAnalyticsWorker.mkPoll None 0 0 None;
        KafkaAnalyticsWorker.mkPoll (Some (Message.mk (Some UNKNOWN_TOPIC_OR_PART) "orders" None None 0 0)) 0 0 None]
       (KafkaAnalyticsWorker.mkPoll (Some (Message.mk (Some (-195)%Z) "orders" None None 0 0)) 0 0 None)
       (Message.mk (Some (-195)%Z) "orders" None None 0 0) (-195)%Z
       [KafkaAnalyticsWorker.mkPoll (Some Sample.order) 0 0 None] Sample.worker
       eq_refl eq_refl eq_refl _ _))); discriminate.
Defined.

Lemma non_object_payload_stops_worker_witness :
  @_decode_payload Sample.runtime (Some (String.list_byte_of_string "[]")) =
    Ok (JArr []) /\
  @KafkaAnalyticsWorker.run Sample.runtime
    [KafkaAnalyticsWorker.mkPoll (Some (Message.mk None "orders" None
                     (Some (String.list_byte_of_string "[]")) 0 3)) 0 0 None;
     KafkaAnalyticsWorker.mkPoll (Some Sample.order) 1 1 None]
    Sample.worker =
  (Sample.worker, [KafkaAnalyticsWorker.Close], Some AttributeError).
Proof.
  split; [reflexivity|].
  refine (proj2
    (@non_object_payload_stops_worker Sample.runtime
       (KafkaAnalyticsWorker.mkPoll (Some (Message.mk None "orders" None
                        (Some (String.list_byte_of_string "[]")) 0 3)) 0 0 None)
       (Message.mk None "orders" None (Some (String.list_byte_of_string "[]")) 0 3)
       (JArr []) [KafkaAnalyticsWorker.mkPoll (Some Sample.order) 1 1 None] Sample.worker
       eq_refl eq_refl eq_refl _)).
  discriminate.
Defined.


Lemma identity_ignores_key_when_order_id_present_witness :
  dict_lookup "order_id" [("order_id", JStr "o7")] = Some (JStr "o7") /\
  @_event_id Sample.runtime "orders" (Some (String.list_byte_of_string "k1"))
    (JObj [("order_id", JStr "o7")]) =
  @_event_id Sample.runtime "orders" None (JObj [("order_id", JStr "o7")]).
Proof.
  split; [reflexivity|].
  refine (proj1 (@identity_ignores_key_when_order_id_present Sample.runtime
                   "orders" (Some (String.list_byte_of_string "k1")) None
                   [("order_id", JStr "o7")] (JStr "o7") eq_refl _)).
  discriminate.
Defined.

(** ** Configuration *)

Section LoadEnvProofs.
Context `{Startup.Parsers}.
Import Startup.

Lemma missing_In environ key :
  In key (missing environ) <->
  In key required /\ (environ !! key = None \/ environ !! key = Some "").
Proof.
  unfold missing. rewrite filter_In. unfold unset.
  destruct (environ !! key) as [v|]; split; intros [Hin Hk]; split; auto.
  - right. apply bool_decide_eq_true in Hk. by subst.
  - destruct Hk as [|[= ->]]; [discriminate|]. by apply bool_decide_eq_true.
Qed.

(** X15: a required variable that is not set, or set to the empty string,
    makes [_load_env] raise [RuntimeError], whatever the other variables
    hold, a malformed number included; the message names the missing
    variables, all of them and no other, in the order of the required
    list. *)
Theorem load_env_reports_missing_variables
    (environ : gmap string string) (key : string) :
  In key required ->
  environ !! key = None \/ environ !! key = Some "" ->
  _load_env environ =
    inl (RuntimeError
           ("Missing required env vars: " +:+ join ", " (missing environ))) /\
  In key (missing environ) /\
  forall k, In k (missing environ) <->
    In k required /\ (environ !! k = None \/ environ !! k = Some "").
Proof.
  intros Hreq Hunset.
  assert (Hin : In key (missing environ)) by (by apply missing_In).
  split; [|split; [exact Hin|apply missing_In]].
  unfold _load_env. destruct (missing environ); [destruct Hin|reflexivity].
Qed.

(** X16: when [_load_env] returns, the four required settings are the
    values of their variables and none is empty, the optional texts are the
    variable or its default, the numbers are what [float] and [int] make of
    the variable or of its default, and the static member id is never the
    empty string. *)
Theorem load_env_returns_configuration
    (environ : gmap string string) (config : Config) :
  _load_env environ = inr config ->
  (environ !! "BOOTSTRAP_SERVERS" = Some (BOOTSTRAP_SERVERS config) /\
   BOOTSTRAP_SERVERS config <> "") /\
  (environ !! "ORDER_TOPIC" = Some (ORDER_TOPIC config) /\
   ORDER_TOPIC config <> "") /\
  (environ !! "INVENTORY_TOPIC" = Some (INVENTORY_TOPIC config) /\
   INVENTORY_TOPIC config <> "") /\
  (environ !! "GROUP_ID" = Some (GROUP_ID config) /\ GROUP_ID config <> "") /\
  AUTO_OFFSET_RESET config = default "earliest" (environ !! "AUTO_OFFSET_RESET") /\
  HTTP_HOST config = default "0.0.0.0" (environ !! "HTTP_HOST") /\
  py_float (default "60" (environ !! "WINDOW_SEC")) = Some (WINDOW_SEC config) /\
  py_int_of_str (default "0" (environ !! "THROTTLE_MS")) = Some (THROTTLE_MS config) /\
  py_int_of_str (default "8080" (environ !! "HTTP_PORT")) = Some (HTTP_PORT config) /\
  py_float (default "0" (environ !! "REPORT_INTERVAL_SEC")) =
    Some (REPORT_INTERVAL_SEC config) /\
  GROUP_INSTANCE_ID config <> Some "".
Proof.
  unfold _load_env.
  destruct (missing environ) as [|k l] eqn:Hmiss; [|discriminate].
  assert (Hset : forall key, In key required ->
            exists v, environ !! key = Some v /\ v <> "").
  { intros key Hreq. destruct (environ !! key) as [v|] eqn:Hk.
    - exists v. split; auto. intros ->.
      assert (Hin : In key (missing environ)) by (apply missing_In; auto).
      rewrite Hmiss in Hin. destruct Hin.
    - assert (Hin : In key (missing environ)) by (apply missing_In; auto).
      rewrite Hmiss in Hin. destruct Hin. }
  destruct (py_float (default "60" (environ !! "WINDOW_SEC"))) as [ws|];
    [|discriminate].
  destruct (py_int_of_str (default "0" (environ !! "THROTTLE_MS"))) as [th|];
    [|discriminate].
  destruct (py_int_of_str (default "8080" (environ !! "HTTP_PORT"))) as [port|];
    [|discriminate].
  destruct (py_float (default "0" (environ !! "REPORT_INTERVAL_SEC"))) as [rep|];
    [|discriminate].
  intros [= <-]. simpl.
  destruct (Hset "BOOTSTRAP_SERVERS") as (v1 & -> & Hv1); [simpl; tauto|].
  destruct (Hset "ORDER_TOPIC") as (v2 & -> & Hv2); [simpl; tauto|].
  destruct (Hset "INVENTORY_TOPIC") as (v3 & -> & Hv3); [simpl; tauto|].
  destruct (Hset "GROUP_ID") as (v4 & -> & Hv4); [simpl; tauto|].
  simpl. repeat split; auto.
  destruct (decide (str_strip (default "" (environ !! "GROUP_INSTANCE_ID")) = ""));
    [discriminate|]. congruence.
Qed.

End LoadEnvProofs.

Lemma load_env_reports_missing_variables_witness :
  Startup.sample_environ_incomplete !! "ORDER_TOPIC" = None /\
  @Startup._load_env Startup.sample_parsers Startup.sample_environ_incomplete =
  inl (Startup.RuntimeError "Missing required env vars: ORDER_TOPIC, GROUP_ID").
Proof.
  split; [reflexivity|].
  exact (proj1 (@load_env_reports_missing_variables Startup.sample_parsers
                  Startup.sample_environ_incomplete "ORDER_TOPIC"
                  (or_intror (or_introl eq_refl)) (or_introl eq_refl))).
Defined.

Lemma load_env_returns_configuration_witness :
  exists config,
    @Startup._load_env Startup.sample_parsers Startup.sample_environ = inr config /\
    Startup.WINDOW_SEC config = 60 /\
    Startup.GROUP_INSTANCE_ID config <> Some "".
Proof.
  eexists. split; [reflexivity|]. split; [reflexivity|].
  refine (proj2 (proj2 (proj2 (proj2 (proj2 (proj2 (proj2 (proj2 (proj2 (proj2
    (@load_env_returns_configuration Startup.sample_parsers
       Startup.sample_environ _ eq_refl))))))))))).
Defined.

(** ** KafkaAnalyticsWorker: counters and commits *)

Section WorkerCounts.
Context `{PyRuntime}.
Import KafkaAnalyticsWorker.

(** X17: an order whose payload has [order_id] set to [null] is tracked
    under the identifier [None], the text [str] makes of it, whatever its
    message key, while its identity is built from the message key: when the
    filter reports it as new it is counted as an order and the key [None]
    of the unique-order window gets the time of the call, a double as
    every reading of the clock is. *)
Theorem null_order_id_is_tracked_as_None
    (w : t) (t_reg t_rec : Q) (key value : option (list Byte.byte))
    (members : list (string * json)) (event_id : string) :
  _decode_payload value = Ok (JObj members) ->
  dict_lookup "order_id" members = Some JNull ->
  _event_id (ORDER_TOPIC (env w)) key (JObj members) = Ok event_id ->
  (DuplicateFilter.register t_reg event_id (deduper w)).1 = false ->
  0 <= UniqueOrderWindow.window (MetricsAggregator.order_window (metrics w)) ->
  is_double t_rec = true ->
  _resolve_order_id key members = Some "None" /\
  event_id =
    ORDER_TOPIC (env w) +:+ ":" +:+
    match key with
    | Some raw =>
        if decide (bytes_decode_utf8_ignore raw = "") then "na"
        else bytes_decode_utf8_ignore raw
    | None => "na"
    end +:+ ":" +:+ sha1_hexdigest (json_dumps_sort_keys (JObj members)) /\
  exists w',
    _handle_message t_reg t_rec (ORDER_TOPIC (env w)) key value w = Ok w' /\
    MetricsAggregator.orders (MetricsAggregator.stats (metrics w')) =
      (MetricsAggregator.orders (MetricsAggregator.stats (metrics w)) + 1)%Z /\
    UniqueOrderWindow._entries (MetricsAggregator.order_window (metrics w'))
      !! "None" = Some t_rec.
Proof.
  intros Hd Hnull He Hnew HW Hdouble.
  assert (Hres : _resolve_order_id key members = Some "None").
  { unfold _resolve_order_id. by rewrite Hnull. }
  split; [exact Hres|]. split.
  - unfold _event_id in He. simpl in He. rewrite Hnull in He. simpl in He.
    destruct key as [raw|]; simpl in He.
    + destruct (decide (bytes_decode_utf8_ignore raw = "")) as [Hraw|Hraw].
      * rewrite bool_decide_eq_true_2 in He by exact Hraw. simpl in He. congruence.
      * rewrite bool_decide_eq_false_2 in He by exact Hraw. simpl in He. congruence.
    + congruence.
  - unfold _handle_message. rewrite Hd, He. simpl.
    destruct (DuplicateFilter.register t_reg event_id (deduper w)) as [dup d'].
    simpl in Hnew. subst dup.
    destruct (decide (ORDER_TOPIC (env w) = ORDER_TOPIC (env w))); [|done].
    eexists. split; [reflexivity|]. simpl. split; [done|].
    rewrite Hres. by apply track_records.
Qed.

(** The sum of the three lifetime counters. *)
Lemma handle_counts t_reg t_rec topic key value w w' :
  _handle_message t_reg t_rec topic key value w = Ok w' ->
  let total m := (MetricsAggregator.orders (MetricsAggregator.stats m) +
                  MetricsAggregator.inventory (MetricsAggregator.stats m) +
                  MetricsAggregator.duplicates (MetricsAggregator.stats m))%Z in
  (total (metrics w) <= total (metrics w') <= total (metrics w) + 1)%Z.
Proof.
  unfold _handle_message.
  destruct (_decode_payload value) as [payload|e].
  - destruct (_event_id topic key payload) as [event_id|e]; simpl; [|discriminate].
    destruct (DuplicateFilter.register t_reg event_id (deduper w)) as [dup d'].
    destruct dup.
    + intros [= <-]. simpl. lia.
    + destruct (decide (topic = ORDER_TOPIC (env w))).
      * destruct payload; try discriminate. intros [= <-]. simpl. lia.
      * destruct (decide (topic = INVENTORY_TOPIC (env w))).
        -- destruct (payload_get payload "status"); simpl; [|discriminate].
           intros [= <-]. simpl. lia.
        -- intros [= <-]. simpl. lia.
  - destruct e; try discriminate. intros [= <-]. simpl. lia.
Qed.

Lemma iteration_counts (p : Poll) (w : t) :
  let total m := (MetricsAggregator.orders (MetricsAggregator.stats m) +
                  MetricsAggregator.inventory (MetricsAggregator.stats m) +
                  MetricsAggregator.duplicates (MetricsAggregator.stats m))%Z in
  let out := iteration p w in
  (total (metrics w) <= total (metrics out.1.1)
     <= total (metrics w) + Z.of_nat (length (Calls.commits out.1.2))
        + Z.of_nat (length (Calls.refused out.1.2)))%Z /\
  (out.2 = None -> Calls.refused out.1.2 = []) /\
  (Calls.refused out.1.2 = [] \/
   exists msg code,
     Calls.refused out.1.2 = [msg] /\ out.2 = Some (KafkaException code)).
Proof.
  cbv zeta. unfold iteration.
  destruct (polled p) as [msg|]; [|simpl; split; [lia|auto]].
  destruct (Message.error msg) as [code|].
  - destruct (code =? _PARTITION_EOF)%Z; [simpl; split; [lia|auto]|].
    destruct (code =? UNKNOWN_TOPIC_OR_PART)%Z; simpl; (split; [lia|auto]).
  - destruct (_handle_message _ _ _ _ _ w) as [w'|e] eqn:Hh;
      [|simpl; split; [lia|auto]].
    apply handle_counts in Hh. cbv zeta in Hh.
    destruct (commit_error p) as [code|]; simpl.
    + split; [lia|]. split; [discriminate|]. right. by exists msg, code.
    + destruct (Qeq_bool (throttle w') 0); simpl; [split; [lia|auto]|].
      destruct (time_sleep (throttle w')); simpl; (split; [lia|auto]).
Qed.

(** X18: the lifetime counters run ahead of the commits by one message at
    most: over any run of the loop, [orders + inventory + duplicates] never
    shrinks, and grows by at most the number of messages committed plus the
    number of messages whose commit the broker refused.  There is at most
    one such message, the last one handled, and then the loop has ended
    with [KafkaException]; a loop that ends without an exception has
    committed every message it counted. *)
Theorem counters_bounded_by_commits (polls : list Poll) (w : t) :
  let total m := (MetricsAggregator.orders (MetricsAggregator.stats m) +
                  MetricsAggregator.inventory (MetricsAggregator.stats m) +
                  MetricsAggregator.duplicates (MetricsAggregator.stats m))%Z in
  let out := run polls w in
  (total (metrics w) <= total (metrics out.1.1)
     <= total (metrics w) + Z.of_nat (length (Calls.commits out.1.2))
        + Z.of_nat (length (Calls.refused out.1.2)))%Z /\
  (out.2 = None -> Calls.refused out.1.2 = []) /\
  (Calls.refused out.1.2 = [] \/
   exists msg code,
     Calls.refused out.1.2 = [msg] /\ out.2 = Some (KafkaException code)).
Proof.
  cbv zeta. revert w. induction polls as [|p rest IH]; intros w.
  - simpl. split; [lia|auto].
  - rewrite run_cons_step.
    pose proof (iteration_counts p w) as Hi. cbv zeta in Hi.
    destruct (iteration p w) as [[w1 effects] [e|]]; simpl in *.
    + rewrite commits_app, refused_app, !length_app, !app_nil_r. simpl.
      destruct Hi as (Hb & Hnone & Hone). split; [lia|].
      split; [discriminate|exact Hone].
    + destruct Hi as (Hb & Hnone & _). specialize (Hnone eq_refl).
      destruct (IH w1) as (Hb' & Hnone' & Hone').
      rewrite commits_app, refused_app, !length_app, Hnone. simpl.
      rewrite Hnone in Hb. simpl in Hb. split; [lia|]. split; assumption.
Qed.

End WorkerCounts.

Lemma null_order_id_is_tracked_as_None_witness :
  @_decode_payload SampleOrders.runtime (Message.value SampleOrders.null_order) =
    Ok (JObj [("order_id", JNull)]) /\
  @_resolve_order_id SampleOrders.runtime (Message.key SampleOrders.null_order)
    [("order_id", JNull)] = Some "None" /\
  exists w',
    @KafkaAnalyticsWorker._handle_message SampleOrders.runtime 5 5 "orders"
      (Message.key SampleOrders.null_order) (Message.value SampleOrders.null_order)
      Sample.worker = Ok w' /\
    UniqueOrderWindow._entries
      (MetricsAggregator.order_window (KafkaAnalyticsWorker.metrics w'))
      !! "None" = Some 5.
Proof.
  split; [reflexivity|].
  destruct (@null_order_id_is_tracked_as_None SampleOrders.runtime Sample.worker
              5 5 (Message.key SampleOrders.null_order)
              (Message.value SampleOrders.null_order)
              [("order_id", JNull)]
              ("orders:k1:" +:+ SampleOrders.null_order_text)
              eq_refl eq_refl eq_refl eq_refl)
    as (Hres & _ & w' & Hw' & _ & Hentry).
  { vm_compute. discriminate. }
  { reflexivity. }
  split; [exact Hres|]. exists w'. split; [exact Hw'|exact Hentry].
Defined.

(** ** Snapshots among the record calls *)

(** A key tracked at a reading below the cutoff, behind a deque that is
    below the cutoff throughout, leaves the map as if it had never been
    there. *)
Lemma window_evict_loop_gone (c now : Q) (k : string) (order : list (Q * string)) :
  now < c -> Forall (fun e => e.1 < c) order ->
  forall entries,
    UniqueOrderWindow.evict_loop c (<[k := now]> entries) (order ++ [(now, k)]) =
    UniqueOrderWindow.evict_loop c (delete k entries) (order ++ [(now, k)]).
Proof.
  intros Hnow Hall. induction order as [|[ts k0] rest IH]; intros entries.
  - simpl. apply Qltb_lt in Hnow. rewrite Hnow, lookup_insert_eq, lookup_delete_eq.
    rewrite (proj2 (Qeq_bool_iff now now)) by reflexivity.
    by rewrite delete_insert_eq.
  - apply Forall_cons in Hall as [Hts Hall]. simpl in Hts. specialize (IH Hall).
    cbn [UniqueOrderWindow.evict_loop app]. apply Qltb_lt in Hts. rewrite Hts.
    destruct (decide (k0 = k)) as [->|Hne].
    + rewrite lookup_insert_eq, lookup_delete_eq.
      destruct (Qeq_bool now ts); [by rewrite delete_insert_eq|apply IH].
    + rewrite lookup_insert_ne, lookup_delete_ne by congruence.
      destruct (entries !! k0) as [ts'|]; [|apply IH].
      destruct (Qeq_bool ts' ts); [|apply IH].
      rewrite delete_insert_ne by congruence.
      rewrite (delete_delete entries k0 k). apply IH.
Qed.

(** Tracking a key after an eviction with an earlier cutoff leaves what
    tracking it without that eviction leaves, when no pair of the deque is
    from after the reading. *)
Lemma window_track_evict_loop (c1 c2 now : Q) (k : string)
    (order : list (Q * string)) :
  c1 <= c2 -> Forall (fun e => e.1 <= now) order ->
  forall entries,
    UniqueOrderWindow.evict_loop c2
      (<[k := now]> (UniqueOrderWindow.evict_loop c1 entries order).1)
      ((UniqueOrderWindow.evict_loop c1 entries order).2 ++ [(now, k)]) =
    UniqueOrderWindow.evict_loop c2 (<[k := now]> entries) (order ++ [(now, k)]).
Proof.
  intros Hc Hall. induction order as [|[ts k0] rest IH]; intros entries; [done|].
  apply Forall_cons in Hall as [Hts Hall]. simpl in Hts. specialize (IH Hall).
  cbn [UniqueOrderWindow.evict_loop app].
  destruct (Qltb ts c1) eqn:E1; [|done].
  apply Qltb_lt in E1. assert (E2 : Qltb ts c2 = true) by (apply Qltb_lt; lra).
  rewrite E2, IH. destruct (decide (k0 = k)) as [->|Hne].
  - assert (Hins : <[k := now]>
                     match entries !! k with
                     | Some ts' => if Qeq_bool ts' ts then delete k entries else entries
                     | None => entries
                     end = <[k := now]> entries).
    { destruct (entries !! k) as [ts'|]; [|done].
      destruct (Qeq_bool ts' ts); [apply insert_delete_eq|done]. }
    rewrite Hins, lookup_insert_eq.
    destruct (Qeq_bool now ts) eqn:Heq; [|done].
    apply Qeq_bool_iff in Heq. rewrite delete_insert_eq.
    apply window_evict_loop_gone; [lra|].
    eapply Forall_impl; [exact Hall|]. intros e He. simpl in He. lra.
  - rewrite lookup_insert_ne by congruence.
    destruct (entries !! k0) as [ts'|]; [|done].
    destruct (Qeq_bool ts' ts); [|done].
    by rewrite delete_insert_ne by congruence.
Qed.

Lemma track_after_evict t now k s :
  k <> "" -> t <= now ->
  Forall (fun e => e.1 <= now) (UniqueOrderWindow._order s) ->
  UniqueOrderWindow.track now (Some k) (UniqueOrderWindow._evict t s) =
  UniqueOrderWindow.track now (Some k) s.
Proof.
  intros Hk Ht Hall. unfold UniqueOrderWindow.track.
  destruct (decide (k = "")); [done|].
  destruct (window_evict_fields t s) as (HWe & He & Ho).
  rewrite HWe, He, Ho. unfold UniqueOrderWindow._evict. simpl.
  rewrite window_track_evict_loop; [reflexivity|by apply py_sub_mono|exact Hall].
Qed.

(** No pair of the deque is from after the latest reading. *)
Lemma track_order_bound now order_id s :
  Forall (fun e => e.1 <= now) (UniqueOrderWindow._order s) ->
  Forall (fun e => e.1 <= now)
    (UniqueOrderWindow._order (UniqueOrderWindow.track now order_id s)).
Proof.
  intros Hall. unfold UniqueOrderWindow.track.
  destruct order_id as [k|]; [|done]. destruct (decide (k = "")); [done|].
  destruct (window_evict_fields now
    (UniqueOrderWindow.mk (UniqueOrderWindow.window s)
       (<[k:=now]> (UniqueOrderWindow._entries s))
       (UniqueOrderWindow._order s ++ [(now, k)]))) as (_ & _ & ->).
  simpl.
  destruct (window_evict_suffix
              (py_sub now (UniqueOrderWindow.window s))
              (UniqueOrderWindow._order s ++ [(now, k)])
              (<[k:=now]> (UniqueOrderWindow._entries s))) as (dropped & Heq & _).
  assert (Hfull : Forall (fun e : Q * string => e.1 <= now)
                    (UniqueOrderWindow._order s ++ [(now, k)])).
  { apply Forall_app. split; [exact Hall|]. constructor; [simpl; lra|constructor]. }
  rewrite Heq in Hfull. by apply Forall_app in Hfull as [_ ?].
Qed.

(** The pairs the loop leaves do not depend on the counter. *)
Lemma failure_evict_loop_events (c : Q) (events : list (Q * bool)) :
  forall f1 f2,
    (FailureWindow.evict_loop c events f1).1 = (FailureWindow.evict_loop c events f2).1.
Proof.
  induction events as [|[ts b] rest IH]; intros f1 f2; simpl; auto.
  destruct (Qltb ts c); auto.
Qed.

Lemma failure_track_evict_loop (c1 c2 : Q) (x : Q * bool) (events : list (Q * bool)) :
  c1 <= c2 ->
  forall f1 f2 f3,
    (FailureWindow.evict_loop c2
       ((FailureWindow.evict_loop c1 events f1).1 ++ [x]) f2).1 =
    (FailureWindow.evict_loop c2 (events ++ [x]) f3).1.
Proof.
  intros Hc. induction events as [|[ts b] rest IH]; intros f1 f2 f3.
  - apply failure_evict_loop_events.
  - cbn [FailureWindow.evict_loop app]. destruct (Qltb ts c1) eqn:E1.
    + apply Qltb_lt in E1.
      assert (E2 : Qltb ts c2 = true) by (apply Qltb_lt; lra).
      rewrite E2. apply IH.
    + apply (failure_evict_loop_events c2 (((ts, b) :: rest) ++ [x])).
Qed.

(** A window whose counter agrees with its deque is known by its size and
    its deque. *)
Lemma failure_window_eq (s1 s2 : FailureWindow.t) :
  FailureWindow.window s1 = FailureWindow.window s2 ->
  FailureWindow._events s1 = FailureWindow._events s2 ->
  FailureWindow.counter_inv s1 -> FailureWindow.counter_inv s2 -> s1 = s2.
Proof.
  destruct s1, s2. unfold FailureWindow.counter_inv. simpl.
  by intros -> -> -> ->.
Qed.

Lemma failure_track_after_evict t now b s :
  FailureWindow.counter_inv s -> t <= now ->
  FailureWindow.track now b (FailureWindow._evict t s) = FailureWindow.track now b s.
Proof.
  intros Hc Ht. apply failure_window_eq.
  - rewrite !failure_track_keeps_window.
    by destruct (failure_evict_fields t s) as (-> & _).
  - unfold FailureWindow.track.
    destruct (failure_evict_fields now
      (FailureWindow.mk (FailureWindow.window (FailureWindow._evict t s))
         (FailureWindow._events (FailureWindow._evict t s) ++ [(now, b)])
         (if b then (FailureWindow._failures (FailureWindow._evict t s) + 1)%Z
          else FailureWindow._failures (FailureWindow._evict t s))))
      as (_ & -> & _).
    destruct (failure_evict_fields now
      (FailureWindow.mk (FailureWindow.window s)
         (FailureWindow._events s ++ [(now, b)])
         (if b then (FailureWindow._failures s + 1)%Z
          else FailureWindow._failures s))) as (_ & -> & _).
    simpl. destruct (failure_evict_fields t s) as (-> & -> & _).
    apply failure_track_evict_loop. by apply py_sub_mono.
  - by apply counter_inv_track, counter_inv_evict.
  - by apply counter_inv_track.
Qed.

Section SnapshotsAmongRecords.
Import MetricsAggregator.

Lemma behind_weaken tb tb' m1 m2 :
  tb <= tb' -> Calls.behind tb m1 m2 -> Calls.behind tb' m1 m2.
Proof.
  intros Hle (Hst & Hws & Ho & Hf & Hq). repeat split; auto.
  - destruct Ho as [Ho|(t & Ht & Ho)]; [by left|right]. exists t. split; [lra|done].
  - destruct Hf as [Hf|(t & Ht & Hf)]; [by left|right]. exists t. split; [lra|done].
  - eapply Forall_impl; [exact Hq|]. intros e He. simpl in He. lra.
Qed.

Lemma behind_inv ws tb m1 m2 :
  Calls.aggregator_inv ws m2 -> Calls.behind tb m1 m2 -> Calls.aggregator_inv ws m1.
Proof.
  intros (HWo & HWf & Hc & Hws) (Hst & Hws' & Ho & Hf & _). repeat split.
  - destruct Ho as [->|(t & _ & ->)]; auto.
    by destruct (window_evict_fields t (order_window m2)) as (-> & _).
  - destruct Hf as [->|(t & _ & ->)]; auto.
    by destruct (failure_evict_fields t (failure_window m2)) as (-> & _).
  - destruct Hf as [->|(t & _ & ->)]; auto. by apply counter_inv_evict.
  - congruence.
Qed.

Lemma record_behind ws tb c m1 m2 :
  Calls.aggregator_inv ws m2 -> Calls.behind tb m1 m2 ->
  Calls.is_record c = true ->
  nondecreasing (tb :: Calls.times c) = true ->
  exists m1' m2',
    Calls.apply c m1 = Ok m1' /\ Calls.apply c m2 = Ok m2' /\
    Calls.aggregator_inv ws m2' /\
    Calls.behind (List.last (Calls.times c) tb) m1' m2'.
Proof.
  intros Hinv Hb Hrec Htimes.
  destruct (apply_keeps_inv ws c m2 Hinv) as (m2' & Hm2 & Hinv2 & _).
  pose proof Hinv as (HWo & HWf & Hc & Hws).
  destruct c as [now oid|now b| |t1 t2 t3 t4]; simpl in *; try discriminate.
  - injection Hm2 as <-. do 2 eexists. split; [reflexivity|]. split; [reflexivity|].
    split; [exact Hinv2|].
    assert (Hnow : tb <= now).
    { rewrite !andb_true_iff, Qle_bool_iff in Htimes. tauto. }
    apply (behind_weaken tb now) in Hb; [|exact Hnow].
    destruct Hb as (Hst & Hws' & Ho & Hf & Hq).
    unfold record_order. split; [simpl; by rewrite Hst|]. split; [done|].
    split; [|split; [exact Hf|by apply track_order_bound]]. simpl.
    destruct Ho as [->|(t & Ht & ->)]; [by left|].
    destruct oid as [k|]; [|right; eauto].
    destruct (decide (k = "")) as [->|Hk]; [right; eauto|].
    left. by apply track_after_evict.
  - injection Hm2 as <-. do 2 eexists. split; [reflexivity|]. split; [reflexivity|].
    split; [exact Hinv2|].
    assert (Hnow : tb <= now).
    { rewrite !andb_true_iff, Qle_bool_iff in Htimes. tauto. }
    apply (behind_weaken tb now) in Hb; [|exact Hnow].
    destruct Hb as (Hst & Hws' & Ho & Hf & Hq).
    unfold record_inventory. split; [simpl; by rewrite Hst|]. split; [done|].
    split; [exact Ho|]. split; [|exact Hq]. simpl.
    destruct Hf as [->|(t & Ht & ->)]; [by left|].
    left. by apply failure_track_after_evict.
  - injection Hm2 as <-. do 2 eexists. split; [reflexivity|]. split; [reflexivity|].
    split; [exact Hinv2|].
    destruct Hb as (Hst & Hws' & Ho & Hf & Hq).
    unfold record_duplicate. split; [simpl; by rewrite Hst|]. by repeat split.
Qed.

Lemma snapshot_behind ws tb t1 t2 t3 t4 m1 m2 :
  Calls.aggregator_inv ws m2 -> Calls.behind tb m1 m2 ->
  nondecreasing [tb; t1; t2; t3; t4] = true ->
  exists m1',
    Calls.apply (Calls.TakeSnapshot t1 t2 t3 t4) m1 = Ok m1' /\
    Calls.behind t4 m1' m2.
Proof.
  intros Hinv Hb Hs.
  assert (Hord : tb <= t1 /\ t1 <= t2 /\ t2 <= t3 /\ t3 <= t4).
  { simpl in Hs. rewrite !andb_true_iff, !Qle_bool_iff in Hs. tauto. }
  destruct Hord as (H01 & H12 & H23 & H34).
  pose proof (behind_inv ws tb m1 m2 Hinv Hb) as Hinv1.
  destruct (snapshot_returns ws m1 t1 t2 t3 t4 Hinv1) as (snap & Hsnap & _).
  simpl. rewrite Hsnap. simpl. eexists. split; [reflexivity|].
  destruct Hb as (Hst & Hws' & Ho & Hf & Hq).
  split; [exact Hst|]. split; [exact Hws'|]. simpl. split; [|split].
  - right. exists t2. split; [lra|].
    destruct Ho as [->|(t & Ht & ->)]; [done|].
    apply window_evict_compose. lra.
  - right. exists t3. split; [lra|].
    destruct Hf as [->|(t & Ht & ->)].
    + apply failure_evict_compose. lra.
    + rewrite (failure_evict_compose t t1) by lra.
      apply failure_evict_compose. lra.
  - eapply Forall_impl; [exact Hq|]. intros e He. simpl in He. lra.
Qed.

Lemma run_cons c rest m :
  Calls.run (c :: rest) m = (Calls.apply c m ≫= Calls.run rest).
Proof. reflexivity. Qed.

Lemma run_behind ws (calls : list Calls.call) :
  forall tb m1 m2 u,
    Calls.aggregator_inv ws m2 -> Calls.behind tb m1 m2 ->
    nondecreasing (tb :: concat (map Calls.times calls) ++ [u]) = true ->
    exists m1' m2',
      Calls.run calls m1 = Ok m1' /\
      Calls.run (Calls.records calls) m2 = Ok m2' /\
      Calls.aggregator_inv ws m2' /\ Calls.behind u m1' m2'.
Proof.
  induction calls as [|c rest IH]; intros tb m1 m2 u Hinv Hb Hs.
  - exists m1, m2. split; [done|]. split; [done|]. split; [exact Hinv|].
    apply (behind_weaken tb); auto.
    change (nondecreasing (tb :: [u]) = true) in Hs.
    apply nondecreasing_cons in Hs as [Hall _].
    rewrite Forall_forall in Hall. apply Hall. by left.
  - change (nondecreasing
              (tb :: (Calls.times c ++ concat (map Calls.times rest)) ++ [u]) = true)
      in Hs.
    rewrite <- app_assoc in Hs.
    destruct (Calls.is_record c) eqn:Hrec.
    + change (nondecreasing
                ((tb :: Calls.times c) ++ (concat (map Calls.times rest) ++ [u]))
              = true) in Hs.
      apply nondecreasing_app in Hs as (Hc & Hrest & Hcross).
      destruct (record_behind ws tb c m1 m2 Hinv Hb Hrec Hc)
        as (m1a & m2a & Hm1 & Hm2 & Hinv2 & Hb2).
      assert (Hlast : In (List.last (Calls.times c) tb) (tb :: Calls.times c)).
      { destruct c; try discriminate; simpl; auto. }
      assert (Hs2 : nondecreasing
                      (List.last (Calls.times c) tb ::
                       concat (map Calls.times rest) ++ [u]) = true).
      { apply nondecreasing_cons. split; [|exact Hrest].
        apply Forall_forall. intros b Hb'. apply Hcross; [exact Hlast|].
        by apply list_elem_of_In. }
      destruct (IH _ m1a m2a u Hinv2 Hb2 Hs2) as (m1' & m2' & Hr1 & Hr2 & Hi & Hbu).
      exists m1', m2'. split; [|split; [|by split]].
      * rewrite run_cons, Hm1. exact Hr1.
      * unfold Calls.records. simpl List.filter. rewrite Hrec.
        rewrite run_cons, Hm2. exact Hr2.
    + destruct c as [| | |t1 t2 t3 t4]; try discriminate.
      assert (Hfour : nondecreasing [tb; t1; t2; t3; t4] = true).
      { change (nondecreasing
                  ([tb; t1; t2; t3; t4] ++ (concat (map Calls.times rest) ++ [u]))
                = true) in Hs.
        by apply nondecreasing_app in Hs as (? & _). }
      assert (Hrest : nondecreasing (t4 :: concat (map Calls.times rest) ++ [u]) = true).
      { change (nondecreasing
                  ([tb; t1; t2; t3] ++ (t4 :: concat (map Calls.times rest) ++ [u]))
                = true) in Hs.
        by apply nondecreasing_app in Hs as (_ & ? & _). }
      destruct (snapshot_behind ws tb t1 t2 t3 t4 m1 m2 Hinv Hb Hfour)
        as (m1a & Hm1 & Hb2).
      destruct (IH t4 m1a m2 u Hinv Hb2 Hrest) as (m1' & m2' & Hr1 & Hr2 & Hi & Hbu).
      exists m1', m2'. split; [|split; [exact Hr2|by split]].
      rewrite run_cons, Hm1. exact Hr1.
Qed.

(** X19: the snapshots taken by the reporter and the HTTP endpoint do not
    disturb the metrics.  For calls on an aggregator built with [__init__]
    whose clock readings never decrease, a final [snapshot()] returns the
    same dict, and leaves the same aggregator, whether the sequence held
    [snapshot] calls among its [record_*] calls or not. *)
Theorem snapshots_do_not_disturb_metrics
    (window_seconds : Q) (calls : list Calls.call) (u1 u2 u3 u4 : Q) :
  nondecreasing (concat (map Calls.times calls) ++ [u1; u2; u3; u4]) = true ->
  exists m1 m2,
    Calls.run calls (__init__ window_seconds) = Ok m1 /\
    Calls.run (Calls.records calls) (__init__ window_seconds) = Ok m2 /\
    snapshot u1 u2 u3 u4 m1 = snapshot u1 u2 u3 u4 m2 /\
    stats m1 = stats m2.
Proof.
  intros Hs.
  set (L := concat (map Calls.times calls)) in *.
  assert (Hu : nondecreasing [u1; u2; u3; u4] = true).
  { by apply nondecreasing_app in Hs as (_ & ? & _). }
  assert (H12 : u1 <= u2).
  { simpl in Hu. rewrite !andb_true_iff, !Qle_bool_iff in Hu. tauto. }
  set (tb := hd u1 L).
  assert (Htb : nondecreasing (tb :: L ++ [u1]) = true).
  { change [u1; u2; u3; u4] with ([u1] ++ [u2; u3; u4]) in Hs.
    rewrite app_assoc in Hs. apply nondecreasing_app in Hs as (Hs & _).
    apply nondecreasing_cons. split; [|exact Hs].
    subst tb. destruct L as [|a L']; simpl in *.
    - constructor; [lra|constructor].
    - apply nondecreasing_cons in Hs as [Hall _]. constructor; [lra|exact Hall]. }
  destruct (run_behind window_seconds calls tb (__init__ window_seconds)
              (__init__ window_seconds) u1 (aggregator_inv_init _))
    as (m1 & m2 & Hr1 & Hr2 & Hinv & Hst & Hws & Ho & Hf & _); auto.
  { repeat split; auto. }
  exists m1, m2. split; [exact Hr1|]. split; [exact Hr2|]. split; [|exact Hst].
  unfold snapshot, FailureWindow.totals, UniqueOrderWindow.per_minute. simpl.
  assert (He : UniqueOrderWindow._evict u2 (order_window m1) =
               UniqueOrderWindow._evict u2 (order_window m2)).
  { destruct Ho as [->|(t & Ht & ->)]; [done|].
    apply window_evict_compose. lra. }
  assert (Hfw : FailureWindow._evict u1 (failure_window m1) =
                FailureWindow._evict u1 (failure_window m2)).
  { destruct Hf as [->|(t & Ht & ->)]; [done|].
    by apply failure_evict_compose. }
  by rewrite He, Hfw, Hst, Hws.
Qed.

Lemma snapshots_do_not_disturb_metrics_witness :
  nondecreasing
    (concat (map Calls.times
       [Calls.RecordInventory 0 true; Calls.TakeSnapshot 10 10 10 10;
        Calls.RecordOrder 20 (Some "X"); Calls.TakeSnapshot 65 65 65 65;
        Calls.RecordInventory 70 false]) ++ [80; 80; 80; 80]) = true /\
  exists m1 m2,
    Calls.run
      [Calls.RecordInventory 0 true; Calls.TakeSnapshot 10 10 10 10;
       Calls.RecordOrder 20 (Some "X"); Calls.TakeSnapshot 65 65 65 65;
       Calls.RecordInventory 70 false] (__init__ 60) = Ok m1 /\
    Calls.run
      [Calls.RecordInventory 0 true; Calls.RecordOrder 20 (Some "X");
       Calls.RecordInventory 70 false] (__init__ 60) = Ok m2 /\
    snapshot 80 80 80 80 m1 = snapshot 80 80 80 80 m2 /\
    stats m1 = stats m2.
Proof.
  split; [reflexivity|].
  exact (snapshots_do_not_disturb_metrics 60
           [Calls.RecordInventory 0 true; Calls.TakeSnapshot 10 10 10 10;
            Calls.RecordOrder 20 (Some "X"); Calls.TakeSnapshot 65 65 65 65;
            Calls.RecordInventory 70 false] 80 80 80 80 eq_refl).
Defined.

End SnapshotsAmongRecords.
